(** * OffiStation storefront: cart, vouchers and totals

    A shallow embedding of the cart logic of the two scripts of the
    repository:

    - [Script1]: [src/script1.js], the first version of the cart script
      (no vouchers, no login gate);
    - [Script]: the script that follows the setup guide inside
      [src/GOOGLE_OAUTH_SETUP.md] (vouchers, login gate, checkout
      quantity controls).

    Numbers.  Prices and money amounts are rationals ([Q]); quantities and
    counts are integers ([Z]).  JavaScript computes both in binary floating
    point; rounding, [NaN] and infinities are outside this model, except
    that the [NaN] result of [parseInt] is kept as [None].

    Strings.  A text is kept as the bytes of its UTF-8 encoding, so a
    character outside ASCII takes two to four bytes (the peso sign of the
    voucher descriptions, a no-break space typed into a field).  [trim]
    removes the white space and the line terminators of ECMAScript.
    [toUpperCase] is exact on every text whose upper case is ASCII; a
    character whose upper case is not ASCII stays as it is.  The scripts
    use the upper case only to look a code up among the keys of the
    voucher table, which are ASCII, and store it only when it was
    found. *)

From Stdlib Require Import QArith Qminmax Qabs Lqa.
From Stdlib Require Import Ascii DecimalString.
From stdpp Require Import gmap strings list.

Local Open Scope string_scope.
Local Open Scope list_scope.
Local Open Scope Z_scope.

(** ** JavaScript primitives used by the scripts *)

Module JS.

(** The text with the bytes [l]. *)
Definition bytes (l : list nat) : string :=
  String.string_of_list_ascii (map ascii_of_nat l).

Definition one (c : ascii) : string := String c EmptyString.
Definition two (c d : ascii) : string := String c (String d EmptyString).
Definition three (c d e : ascii) : string :=
  String c (String d (String e EmptyString)).

(** The characters that [String.prototype.trim] and [parseInt] skip, in
    UTF-8: TAB, LF, VT, FF, CR and SPACE; U+00A0; U+1680; U+2000 to
    U+200A; U+2028 and U+2029; U+202F; U+205F; U+3000; U+FEFF. *)
Definition whiteSpace : list string :=
  [ bytes [9]; bytes [10]; bytes [11]; bytes [12]; bytes [13]; bytes [32];
    bytes [194; 160];
    bytes [225; 154; 128];
    bytes [226; 128; 128]; bytes [226; 128; 129]; bytes [226; 128; 130];
    bytes [226; 128; 131]; bytes [226; 128; 132]; bytes [226; 128; 133];
    bytes [226; 128; 134]; bytes [226; 128; 135]; bytes [226; 128; 136];
    bytes [226; 128; 137]; bytes [226; 128; 138];
    bytes [226; 128; 168]; bytes [226; 128; 169];
    bytes [226; 128; 175];
    bytes [226; 129; 159];
    bytes [227; 128; 128];
    bytes [239; 187; 191] ]%nat.

(** [s] is one white space character. *)
Definition isWhiteSpace (s : string) : bool :=
  existsb (String.eqb s) whiteSpace.

(** A white space character has one, two or three bytes. *)
Fixpoint trimStart (s : string) : string :=
  match s with
  | EmptyString => EmptyString
  | String c r =>
      if isWhiteSpace (one c) then trimStart r
      else
        match r with
        | EmptyString => s
        | String d r2 =>
            if isWhiteSpace (two c d) then trimStart r2
            else
              match r2 with
              | EmptyString => s
              | String e r3 =>
                  if isWhiteSpace (three c d e) then trimStart r3 else s
              end
        end
  end.

Definition isEmpty (s : string) : bool :=
  match s with EmptyString => true | String _ _ => false end.

(** From the end: what is kept of the rest, with the byte before it, is
    dropped when it is one white space character. *)
Fixpoint trimEnd (s : string) : string :=
  match s with
  | EmptyString => EmptyString
  | String c r =>
      let kept := String c (trimEnd r) in
      if isWhiteSpace kept then EmptyString else kept
  end.

Definition trim (s : string) : string := trimEnd (trimStart s).

Definition isLower (c : ascii) : bool :=
  let n := nat_of_ascii c in (97 <=? n)%nat && (n <=? 122)%nat.

Definition upperChar (c : ascii) : ascii :=
  if isLower c then ascii_of_nat (nat_of_ascii c - 32) else c.

(** The characters outside ASCII whose upper case is made of ASCII
    letters, with that upper case: U+00DF, U+0131, U+017F and the
    ligatures U+FB00 to U+FB06.  Every other character outside ASCII has
    an upper case that holds a character outside ASCII. *)
Definition specialUpper : list (string * string) :=
  [ (bytes [195; 159], "SS");
    (bytes [196; 177], "I");
    (bytes [197; 191], "S");
    (bytes [239; 172; 128], "FF");
    (bytes [239; 172; 129], "FI");
    (bytes [239; 172; 130], "FL");
    (bytes [239; 172; 131], "FFI");
    (bytes [239; 172; 132], "FFL");
    (bytes [239; 172; 133], "ST");
    (bytes [239; 172; 134], "ST") ]%nat.

Definition special (s : string) : option string :=
  snd <$> List.find (fun entry => String.eqb s (fst entry)) specialUpper.

(** [String.prototype.toUpperCase], character by character: a special
    character gives its upper case, a letter of a to z its capital, and
    every other byte is kept. *)
Fixpoint toUpperCase (s : string) : string :=
  match s with
  | EmptyString => EmptyString
  | String c r =>
      let plain := String (upperChar c) (toUpperCase r) in
      match r with
      | EmptyString => plain
      | String d r2 =>
          match special (two c d) with
          | Some upper => upper +:+ toUpperCase r2
          | None =>
              match r2 with
              | EmptyString => plain
              | String e r3 =>
                  match special (three c d e) with
                  | Some upper => upper +:+ toUpperCase r3
                  | None => plain
                  end
              end
          end
      end
  end.

(** [s.includes(c)] for a one-character needle. *)
Fixpoint includesChar (c : ascii) (s : string) : bool :=
  match s with
  | EmptyString => false
  | String d r => Ascii.eqb c d || includesChar c r
  end.

(** *** parseInt

    [parseInt] skips leading white space, reads an optional sign and then
    the longest run of digits of the radix; the result is [NaN] ([None])
    when there is no digit.  Without a radix argument a [0x]/[0X] prefix
    selects radix 16, otherwise the radix is 10. *)

Definition digitValue (c : ascii) : option Z :=
  let n := nat_of_ascii c in
  if (48 <=? n)%nat && (n <=? 57)%nat then Some (Z.of_nat (n - 48))
  else if (97 <=? n)%nat && (n <=? 122)%nat then Some (Z.of_nat (n - 87))
  else if (65 <=? n)%nat && (n <=? 90)%nat then Some (Z.of_nat (n - 55))
  else None.

Definition digitOf (radix : Z) (c : ascii) : option Z :=
  match digitValue c with
  | Some d => if d <? radix then Some d else None
  | None => None
  end.

(** Reads digits left to right; [acc] is [None] until a digit was read. *)
Fixpoint readDigits (radix : Z) (acc : option Z) (s : string) : option Z :=
  match s with
  | EmptyString => acc
  | String c r =>
      match digitOf radix c with
      | Some d =>
          readDigits radix
            (Some (match acc with Some a => a * radix + d | None => d end)) r
      | None => acc
      end
  end.

Definition stripSign (s : string) : bool * string :=
  match s with
  | String "-" r => (true, r)
  | String "+" r => (false, r)
  | _ => (false, s)
  end.

Definition stripHexPrefix (s : string) : option string :=
  match s with
  | String "0" (String "x" r) => Some r
  | String "0" (String "X" r) => Some r
  | _ => None
  end.

Definition parseInt (s : string) (radix : option Z) : option Z :=
  let '(neg, body) := stripSign (trimStart s) in
  let magnitude :=
    match radix with
    | Some r => readDigits r None body
    | None =>
        match stripHexPrefix body with
        | Some hex => readDigits 16 None hex
        | None => readDigits 10 None body
        end
    end in
  match magnitude with
  | Some m => Some (if neg then - m else m)
  | None => None
  end.

(** Property names every object inherits from [Object.prototype]; a
    bracket lookup [obj[k]] finds them when [k] is not an own key. *)
Definition Object_prototype : list string :=
  [ "constructor"; "hasOwnProperty"; "isPrototypeOf";
    "propertyIsEnumerable"; "toLocaleString"; "toString"; "valueOf";
    "__proto__"; "__defineGetter__"; "__defineSetter__";
    "__lookupGetter__"; "__lookupSetter__" ].

(** Exceptions that the modelled code can raise. *)
Inductive Exn := SyntaxError | URIError.

Inductive Outcome (A : Type) :=
| Ok (a : A)
| Throw (e : Exn).
Arguments Ok {A} a.
Arguments Throw {A} e.

End JS.
Export JS.

(** ** Data model shared by the two scripts *)

(** A cart line: [{ id, name, price, image, quantity }]. *)
Record CartItem := mkItem {
  id : string;
  name : string;
  price : Q;
  image : string;
  quantity : Z
}.

Definition Cart := list CartItem.

Definition withQuantity (q : Z) (i : CartItem) : CartItem :=
  {| id := id i; name := name i; price := price i; image := image i;
     quantity := q |}.

Definition withImage (img : string) (i : CartItem) : CartItem :=
  {| id := id i; name := name i; price := price i; image := img;
     quantity := quantity i |}.

(** The text kept under the key [cartItems], by what [JSON.parse] makes of
    it.  [Stringified c] is the text [JSON.stringify(c)], which [JSON.parse]
    reads back as [c]; [FalsyJSON] is a JSON text of a falsy value such as
    [null]; [NotJSON raw] is a text that is not JSON.  Texts of other JSON
    values (a number, an object) are outside the model. *)
Inductive CartText :=
| Stringified (c : Cart)
| FalsyJSON
| NotJSON (raw : string).

(** The text kept under [os_pending_add]: one stringified item, or a text
    that is not JSON. *)
Inductive PendingText :=
| StringifiedItem (i : CartItem)
| NotJSONItem (raw : string).

(** [localStorage], one field per key the scripts use; [None] is an absent
    key.  The storage never throws here; where the source wraps a single
    storage access in [try]/[catch], the access alone is kept. *)
Record Storage := mkStorage {
  cartItems : option CartText;
  os_active_voucher : option string;
  os_current_user : option string;
  os_saved_username : option string;
  os_pending_add : option PendingText;
  os_post_login_redirect : option string
}.

Definition emptyStorage : Storage :=
  mkStorage None None None None None None.

(** The header badge [#cart-count]: its text and its [data-count]. *)
Inductive BadgeText :=
| Count (n : Z)
| NinetyNinePlus.

Record Badge := mkBadge {
  textContent : BadgeText;
  data_count : Z
}.

(** What the handlers read and write: the storage and the badge element
    ([None] when the page has no badge).  Markup, styles, toasts and
    redirects are not part of the state. *)
Record Page := mkPage {
  localStorage : Storage;
  cart_count : option Badge
}.

(** ** Handlers as state transformers that may throw *)

Definition M (A : Type) : Type := Page -> Outcome A * Page.

#[global] Instance M_ret : MRet M := fun A a p => (Ok a, p).

#[global] Instance M_bind : MBind M := fun A B f m p =>
  match m p with
  | (Ok a, p') => f a p'
  | (Throw e, p') => (Throw e, p')
  end.

Definition throw {A} (e : Exn) : M A := fun p => (Throw e, p).

(** [try { m } catch (e) { h }] *)
Definition try_catch {A} (m : M A) (h : M A) : M A := fun p =>
  match m p with
  | (Ok a, p') => (Ok a, p')
  | (Throw _, p') => h p'
  end.

Definition getStorage : M Storage := fun p => (Ok (localStorage p), p).

Definition modifyStorage (f : Storage -> Storage) : M unit := fun p =>
  (Ok tt, {| localStorage := f (localStorage p); cart_count := cart_count p |}).

Definition getBadge : M (option Badge) := fun p => (Ok (cart_count p), p).

Definition setBadge (b : Badge) : M unit := fun p =>
  (Ok tt, {| localStorage := localStorage p; cart_count := Some b |}).

(** The state a handler leaves, and what it returned. *)
Definition exec {A} (m : M A) (p : Page) : Page := snd (m p).
Definition result {A} (m : M A) (p : Page) : Outcome A := fst (m p).

Definition set_cartItems (v : option CartText) (s : Storage) : Storage :=
  {| cartItems := v; os_active_voucher := os_active_voucher s;
     os_current_user := os_current_user s;
     os_saved_username := os_saved_username s;
     os_pending_add := os_pending_add s;
     os_post_login_redirect := os_post_login_redirect s |}.

Definition set_os_active_voucher (v : option string) (s : Storage) : Storage :=
  {| cartItems := cartItems s; os_active_voucher := v;
     os_current_user := os_current_user s;
     os_saved_username := os_saved_username s;
     os_pending_add := os_pending_add s;
     os_post_login_redirect := os_post_login_redirect s |}.

Definition set_os_current_user (v : option string) (s : Storage) : Storage :=
  {| cartItems := cartItems s; os_active_voucher := os_active_voucher s;
     os_current_user := v;
     os_saved_username := os_saved_username s;
     os_pending_add := os_pending_add s;
     os_post_login_redirect := os_post_login_redirect s |}.

Definition set_os_saved_username (v : option string) (s : Storage) : Storage :=
  {| cartItems := cartItems s; os_active_voucher := os_active_voucher s;
     os_current_user := os_current_user s;
     os_saved_username := v;
     os_pending_add := os_pending_add s;
     os_post_login_redirect := os_post_login_redirect s |}.

Definition set_os_pending_add (v : option PendingText) (s : Storage) : Storage :=
  {| cartItems := cartItems s; os_active_voucher := os_active_voucher s;
     os_current_user := os_current_user s;
     os_saved_username := os_saved_username s;
     os_pending_add := v;
     os_post_login_redirect := os_post_login_redirect s |}.

Definition set_os_post_login_redirect (v : option string) (s : Storage) : Storage :=
  {| cartItems := cartItems s; os_active_voucher := os_active_voucher s;
     os_current_user := os_current_user s;
     os_saved_username := os_saved_username s;
     os_pending_add := os_pending_add s;
     os_post_login_redirect := v |}.

(** [JSON.parse(localStorage.getItem('cartItems'))]: [getItem] gives [null]
    for an absent key and [JSON.parse(null)] is [null]; [Ok None] stands for
    a falsy result. *)
Definition JSON_parse_cart (t : option CartText) : Outcome (option Cart) :=
  match t with
  | None => Ok None
  | Some (Stringified c) => Ok (Some c)
  | Some FalsyJSON => Ok None
  | Some (NotJSON _) => Throw SyntaxError
  end.

(** [cart.reduce((sum, item) => sum + item.price * item.quantity, 0)] *)
Definition lineTotal (i : CartItem) : Q := (price i * inject_Z (quantity i))%Q.

Definition reduceSubtotal (cart : Cart) : Q :=
  fold_left (fun sum item => (sum + lineTotal item)%Q) cart 0%Q.

(** [cart.reduce((sum, item) => sum + item.quantity, 0)] *)
Definition reduceQuantity (cart : Cart) : Z :=
  fold_left (fun sum item => sum + quantity item) cart 0.

(** [cart.find(item => item.id === key)] *)
Definition findById (key : string) (cart : Cart) : option CartItem :=
  List.find (fun item => String.eqb (id item) key) cart.

(** An assignment to a field of the object that [find] returned: the array
    holds that same object, so the first entry with the id changes in
    place. *)
Fixpoint updateFound (key : string) (f : CartItem -> CartItem) (cart : Cart)
  : Cart :=
  match cart with
  | [] => []
  | item :: rest =>
      if String.eqb (id item) key then f item :: rest
      else item :: updateFound key f rest
  end.

(** [cart.filter(item => item.id !== key)] *)
Definition filterOut (key : string) (cart : Cart) : Cart :=
  List.filter (fun item => negb (String.eqb (id item) key)) cart.

(** [totalItems > 99 ? '99+' : totalItems] *)
Definition badgeText (totalItems : Z) : BadgeText :=
  if 99 <? totalItems then NinetyNinePlus else Count totalItems.

Definition SHIPPING_FEE : Q := 150.

(** [a < b] on numbers, as a test. *)
Definition Qltb (a b : Q) : bool := negb (Qle_bool b a).

(** The checkout form: the values of its inputs and the checked payment
    radio, if any. *)
Record Form := mkForm {
  fullName : string;
  email : string;
  phone : string;
  address : string;
  city : string;
  paymentMethod : option string
}.

(** ['OS' + Date.now().toString().slice(-6)] *)
Definition sliceLast (n : nat) (s : string) : string :=
  String.substring (String.length s - n) n s.

Definition orderNumber (now : Z) : string :=
  "OS" +:+ sliceLast 6 (NilZero.string_of_int (Z.to_int now)).

(** The product card behind an add-to-cart button, its price already read
    with [parseFloat]. *)
Record Card := mkCard {
  card_id : string;
  card_name : string;
  card_price : Q;
  card_image : string
}.

(** [{ id, name, price, image, quantity: 1 }], the item that the button
    makes of its card. *)
Definition itemOfCard (card : Card) : CartItem :=
  mkItem (card_id card) (card_name card) (card_price card) (card_image card) 1.

(** ** script1.js *)

Module Script1.

(** [JSON.parse(localStorage.getItem('cartItems')) || []] *)
Definition getCartItems : M Cart :=
  s ← getStorage;
  match JSON_parse_cart (cartItems s) with
  | Ok (Some cart) => mret cart
  | Ok None => mret []
  | Throw e => throw e
  end.

Definition updateCartCount : M unit :=
  cartItems ← getCartItems;
  let totalItems := reduceQuantity cartItems in
  cartCountElement ← getBadge;
  match cartCountElement with
  | Some _ => setBadge (mkBadge (badgeText totalItems) totalItems)
  | None => mret tt
  end.

Definition saveCart (cart : Cart) : M unit :=
  modifyStorage (set_cartItems (Some (Stringified cart)));;
  updateCartCount.

(** What [addItemToCart] does to the array between the read and the save:
    [existingItem.quantity += newItem.quantity] on the entry that [find]
    returned, or [cart.push(newItem)]. *)
Definition incrementOrPush (newItem : CartItem) (cart : Cart) : Cart :=
  match findById (id newItem) cart with
  | Some _ =>
      updateFound (id newItem)
        (fun existingItem =>
           withQuantity (quantity existingItem + quantity newItem)
             existingItem)
        cart
  | None => cart ++ [newItem]
  end.

Definition addItemToCart (newItem : CartItem) : M unit :=
  cart ← getCartItems;
  saveCart (incrementOrPush newItem cart).

Record Totals := mkTotals {
  subtotal : Q;
  total : Q;
  itemCount : Z
}.

Definition calculateCartTotals (cart : Cart) : Totals :=
  let subtotal := reduceSubtotal cart in
  let total :=
    if Qltb 0 subtotal then (subtotal + SHIPPING_FEE)%Q else 0%Q in
  let itemCount := reduceQuantity cart in
  mkTotals subtotal total itemCount.

(** The click handler of an add-to-cart button. *)
Definition addToCartClick (card : Card) : M unit :=
  addItemToCart (itemOfCard card).

(** [renderCart] reads the cart and rewrites the list and the summary;
    of that only the read is kept. *)
Definition renderCart : M unit :=
  _ ← getCartItems;
  mret tt.

Definition updateQuantity (key : string) (newQuantity : Z) : M unit :=
  cart ← getCartItems;
  saveCart (updateFound key (withQuantity newQuantity) cart).

Definition removeItem (key : string) : M unit :=
  cart ← getCartItems;
  saveCart (filterOut key cart);;
  renderCart.

(** The [change] listener of a quantity input: [parseInt(e.target.value)]
    and the test [newQty > 0], false for [NaN]. *)
Definition quantityChange (key : string) (value : string) : M unit :=
  match parseInt value None with
  | Some newQty =>
      if 0 <? newQty then updateQuantity key newQty else removeItem key
  | None => removeItem key
  end.

(** The click listener of a remove button. *)
Definition removeClick (key : string) : M unit := removeItem key.

Definition validateCheckoutForm (form : Form) : bool :=
  let filled :=
    forallb (fun v => negb (isEmpty (trim v)))
      [fullName form; email form; phone form; address form; city form] in
  let emailOk := includesChar "@" (email form) in
  let paymentOk :=
    match paymentMethod form with Some _ => true | None => false end in
  filled && emailOk && paymentOk.

(** The submit handler; it returns the order number it displays, or
    [None] when the form was rejected. *)
Definition handleCheckoutForm (form : Form) (now : Z) : M (option string) :=
  if negb (validateCheckoutForm form) then mret None
  else
    cart ← getCartItems;
    let totals := calculateCartTotals cart in
    modifyStorage (set_cartItems None);;
    updateCartCount;;
    mret (Some (orderNumber now)).

(** What a user can do on the pages of this script. *)
Inductive Event :=
| AddToCart (card : Card)
| QuantityInput (key : string) (value : string)
| RemoveItem (key : string)
| SubmitOrder (form : Form) (now : Z).

Definition handle (e : Event) : M unit :=
  match e with
  | AddToCart card => addToCartClick card
  | QuantityInput key value => quantityChange key value
  | RemoveItem key => removeClick key
  | SubmitOrder form now => _ ← handleCheckoutForm form now; mret tt
  end.

(** Pages reached from a fresh browser (empty storage) by user events. *)
Inductive reachable : Page -> Prop :=
| reachable_fresh (badge : option Badge) :
    reachable (mkPage emptyStorage badge)
| reachable_event (p : Page) (e : Event) :
    reachable p -> reachable (exec (handle e) p).

End Script1.

(** ** The script inside GOOGLE_OAUTH_SETUP.md *)

Module Script.

(** A voucher rule: [type: 'amount'] with its [amount], or
    [type: 'percent'] with its [percent]. *)
Inductive VoucherType :=
| amount (a : Q)
| percent (p : Q).

Record Voucher := mkVoucher {
  code : string;
  type : VoucherType;
  minSpend : Q;
  description : string
}.

Definition OFFI2025 : Voucher :=
  mkVoucher "OFFI2025" (amount 100) 500 "₱100 OFF min. spend ₱500".

Definition BULK10 : Voucher :=
  mkVoucher "BULK10" (percent 10) 2000 "10% OFF orders above ₱2,000".

Definition VOUCHERS : gmap string Voucher :=
  {[ "OFFI2025" := OFFI2025; "BULK10" := BULK10 ]}.

(** [localStorage.getItem('os_active_voucher') || null]: an empty string
    counts as no code. *)
Definition getActiveVoucherCode : M (option string) :=
  s ← getStorage;
  match os_active_voucher s with
  | Some c => if isEmpty c then mret None else mret (Some c)
  | None => mret None
  end.

Definition setActiveVoucherCode (c : string) : M unit :=
  if negb (isEmpty c) then modifyStorage (set_os_active_voucher (Some c))
  else modifyStorage (set_os_active_voucher None).

Definition clearActiveVoucher : M unit :=
  modifyStorage (set_os_active_voucher None).

(** [VOUCHERS[up] || null] is read as a lookup among the own keys of the
    table: [up] is in upper case and so never names a property inherited
    from [Object.prototype] (lemma [toUpperCase_not_inherited]). *)
Definition getVoucherByCode (c : string) : option Voucher :=
  if isEmpty c then None
  else
    let up := toUpperCase (trim c) in
    VOUCHERS !! up.

(** [discount || 0] *)
Definition orZero (x : Q) : Q := if Qeq_bool x 0 then 0%Q else x.

(** The unary plus on the percent branch leaves a number as it is; the
    closing [return 0] of the source is for a [type] that is neither
    ['amount'] nor ['percent'], which [VoucherType] does not have. *)
Definition calculateVoucherDiscount (cart : Cart) (c : string) : Q :=
  match getVoucherByCode c with
  | None => 0%Q
  | Some voucher =>
      let subtotal := reduceSubtotal cart in
      if Qle_bool subtotal 0 then 0%Q
      else if negb (Qeq_bool (minSpend voucher) 0)
              && Qltb subtotal (minSpend voucher) then 0%Q
      else
        match type voucher with
        | amount a => Qmin a subtotal
        | percent p => (subtotal * (p / 100))%Q
        end
  end.

Definition getCartItems : M Cart :=
  s ← getStorage;
  match JSON_parse_cart (cartItems s) with
  | Ok (Some cart) => mret cart
  | Ok None => mret []
  | Throw e => throw e
  end.

Definition updateCartCount : M unit :=
  cartItems ← getCartItems;
  let totalItems := reduceQuantity cartItems in
  cartCountElement ← getBadge;
  match cartCountElement with
  | None => mret tt
  | Some _ => setBadge (mkBadge (badgeText totalItems) totalItems)
  end.

Definition saveCart (cart : Cart) : M unit :=
  modifyStorage (set_cartItems (Some (Stringified cart)));;
  updateCartCount.

Record Totals := mkTotals {
  subtotal : Q;
  discount : Q;
  shipping : Q;
  total : Q;
  itemCount : Z;
  appliedVoucher : option string
}.

Definition calculateCartTotals (cart : Cart) : M Totals :=
  let subtotal := reduceSubtotal cart in
  let itemCount := reduceQuantity cart in
  appliedCode ← getActiveVoucherCode;
  let discount :=
    match appliedCode with
    | Some c => calculateVoucherDiscount cart c
    | None => 0%Q
    end in
  let shipping := if Qltb 0 subtotal then SHIPPING_FEE else 0%Q in
  let total := (Qmax 0 (subtotal - orZero discount) + shipping)%Q in
  mret (mkTotals subtotal discount shipping total itemCount appliedCode).

(** [true] iff [localStorage.getItem('os_current_user')] is a non-empty
    string. *)
Definition isLoggedIn : M bool :=
  s ← getStorage;
  match os_current_user s with
  | Some u => mret (negb (isEmpty u))
  | None => mret false
  end.

Definition requireLogin (returnTo : string) : M unit :=
  modifyStorage (set_os_post_login_redirect (Some returnTo)).

Definition validateCheckoutForm (form : Form) : bool :=
  let filled :=
    forallb (fun v => negb (isEmpty (trim v)))
      [fullName form; email form; phone form; address form; city form] in
  let emailOk := includesChar "@" (email form) in
  let paymentOk :=
    match paymentMethod form with Some _ => true | None => false end in
  filled && emailOk && paymentOk.

Definition updateQuantity (key : string) (newQuantity : Z) : M unit :=
  cart ← getCartItems;
  saveCart (updateFound key (withQuantity newQuantity) cart).

Definition removeItem (key : string) : M unit :=
  cart ← getCartItems;
  saveCart (filterOut key cart).

(** [renderCart] reads the cart and, unless it is empty, the totals, and
    rewrites the page; of that only the reads are kept. *)
Definition renderCart : M unit :=
  cart ← getCartItems;
  match cart with
  | [] => mret tt
  | _ => _ ← calculateCartTotals cart; mret tt
  end.

(** The body of the two handlers of the Apply button; [cart] is the cart
    of the render that made the handler, [input] the text of the voucher
    field. *)
Definition applyVoucherClick (cart : Cart) (input : string) : M unit :=
  let c := toUpperCase (trim input) in
  if isEmpty c then mret tt
  else
    match getVoucherByCode c with
    | None => mret tt
    | Some _ =>
        let discount := calculateVoucherDiscount cart c in
        if Qle_bool discount 0 then mret tt
        else
          setActiveVoucherCode c;;
          renderCart
    end.

(** One click on the Apply button.  [renderCart] gives the button two
    handlers with the body [applyVoucherClick]: a click listener, added
    once, when a render injects the voucher controls, which keeps the cart
    of that render; and the [onclick] handler, which every render of a
    cart that is not empty sets anew.  [listener] is the cart of the
    first and [onclick] the cart of the second, [None] on a page without
    that handler.  The listener runs first, and what it throws does not
    keep the [onclick] handler from running.  (A render by the listener
    may write the code of the voucher into the field; the second handler
    normalises that text to the same code.) *)
Definition applyVoucherButton (listener onclick : option Cart)
  (input : string) : M unit :=
  try_catch
    (match listener with
     | Some cart => applyVoucherClick cart input
     | None => mret tt
     end)
    (mret tt);;
  match onclick with
  | Some cart => applyVoucherClick cart input
  | None => mret tt
  end.

(** The handler of the voucher Remove button (the button has it twice, as
    listener and as [onclick]; the second run finds the code removed). *)
Definition removeVoucherClick : M unit :=
  clearActiveVoucher;;
  renderCart.

(** [parseInt(target.value, 10) || 1] *)
Definition parseQuantity (value : string) : Z :=
  match parseInt value (Some 10) with
  | Some 0 => 1
  | Some n => n
  | None => 1
  end.

(** The delegated [change] listener of the cart list. *)
Definition cartQuantityChange (key : string) (value : string) : M unit :=
  let qty := parseQuantity value in
  updateQuantity key qty;;
  renderCart.

(** The delegated [click] listener of the cart list, on a remove
    button. *)
Definition cartRemoveClick (key : string) : M unit :=
  removeItem key;;
  renderCart.

(** [renderOrderSummary] reads the cart and the totals; an empty cart
    sends the browser back to the catalog. *)
Definition renderOrderSummary : M unit :=
  cart ← getCartItems;
  match cart with
  | [] => mret tt
  | _ => _ ← calculateCartTotals cart; mret tt
  end.

(** The [change] listener of a checkout quantity input. *)
Definition checkoutQuantityChange (key : string) (value : string) : M unit :=
  let qty := parseQuantity value in
  let qty := if qty <? 1 then 1 else qty in
  updateQuantity key qty;;
  cart ← getCartItems;
  _ ← calculateCartTotals cart;
  mret tt.

(** The click listener of a checkout remove button. *)
Definition checkoutRemoveClick (key : string) : M unit :=
  removeItem key;;
  renderOrderSummary;;
  updateCartCount.

(** The submit handler; it returns the order number it displays, or
    [None] when the user is logged out or the form was rejected. *)
Definition handleCheckoutForm (form : Form) (now : Z) : M (option string) :=
  loggedIn ← isLoggedIn;
  if negb loggedIn then mret None
  else if negb (validateCheckoutForm form) then mret None
  else
    cart ← getCartItems;
    totals ← calculateCartTotals cart;
    modifyStorage (set_cartItems None);;
    updateCartCount;;
    mret (Some (orderNumber now)).

Definition doLogout : M unit :=
  try_catch
    (modifyStorage (set_os_current_user None);;
     modifyStorage (set_os_saved_username None);;
     try_catch (saveCart []) (modifyStorage (set_cartItems None));;
     modifyStorage (set_os_active_voucher None))
    (mret tt);;
  try_catch updateCartCount (mret tt).

(** [String(s).replace(...)] with the pattern of the five characters
    ampersand, less-than, greater-than, double quote and apostrophe: each
    of them is replaced by its entity, every other character is kept. *)
Definition escapeChar (c : ascii) : string :=
  if Ascii.eqb c "&" then "&amp;"
  else if Ascii.eqb c "<" then "&lt;"
  else if Ascii.eqb c ">" then "&gt;"
  else if Ascii.eqb c "034" then "&quot;"
  else if Ascii.eqb c "'" then "&#39;"
  else String c EmptyString.

Fixpoint escapeHtml (s : string) : string :=
  match s with
  | EmptyString => EmptyString
  | String c r => escapeChar c +:+ escapeHtml r
  end.

(** The functions below reach [encodeURI] and [decodeURI], which are the
    browser's; [None] stands for a thrown [URIError]. *)
Section Browser.

Variable encodeURI : string -> option string.
Variable decodeURI : string -> option string.

Definition normalizeImageUrl (url : string) : string :=
  if isEmpty url then url
  else
    match decodeURI url with
    | Some decoded =>
        match encodeURI decoded with
        | Some encoded => encoded
        | None =>
            match encodeURI url with Some e => e | None => url end
        end
    | None => match encodeURI url with Some e => e | None => url end
    end.

(** [if (item.image) item.image = normalizeImageUrl(item.image)] *)
Definition normalizeImage (item : CartItem) : CartItem :=
  if negb (isEmpty (image item))
  then withImage (normalizeImageUrl (image item)) item
  else item.

(** What [addItemToCart] does to the array between the read and the save:
    [existing.quantity += newItem.quantity] on the entry that [find]
    returned, or a push of the new item with its image normalised. *)
Definition incrementOrPush (newItem : CartItem) (cart : Cart) : Cart :=
  match findById (id newItem) cart with
  | Some _ =>
      updateFound (id newItem)
        (fun existing =>
           withQuantity (quantity existing + quantity newItem) existing)
        cart
  | None => cart ++ [normalizeImage newItem]
  end.

Definition addItemToCart (newItem : CartItem) : M unit :=
  cart ← getCartItems;
  saveCart (incrementOrPush newItem cart).

Definition migrateStoredImages : M unit :=
  cart ← getCartItems;
  let migrated := map normalizeImage cart in
  let changed :=
    existsb (fun item =>
               negb (isEmpty (image item))
               && negb (String.eqb (normalizeImageUrl (image item))
                          (image item))) cart in
  if changed then saveCart migrated else mret tt.

(** The click handler of an add-to-cart button on the page [href]. *)
Definition addToCartClick (card : Card) (href : string) : M unit :=
  loggedIn ← isLoggedIn;
  if negb loggedIn then
    modifyStorage
      (set_os_pending_add (Some (StringifiedItem (itemOfCard card))));;
    requireLogin href
  else addItemToCart (itemOfCard card).

(** The end of the [DOMContentLoaded] handler: an add that was put
    aside before login is replayed. *)
Definition replayPendingAdd : M unit :=
  try_catch
    (s ← getStorage;
     loggedIn ← isLoggedIn;
     match os_pending_add s with
     | Some pendingRaw =>
         if negb loggedIn then mret tt
         else
           match pendingRaw with
           | StringifiedItem pending =>
               if negb (isEmpty (id pending)) then
                 addItemToCart pending;;
                 modifyStorage (set_os_pending_add None)
               else mret tt
           | NotJSONItem _ => throw SyntaxError
           end
     | None => mret tt
     end)
    (mret tt).

(** The [DOMContentLoaded] handler, as far as it touches the state: the
    page-specific set-up between the migration and the replay
    ([setupCatalog], [renderCart], [renderOrderSummary], [renderAuthLinks])
    reads the storage and refreshes the badge that [updateCartCount] has
    just written. *)
Definition pageLoad : M unit :=
  updateCartCount;;
  try_catch migrateStoredImages (mret tt);;
  replayPendingAdd.

(** Modelled from the spec: the login view is not among the sources; by
    the specification login is a local-storage flag, the one that
    [isLoggedIn] reads, and a successful sign-in sets it. *)
Definition signIn (user : string) : M unit :=
  modifyStorage (set_os_current_user (Some user)).

(** What a user can do on the pages of this script.  [ApplyVoucher] is a
    click on Apply on a cart page whose two handlers hold the carts
    [listener] and [onclick]; module [CartPage] follows the renders that
    put them there. *)
Inductive Event :=
| PageLoad
| SignIn (user : string)
| AddToCart (card : Card) (href : string)
| CartQuantityInput (key : string) (value : string)
| CartRemove (key : string)
| ApplyVoucher (listener onclick : option Cart) (input : string)
| RemoveVoucher
| CheckoutQuantityInput (key : string) (value : string)
| CheckoutRemove (key : string)
| SubmitOrder (form : Form) (now : Z)
| Logout.

Definition handle (e : Event) : M unit :=
  match e with
  | PageLoad => pageLoad
  | SignIn user => signIn user
  | AddToCart card href => addToCartClick card href
  | CartQuantityInput key value => cartQuantityChange key value
  | CartRemove key => cartRemoveClick key
  | ApplyVoucher listener onclick input =>
      applyVoucherButton listener onclick input
  | RemoveVoucher => removeVoucherClick
  | CheckoutQuantityInput key value => checkoutQuantityChange key value
  | CheckoutRemove key => checkoutRemoveClick key
  | SubmitOrder form now => _ ← handleCheckoutForm form now; mret tt
  | Logout => doLogout
  end.

(** Pages reached from a fresh browser (empty storage) by user events
    that satisfy [allowed]. *)
Inductive reachableBy (allowed : Event -> Prop) : Page -> Prop :=
| reachable_fresh (badge : option Badge) :
    reachableBy allowed (mkPage emptyStorage badge)
| reachable_event (p : Page) (e : Event) :
    allowed e -> reachableBy allowed p ->
    reachableBy allowed (exec (handle e) p).

Definition reachable : Page -> Prop := reachableBy (fun _ => True).

(** The page after a list of events, the first event first. *)
Definition run (events : list Event) (p : Page) : Page :=
  fold_left (fun q e => exec (handle e) q) events p.

End Browser.

End Script.

(** ** The header shrink of the later script ([setupHeaderShrink]) *)

Module HeaderShrink.

(** What the closure holds and what it reads and writes: the class
    [shrunk] of the header, the variables [ticking] and [lastScrollY], the
    scroll position of the window, and the number of [updateHeader]
    callbacks that [requestAnimationFrame] has queued. *)
Record State := mkState {
  shrunk : bool;
  ticking : bool;
  lastScrollY : Q;
  scrollY : Q;
  frames : nat
}.

Definition SHRINK_THRESHOLD : Q := 100.

Definition updateHeader (st : State) : State :=
  let s := scrollY st in
  let shouldShrink := Qltb SHRINK_THRESHOLD s in
  let isShrunk := shrunk st in
  let shrunk' :=
    if shouldShrink && negb isShrunk then true
    else if negb shouldShrink && isShrunk then false
    else isShrunk in
  mkState shrunk' false s (scrollY st) (frames st).

Section Motion.

(** [window.matchMedia('(prefers-reduced-motion: reduce)').matches] *)
Variable prefersReduced : bool.

Definition onScroll (st : State) : State :=
  let s := scrollY st in
  if Qltb (Qabs (s - lastScrollY st)) 8 && ticking st then st
  else if prefersReduced then updateHeader st
  else if negb (ticking st)
       then mkState (shrunk st) true (lastScrollY st) (scrollY st)
              (S (frames st))
       else st.

(** What happens to the closure: the window scrolls to [y] and the
    [scroll] listener runs, or the browser runs one queued animation
    frame callback. *)
Inductive Event :=
| Scroll (y : Q)
| AnimationFrame.

Definition step (e : Event) (st : State) : State :=
  match e with
  | Scroll y =>
      onScroll (mkState (shrunk st) (ticking st) (lastScrollY st) y (frames st))
  | AnimationFrame =>
      match frames st with
      | O => st
      | S n =>
          updateHeader
            (mkState (shrunk st) (ticking st) (lastScrollY st) (scrollY st) n)
      end
  end.

(** The set-up: [ticking = false], [lastScrollY = 0], and [updateHeader]
    run once on the page as loaded (its class and scroll position). *)
Definition setup (isShrunk : bool) (y : Q) : State :=
  updateHeader (mkState isShrunk false 0 y 0).

Definition run (events : list Event) (st : State) : State :=
  fold_left (fun q e => step e q) events st.

End Motion.

End HeaderShrink.

(** ** Definitions used to state the properties *)

(** A capital letter of A to Z. *)
Definition isUpper (c : ascii) : bool :=
  let n := nat_of_ascii c in (65 <=? n)%nat && (n <=? 90)%nat.

(** Some byte is a letter of a to z; a capital of A to Z; every byte is
    a capital. *)
Fixpoint hasLower (s : string) : bool :=
  match s with
  | EmptyString => false
  | String c r => isLower c || hasLower r
  end.

Fixpoint hasUpper (s : string) : bool :=
  match s with
  | EmptyString => false
  | String c r => isUpper c || hasUpper r
  end.

Fixpoint allUpper (s : string) : bool :=
  match s with
  | EmptyString => true
  | String c r => isUpper c && allUpper r
  end.

(** The rest of the text after the white space character it starts
    with. *)
Definition wsHead (s : string) : option string :=
  match s with
  | EmptyString => None
  | String c r =>
      if isWhiteSpace (one c) then Some r
      else
        match r with
        | EmptyString => None
        | String d r2 =>
            if isWhiteSpace (two c d) then Some r2
            else
              match r2 with
              | EmptyString => None
              | String e r3 =>
                  if isWhiteSpace (three c d e) then Some r3 else None
              end
        end
  end.

(** The upper case of the special character the text starts with, and
    the rest of the text. *)
Definition specialHead (s : string) : option (string * string) :=
  match s with
  | String c (String d r2) =>
      match special (two c d) with
      | Some upper => Some (upper, r2)
      | None =>
          match r2 with
          | EmptyString => None
          | String e r3 =>
              match special (three c d e) with
              | Some upper => Some (upper, r3)
              | None => None
              end
          end
      end
  | _ => None
  end.

(** A first byte of a special character, of a white space character. *)
Definition firstByte (c : ascii) (s : string) : bool :=
  match s with
  | EmptyString => false
  | String c' _ => Ascii.eqb c c'
  end.

Definition specialLead (c : ascii) : bool :=
  existsb (fun entry => firstByte c (fst entry)) specialUpper.

Definition whiteSpaceLead (c : ascii) : bool :=
  existsb (firstByte c) whiteSpace.

(** A byte after the first of a white space character. *)
Definition afterFirst (c : ascii) (s : string) : bool :=
  match s with
  | EmptyString => false
  | String _ r =>
      (fix occurs (t : string) : bool :=
         match t with
         | EmptyString => false
         | String d t' => Ascii.eqb c d || occurs t'
         end) r
  end.

Definition whiteSpaceTail (c : ascii) : bool :=
  existsb (afterFirst c) whiteSpace.

(** A run of white space characters. *)
Definition isPadding (ws : list string) : Prop :=
  Forall (fun w => isWhiteSpace w = true) ws.

Definition padding (ws : list string) : string :=
  fold_right String.append EmptyString ws.

(** The same character, or the same letter of a to z in its two cases. *)
Definition sameLetter (x y : ascii) : bool :=
  let n := nat_of_ascii x in
  let m := nat_of_ascii y in
  (n =? m)%nat
  || ((97 <=? n)%nat && (n <=? 122)%nat && (m =? n - 32)%nat)
  || ((97 <=? m)%nat && (m <=? 122)%nat && (n =? m - 32)%nat).

Fixpoint sameLetters (a b : string) : bool :=
  match a, b with
  | EmptyString, EmptyString => true
  | String x a', String y b' => sameLetter x y && sameLetters a' b'
  | _, _ => false
  end.

(** The sums of the data model, by recursion on the cart. *)
Fixpoint sumPriceQuantity (cart : Cart) : Q :=
  match cart with
  | [] => 0%Q
  | item :: rest => (price item * inject_Z (quantity item) + sumPriceQuantity rest)%Q
  end.

Fixpoint sumQuantity (cart : Cart) : Z :=
  match cart with
  | [] => 0
  | item :: rest => quantity item + sumQuantity rest
  end.

(** The cart that [getCartItems] finds in a storage, when it returns. *)
Definition storedCart (p : Page) : option Cart :=
  match JSON_parse_cart (cartItems (localStorage p)) with
  | Ok (Some cart) => Some cart
  | Ok None => Some []
  | Throw _ => None
  end.

(** The page after [saveCart cart]: the text of the cart is stored and the
    badge, if the page has one, shows the total quantity. *)
Definition savedPage (cart : Cart) (p : Page) : Page :=
  {| localStorage := set_cartItems (Some (Stringified cart)) (localStorage p);
     cart_count :=
       match cart_count p with
       | Some _ =>
           Some (mkBadge (badgeText (reduceQuantity cart)) (reduceQuantity cart))
       | None => None
       end |}.

(** The invariant of the data model: every quantity is at least 1. *)
Definition positiveQuantity (item : CartItem) : Prop := 1 <= quantity item.

Definition quantitiesPositive (cart : Cart) : Prop :=
  Forall positiveQuantity cart.

(** An item as the catalog sells it: a quantity of at least 1 and a price
    that is not negative. *)
Definition sellable (item : CartItem) : Prop :=
  1 <= quantity item /\ (0 <= price item)%Q.

(** An invariant on items as a property of the storage: the text under
    [cartItems] parses to a cart of [good] items, and an add put aside
    under [os_pending_add] is a [good] item. *)
Definition cartTextOK (good : CartItem -> Prop) (t : option CartText) : Prop :=
  match t with
  | None | Some FalsyJSON => True
  | Some (Stringified cart) => Forall good cart
  | Some (NotJSON _) => False
  end.

Definition pendingOK (good : CartItem -> Prop) (t : option PendingText) : Prop :=
  match t with
  | Some (StringifiedItem item) => good item
  | _ => True
  end.

Definition storageOK (good : CartItem -> Prop) (s : Storage) : Prop :=
  cartTextOK good (cartItems s) /\ pendingOK good (os_pending_add s).

(** [maintains good G m]: from a storage that satisfies [storageOK good],
    [m] leaves one that does, and what it returns satisfies [G]. *)
Definition maintains (good : CartItem -> Prop) {A} (G : A -> Prop) (m : M A)
  : Prop :=
  forall p, storageOK good (localStorage p) ->
    storageOK good (localStorage (exec m p))
    /\ forall a, result m p = Ok a -> G a.

(** Events that keep items [good]: a card that makes a [good] item, and a
    cart-page quantity value that does not parse to a negative number. *)
Definition allowedBy (good : CartItem -> Prop) (e : Script.Event) : Prop :=
  match e with
  | Script.AddToCart card _ => good (itemOfCard card)
  | Script.CartQuantityInput _ value => 0 <= Script.parseQuantity value
  | _ => True
  end.

Definition allowed1By (good : CartItem -> Prop) (e : Script1.Event) : Prop :=
  match e with
  | Script1.AddToCart card => good (itemOfCard card)
  | _ => True
  end.

(** [preserves f m]: [m] never changes the part [f] of the page. *)
Definition preserves {A X} (f : Page -> X) (m : M A) : Prop :=
  forall p, f (exec m p) = f p.

(** The stored active voucher code. *)
Definition activeVoucher (p : Page) : option string :=
  os_active_voucher (localStorage p).

(** Cart-page quantity inputs whose value does not parse to a negative
    number; every other event is allowed. *)
Definition nonNegativeCartInput (e : Script.Event) : Prop :=
  match e with
  | Script.CartQuantityInput _ value => 0 <= Script.parseQuantity value
  | _ => True
  end.

(** The same, and products whose price is not negative. *)
Definition intendedInput (e : Script.Event) : Prop :=
  match e with
  | Script.AddToCart card _ => (0 <= card_price card)%Q
  | Script.CartQuantityInput _ value => 0 <= Script.parseQuantity value
  | _ => True
  end.

(** Events that set or clear the active voucher code. *)
Definition voucherEvent (e : Script.Event) : bool :=
  match e with
  | Script.ApplyVoucher _ _ _ | Script.RemoveVoucher | Script.Logout => true
  | _ => false
  end.

(** A decoder for the five entities of [escapeHtml]. *)
Fixpoint unescapeHtml (s : string) : string :=
  match s with
  | String "&" (String "a" (String "m" (String "p" (String ";" r)))) =>
      String "&" (unescapeHtml r)
  | String "&" (String "l" (String "t" (String ";" r))) =>
      String "<" (unescapeHtml r)
  | String "&" (String "g" (String "t" (String ";" r))) =>
      String ">" (unescapeHtml r)
  | String "&" (String "q" (String "u" (String "o" (String "t" (String ";" r))))) =>
      String "034" (unescapeHtml r)
  | String "&" (String "#" (String "3" (String "9" (String ";" r)))) =>
      String "'" (unescapeHtml r)
  | String c r => String c (unescapeHtml r)
  | EmptyString => EmptyString
  end.

(** The five characters that [escapeHtml] replaces. *)
Definition isHtmlSpecial (c : ascii) : bool :=
  Ascii.eqb c "&" || Ascii.eqb c "<" || Ascii.eqb c ">"
  || Ascii.eqb c "034" || Ascii.eqb c "'".

Fixpoint hasHtmlSpecial (s : string) : bool :=
  match s with
  | EmptyString => false
  | String c r => isHtmlSpecial c || hasHtmlSpecial r
  end.

(** [isLoggedIn()] as a function of the page. *)
Definition loggedIn (p : Page) : bool :=
  match os_current_user (localStorage p) with
  | Some user => negb (isEmpty user)
  | None => false
  end.

(** The badge after [updateCartCount] has run on a page whose stored cart
    is [cart]: an absent badge stays absent. *)
Definition refreshBadge (cart : Cart) (badge : option Badge) : option Badge :=
  match badge with
  | Some _ =>
      Some (mkBadge (badgeText (reduceQuantity cart)) (reduceQuantity cart))
  | None => None
  end.

Definition refreshedPage (cart : Cart) (p : Page) : Page :=
  mkPage (localStorage p) (refreshBadge cart (cart_count p)).

(** The page with its storage changed by [f] and its badge untouched. *)
Definition withStorage (f : Storage -> Storage) (p : Page) : Page :=
  mkPage (f (localStorage p)) (cart_count p).

(** The badge shows the total quantity of the stored cart, or the page
    has no badge. *)
Definition badgeInSync (p : Page) : Prop :=
  exists cart,
    storedCart p = Some cart
    /\ cart_count p = refreshBadge cart (cart_count p).

(** The add that [replayPendingAdd] makes, if it makes one. *)
Definition pendingToReplay (p : Page) : option CartItem :=
  match os_pending_add (localStorage p) with
  | Some (StringifiedItem pending) =>
      if loggedIn p && negb (isEmpty (id pending)) then Some pending else None
  | _ => None
  end.

(** The changes that the handlers make to the stored cart: the array
    operations of the two scripts, or none. *)
Inductive cartStep (encodeURI decodeURI : string -> option string)
  : Cart -> Cart -> Prop :=
| step_same (cart : Cart) : cartStep encodeURI decodeURI cart cart
| step_add (item : CartItem) (cart : Cart) :
    cartStep encodeURI decodeURI cart
      (Script.incrementOrPush encodeURI decodeURI item cart)
| step_add1 (item : CartItem) (cart : Cart) :
    cartStep encodeURI decodeURI cart (Script1.incrementOrPush item cart)
| step_quantity (key : string) (q : Z) (cart : Cart) :
    cartStep encodeURI decodeURI cart (updateFound key (withQuantity q) cart)
| step_remove (key : string) (cart : Cart) :
    cartStep encodeURI decodeURI cart (filterOut key cart)
| step_migrate (cart : Cart) :
    cartStep encodeURI decodeURI cart
      (map (Script.normalizeImage encodeURI decodeURI) cart)
| step_clear (cart : Cart) : cartStep encodeURI decodeURI cart [].

(** A property [R] of the stored cart and the badge holds of a page. *)
Definition pageInv (R : Cart -> option Badge -> Prop) (p : Page) : Prop :=
  exists cart, storedCart p = Some cart /\ R cart (cart_count p).

(** The ids of the cart are pairwise different. *)
Definition uniqueIds (cart : Cart) : Prop := List.NoDup (map id cart).

(** What the badge of a page shows, when the page has one: the total
    quantity of the stored cart in [data-count], and as text that number
    or, above 99, [99+]. *)
Definition badgeShows (p : Page) : Prop :=
  exists cart,
    storedCart p = Some cart
    /\ forall b,
         cart_count p = Some b ->
         data_count b = sumQuantity cart
         /\ textContent b =
              if 99 <? sumQuantity cart then NinetyNinePlus
              else Count (sumQuantity cart).

(** The page after a list of events of script1.js, the first event
    first. *)
Definition run1 (events : list Script1.Event) (p : Page) : Page :=
  fold_left (fun q e => exec (Script1.handle e) q) events p.

(** The codes of the voucher table. *)
Definition knownCode (c : string) : Prop := c = "OFFI2025" \/ c = "BULK10".

(** The two kinds of state of the header shrink: nothing queued and the
    header's class as the scroll position asks, or one callback queued. *)
Definition headerSettled (st : HeaderShrink.State) : Prop :=
  HeaderShrink.ticking st = false
  /\ HeaderShrink.frames st = O
  /\ HeaderShrink.shrunk st
     = Qltb HeaderShrink.SHRINK_THRESHOLD (HeaderShrink.scrollY st)
  /\ HeaderShrink.lastScrollY st = HeaderShrink.scrollY st.

Definition headerPending (st : HeaderShrink.State) : Prop :=
  HeaderShrink.ticking st = true /\ HeaderShrink.frames st = 1%nat.

(** [onScroll] without its dead zone test. *)
Definition onScrollPlain (prefersReduced : bool) (st : HeaderShrink.State)
  : HeaderShrink.State :=
  if prefersReduced then HeaderShrink.updateHeader st
  else if HeaderShrink.ticking st then st
  else HeaderShrink.mkState (HeaderShrink.shrunk st) true
         (HeaderShrink.lastScrollY st) (HeaderShrink.scrollY st)
         (S (HeaderShrink.frames st)).

(** The state with the window scrolled to [y]. *)
Definition scrolledTo (y : Q) (st : HeaderShrink.State) : HeaderShrink.State :=
  HeaderShrink.mkState (HeaderShrink.shrunk st) (HeaderShrink.ticking st)
    (HeaderShrink.lastScrollY st) y (HeaderShrink.frames st).

(** The stored cart of the page holds [n] items in all, and so says the
    badge if the page has one. *)
Definition countIs (n : Z) (p : Page) : Prop :=
  exists cart,
    storedCart p = Some cart
    /\ sumQuantity cart = n
    /\ match cart_count p with
       | Some b => data_count b = n /\ textContent b = badgeText n
       | None => True
       end.

(** The subtotal of the cart that a handler holds reaches the minimum
    spend of the voucher. *)
Definition qualifies (v : Script.Voucher) (cart : option Cart) : bool :=
  match cart with
  | Some c => negb (Qltb (reduceSubtotal c) (Script.minSpend v))
  | None => false
  end.

(** The page with [c] stored as the active voucher code. *)
Definition withVoucher (c : string) (p : Page) : Page :=
  withStorage (set_os_active_voucher (Some c)) p.

(** ** The cart page and the handlers of its Apply button *)

Module CartPage.

(** A document that shows the cart page: the state that the handlers
    share, whether the element [#voucher-controls] is in the document, and
    the carts that the two handlers of the Apply button hold, [None] while
    the button has no such handler. *)
Record Document := mkDocument {
  page : Page;
  controls : bool;
  listener : option Cart;
  onclick : option Cart
}.

Definition withPage (p : Page) (d : Document) : Document :=
  mkDocument p (controls d) (listener d) (onclick d).

(** The voucher part of [renderCart], for a render that has read [cart].
    An empty cart makes [renderCart] return before it.  Otherwise the
    controls are injected if the document has none, and with them the
    click listener, which closes over [cart]; and [onclick] is set to a
    handler that closes over [cart]. *)
Definition attachVoucherHandlers (cart : Cart) (d : Document) : Document :=
  match cart with
  | [] => d
  | _ :: _ =>
      mkDocument (page d) true
        (if controls d then listener d else Some cart)
        (Some cart)
  end.

(** A call of [renderCart]: it reads the stored cart, and attaches nothing
    when that throws. *)
Definition rendered (d : Document) : Document :=
  match result Script.getCartItems (page d) with
  | Ok cart => attachVoucherHandlers cart d
  | Throw _ => d
  end.

(** A handler that ends with a call of [renderCart]: it gets there when
    it does not throw. *)
Definition thenRendered (m : M unit) (d : Document) : Document :=
  match m (page d) with
  | (Ok _, q) => rendered (withPage q d)
  | (Throw _, q) => withPage q d
  end.

(** Whether [applyVoucherClick] gets past its three tests, to the
    assignment and the render. *)
Definition passesChecks (cart : Cart) (input : string) : bool :=
  let c := toUpperCase (trim input) in
  negb (isEmpty c)
  && match Script.getVoucherByCode c with
     | Some _ => negb (Qle_bool (Script.calculateVoucherDiscount cart c) 0)
     | None => false
     end.

(** One of the two handlers of the Apply button, holding [cart]. *)
Definition applyHandler (cart : Cart) (input : string) (d : Document)
  : Document :=
  let d' := withPage (exec (Script.applyVoucherClick cart input) (page d)) d in
  if passesChecks cart input then rendered d' else d'.

(** A click on Apply: the listener, if the button has it, and then the
    [onclick] handler that the button has by then. *)
Definition clickApply (input : string) (d : Document) : Document :=
  let d1 :=
    match listener d with
    | Some cart => applyHandler cart input d
    | None => d
    end in
  match onclick d1 with
  | Some cart => applyHandler cart input d1
  | None => d1
  end.

(** A click on the voucher Remove button, which has the same two kinds of
    handler, both [removeVoucherClick]. *)
Definition clickRemoveVoucher (d : Document) : Document :=
  let d1 :=
    match listener d with
    | Some _ => thenRendered Script.removeVoucherClick d
    | None => d
    end in
  match onclick d1 with
  | Some _ => thenRendered Script.removeVoucherClick d1
  | None => d1
  end.

(** What a user can do on the cart page once it has loaded. *)
Inductive Event :=
| QuantityInput (key : string) (value : string)
| Remove (key : string)
| Apply (input : string)
| RemoveVoucher.

Definition step (e : Event) (d : Document) : Document :=
  match e with
  | QuantityInput key value =>
      thenRendered (Script.cartQuantityChange key value) d
  | Remove key => thenRendered (Script.cartRemoveClick key) d
  | Apply input => clickApply input d
  | RemoveVoucher => clickRemoveVoucher d
  end.

Definition run (events : list Event) (d : Document) : Document :=
  fold_left (fun q e => step e q) events d.

Section Browser.

Variables encodeURI decodeURI : string -> option string.

(** The page after the first two steps of the [DOMContentLoaded]
    handler, the refresh of the badge and the migration of the images. *)
Definition migrated (p : Page) : Outcome unit * Page :=
  (Script.updateCartCount;;
   try_catch (Script.migrateStoredImages encodeURI decodeURI) (mret tt)) p.

(** The [DOMContentLoaded] handler on the cart page, in a new document;
    [static] says whether the markup of the page has the voucher
    controls.  [renderCart] runs after the migration, and again after an
    add that was put aside has been replayed. *)
Definition load (static : bool) (p : Page) : Document :=
  match migrated p with
  | (Throw _, q) => mkDocument q static None None
  | (Ok _, q) =>
      match Script.renderCart q with
      | (Throw _, q1) => mkDocument q1 static None None
      | (Ok _, q1) =>
          let d := rendered (mkDocument q1 static None None) in
          let q2 := exec (Script.replayPendingAdd encodeURI decodeURI) q1 in
          match pendingToReplay q1 with
          | Some _ => rendered (withPage q2 d)
          | None => withPage q2 d
          end
      end
  end.

End Browser.

End CartPage.

(** The [onclick] handler of the Apply button holds the cart that the
    page shows: the stored cart, when that is not empty. *)
Definition holdsShownCart (d : CartPage.Document) : Prop :=
  forall cart,
    storedCart (CartPage.page d) = Some cart -> cart <> [] ->
    CartPage.onclick d = Some cart.

(** A document with a click listener has the voucher controls. *)
Definition listenerInjected (d : CartPage.Document) : Prop :=
  CartPage.listener d <> None -> CartPage.controls d = true.

(** The events of the later script that are not a remove button, a
    placed order or a logout. *)
Definition keepsLines (e : Script.Event) : bool :=
  match e with
  | Script.CartRemove _ | Script.CheckoutRemove _
  | Script.SubmitOrder _ _ | Script.Logout => false
  | _ => true
  end.

(** * Properties *)

(** ** Strings: trim and toUpperCase *)

Section StringFacts.

Ltac by_cases_on_char c :=
  destruct c as [[] [] [] [] [] [] [] []]; vm_compute; try reflexivity;
  try discriminate.

Lemma string_length_ind (P : string -> Prop) :
  (forall s, (forall t, (String.length t < String.length s)%nat -> P t) -> P s) ->
  forall s, P s.
Proof.
  intros H s.
  assert (Hall : forall n t, (String.length t < n)%nat -> P t).
  { induction n as [|n IH]; intros t Hlt; [lia|].
    apply H. intros t' Hlt'. apply IH. lia. }
  apply (Hall (S (String.length s))). lia.
Qed.

Lemma app_cons (c : ascii) (s t : string) :
  String c s +:+ t = String c (s +:+ t).
Proof. reflexivity. Qed.

Lemma app_nil (t : string) : "" +:+ t = t.
Proof. reflexivity. Qed.

Lemma app_length (s t : string) :
  String.length (s +:+ t) = (String.length s + String.length t)%nat.
Proof.
  induction s as [|c s IH]; [reflexivity|].
  rewrite app_cons. cbn [String.length]. by rewrite IH.
Qed.

Lemma app_assoc (s t u : string) : (s +:+ t) +:+ u = s +:+ (t +:+ u).
Proof.
  induction s as [|c s IH]; [reflexivity|]. rewrite !app_cons. by rewrite IH.
Qed.

Lemma app_empty_r (s : string) : s +:+ "" = s.
Proof.
  induction s as [|c s IH]; [reflexivity|]. rewrite app_cons. by rewrite IH.
Qed.

Lemma app_inv_head (s t u : string) : s +:+ t = s +:+ u -> t = u.
Proof.
  induction s as [|c s IH]; [done|]. rewrite !app_cons. intros [= H].
  by apply IH.
Qed.

Lemma isEmpty_true (s : string) : isEmpty s = true -> s = "".
Proof. destruct s; [reflexivity | discriminate]. Qed.

Lemma upperChar_idemp (c : ascii) : upperChar (upperChar c) = upperChar c.
Proof. by_cases_on_char c. Qed.

Lemma isLower_upperChar (c : ascii) : isLower (upperChar c) = false.
Proof. by_cases_on_char c. Qed.

Lemma upperChar_inv (x : ascii) : isUpper (upperChar x) = false -> upperChar x = x.
Proof. by_cases_on_char x. Qed.

Lemma upperChar_upper (c : ascii) : isUpper c = true -> upperChar c = c.
Proof. by_cases_on_char c. Qed.

(** *** The two tables *)

Lemma isWhiteSpace_In (w : string) : isWhiteSpace w = true <-> In w whiteSpace.
Proof.
  unfold isWhiteSpace. rewrite existsb_exists. split.
  - intros (w' & Hin & Heq). apply String.eqb_eq in Heq. by subst.
  - intros Hin. exists w. split; [exact Hin | apply String.eqb_refl].
Qed.

Lemma special_In (p u : string) : special p = Some u -> In (p, u) specialUpper.
Proof.
  unfold special. destruct (find _ _) as [[p' u']|] eqn:E; [|discriminate].
  cbn. intros [= <-]. apply find_some in E as [Hin Heq].
  apply String.eqb_eq in Heq. cbn in Heq. by subst.
Qed.


Ltac each_entry H :=
  cbn in H; repeat (destruct H as [H|H]; [|]); try contradiction;
  try (injection H as <- <-); try subst.

Lemma wsHead_Some (s t : string) :
  wsHead s = Some t -> exists w, isWhiteSpace w = true /\ s = w +:+ t.
Proof.
  destruct s as [|c r]; [discriminate|]. cbn [wsHead].
  destruct (isWhiteSpace (one c)) eqn:E1.
  { intros [= <-]. by exists (one c). }
  destruct r as [|d r2]; [discriminate|].
  destruct (isWhiteSpace (two c d)) eqn:E2.
  { intros [= <-]. by exists (two c d). }
  destruct r2 as [|e r3]; [discriminate|].
  destruct (isWhiteSpace (three c d e)) eqn:E3; [|discriminate].
  intros [= <-]. by exists (three c d e).
Qed.

Lemma wsHead_app (w t : string) :
  isWhiteSpace w = true -> wsHead (w +:+ t) = Some t.
Proof.
  intros H. apply isWhiteSpace_In in H. unfold whiteSpace in H.
  each_entry H; reflexivity.
Qed.

Lemma wsHead_length (s t : string) :
  wsHead s = Some t -> (String.length t < String.length s)%nat.
Proof.
  intros H. apply wsHead_Some in H as (w & Hw & ->).
  rewrite app_length. apply isWhiteSpace_In in Hw. unfold whiteSpace in Hw.
  each_entry Hw; cbn; lia.
Qed.

Lemma trimStart_head (s : string) :
  trimStart s = match wsHead s with Some t => trimStart t | None => s end.
Proof.
  destruct s as [|c r]; [reflexivity|]. cbn [trimStart wsHead].
  destruct (isWhiteSpace (one c)); [reflexivity|].
  destruct r as [|d r2]; [reflexivity|].
  destruct (isWhiteSpace (two c d)); [reflexivity|].
  destruct r2 as [|e r3]; [reflexivity|].
  destruct (isWhiteSpace (three c d e)); reflexivity.
Qed.

Lemma specialHead_Some (s u t : string) :
  specialHead s = Some (u, t) -> exists p, special p = Some u /\ s = p +:+ t.
Proof.
  destruct s as [|c [|d r2]]; try discriminate. cbn [specialHead].
  destruct (special (two c d)) as [u'|] eqn:E2.
  { intros [= <- <-]. by exists (two c d). }
  destruct r2 as [|e r3]; [discriminate|].
  destruct (special (three c d e)) as [u'|] eqn:E3; [|discriminate].
  intros [= <- <-]. by exists (three c d e).
Qed.

Lemma specialHead_app (p u t : string) :
  special p = Some u -> specialHead (p +:+ t) = Some (u, t).
Proof.
  intros H. apply special_In in H. unfold specialUpper in H.
  each_entry H; reflexivity.
Qed.

Lemma specialHead_length (s u t : string) :
  specialHead s = Some (u, t) -> (String.length t < String.length s)%nat.
Proof.
  intros H. apply specialHead_Some in H as (p & Hp & ->).
  rewrite app_length. apply special_In in Hp. unfold specialUpper in Hp.
  each_entry Hp; cbn; lia.
Qed.

Lemma toUpperCase_head (s : string) :
  toUpperCase s =
    match specialHead s with
    | Some (upper, t) => upper +:+ toUpperCase t
    | None =>
        match s with
        | EmptyString => EmptyString
        | String c r => String (upperChar c) (toUpperCase r)
        end
    end.
Proof.
  destruct s as [|c [|d r2]]; try reflexivity.
  cbn [specialHead]. 
  change (toUpperCase (String c (String d r2))) with
    (match special (two c d) with
     | Some upper => upper +:+ toUpperCase r2
     | None =>
         match r2 with
         | EmptyString => String (upperChar c) (toUpperCase (String d r2))
         | String e r3 =>
             match special (three c d e) with
             | Some upper => upper +:+ toUpperCase r3
             | None => String (upperChar c) (toUpperCase (String d r2))
             end
         end
     end).
  destruct (special (two c d)); [reflexivity|].
  destruct r2 as [|e r3]; [reflexivity|].
  destruct (special (three c d e)); reflexivity.
Qed.


Lemma specialHead_lead (c : ascii) (r : string) (x : string * string) :
  specialHead (String c r) = Some x -> specialLead c = true.
Proof.
  destruct x as [u t]. intros H.
  apply specialHead_Some in H as (p & Hp & Heq).
  apply special_In in Hp. unfold specialUpper in Hp.
  each_entry Hp; injection Heq as ->; reflexivity.
Qed.

Lemma toUpperCase_plain (c : ascii) (r : string) :
  specialLead c = false ->
  toUpperCase (String c r) = String (upperChar c) (toUpperCase r).
Proof.
  intros Hc. rewrite toUpperCase_head.
  destruct (specialHead (String c r)) as [x|] eqn:E; [|reflexivity].
  apply specialHead_lead in E. congruence.
Qed.

Lemma isUpper_plain (c : ascii) :
  isUpper c = true ->
  specialLead c = false /\ whiteSpaceLead c = false /\ upperChar c = c
  /\ isLower c = false.
Proof. by_cases_on_char c; intros _; repeat split. Qed.

Lemma upperChar_lead (c : ascii) : specialLead (upperChar c) = specialLead c.
Proof. by_cases_on_char c. Qed.

Lemma specialLead_upperChar (c : ascii) :
  specialLead c = true -> upperChar c = c.
Proof. by_cases_on_char c. Qed.

Lemma toUpperCase_upper_prefix (u t : string) :
  allUpper u = true -> toUpperCase (u +:+ t) = u +:+ toUpperCase t.
Proof.
  induction u as [|c u IH]; [reflexivity|]. cbn [allUpper].
  intros [Hc Hu]%andb_true_iff. rewrite app_cons.
  destruct (isUpper_plain c Hc) as (Hlead & _ & Hfix & _).
  rewrite (toUpperCase_plain _ _ Hlead), Hfix, (IH Hu). reflexivity.
Qed.

Lemma special_upper (p u : string) :
  special p = Some u ->
  allUpper u = true /\ isEmpty u = false /\ hasUpper p = false
  /\ hasLower p = false.
Proof.
  intros H. apply special_In in H. unfold specialUpper in H.
  each_entry H; repeat split.
Qed.

Lemma allUpper_head (u t : string) :
  allUpper u = true -> isEmpty u = false ->
  exists c r, u +:+ t = String c r /\ isUpper c = true.
Proof.
  destruct u as [|c u]; [discriminate|]. cbn [allUpper].
  intros [Hc _]%andb_true_iff _. by exists c, (u +:+ t).
Qed.

(** A byte of the upper case that is no upper-case letter was in the
    text. *)
Lemma toUpperCase_lift (w s rest : string) :
  hasUpper w = false ->
  toUpperCase s = w +:+ rest ->
  exists t, s = w +:+ t /\ rest = toUpperCase t.
Proof.
  revert s rest. induction w as [|b w IH]; intros s rest Hw Hs.
  { exists s. by split. }
  cbn [hasUpper] in Hw. apply orb_false_iff in Hw as [Hb Hw].
  rewrite app_cons in Hs. rewrite toUpperCase_head in Hs.
  destruct (specialHead s) as [[u t]|] eqn:E.
  - apply specialHead_Some in E as (p & Hp & ->).
    destruct (special_upper _ _ Hp) as (Hu & Hne & _).
    destruct (allUpper_head u (toUpperCase t) Hu Hne) as (c & r & Heq & Hc).
    rewrite Heq in Hs. injection Hs as -> _. congruence.
  - destruct s as [|x r]; [discriminate|].
    injection Hs as Hx Hr. 
    assert (x = b).
    { rewrite <- Hx in Hb. rewrite <- (upperChar_inv x Hb). exact Hx. }
    subst x. destruct (IH r rest Hw Hr) as (t & -> & ->).
    exists t. by split.
Qed.

Lemma isEmpty_toUpperCase (s : string) :
  isEmpty (toUpperCase s) = isEmpty s.
Proof.
  rewrite toUpperCase_head.
  destruct (specialHead s) as [[u t]|] eqn:E.
  - apply specialHead_Some in E as (p & Hp & ->).
    destruct (special_upper _ _ Hp) as (_ & Hne & _).
    destruct u; [discriminate|].
    apply special_In in Hp. unfold specialUpper in Hp.
    each_entry Hp; reflexivity.
  - destruct s; reflexivity.
Qed.

Lemma toUpperCase_idemp (s : string) :
  toUpperCase (toUpperCase s) = toUpperCase s.
Proof.
  induction s as [s IH] using string_length_ind.
  rewrite (toUpperCase_head s).
  destruct (specialHead s) as [[u t]|] eqn:E.
  - pose proof (specialHead_length _ _ _ E) as Hlt.
    apply specialHead_Some in E as (p & Hp & ->).
    destruct (special_upper _ _ Hp) as (Hu & _).
    rewrite (toUpperCase_upper_prefix _ _ Hu), (IH t Hlt). reflexivity.
  - destruct s as [|c r]; [reflexivity|].
    assert (Hr : toUpperCase (toUpperCase r) = toUpperCase r).
    { apply IH. cbn. lia. }
    destruct (specialLead c) eqn:Hlead.
    + rewrite (specialLead_upperChar c Hlead).
      rewrite toUpperCase_head.
      destruct (specialHead (String c (toUpperCase r))) as [[u t]|] eqn:E';
        [|by rewrite Hr, (specialLead_upperChar c Hlead)].
      exfalso. apply specialHead_Some in E' as (p & Hp & Heq).
      destruct (special_upper _ _ Hp) as (_ & _ & Hnu & _).
      destruct p as [|c' p']; [discriminate|].
      rewrite app_cons in Heq. injection Heq as <- Heq.
      cbn [hasUpper] in Hnu. apply orb_false_iff in Hnu as [_ Hnu].
      destruct (toUpperCase_lift p' r t Hnu Heq) as (t' & -> & _).
      rewrite <- app_cons in E.
      rewrite (specialHead_app _ _ t' Hp) in E. discriminate.
    + rewrite toUpperCase_plain by (by rewrite upperChar_lead).
      by rewrite upperChar_idemp, Hr.
Qed.

Lemma hasLower_app (s t : string) :
  hasLower (s +:+ t) = hasLower s || hasLower t.
Proof.
  induction s as [|c s IH]; [reflexivity|].
  rewrite app_cons. cbn [hasLower]. by rewrite IH, orb_assoc.
Qed.

Lemma allUpper_hasLower (u : string) : allUpper u = true -> hasLower u = false.
Proof.
  induction u as [|c u IH]; [reflexivity|]. cbn [allUpper hasLower].
  intros [Hc Hu]%andb_true_iff.
  destruct (isUpper_plain c Hc) as (_ & _ & _ & ->). by apply IH.
Qed.

Lemma hasLower_toUpperCase (s : string) : hasLower (toUpperCase s) = false.
Proof.
  induction s as [s IH] using string_length_ind.
  rewrite toUpperCase_head.
  destruct (specialHead s) as [[u t]|] eqn:E.
  - pose proof (specialHead_length _ _ _ E) as Hlt.
    apply specialHead_Some in E as (p & Hp & ->).
    destruct (special_upper _ _ Hp) as (Hu & _).
    by rewrite hasLower_app, (allUpper_hasLower _ Hu), (IH t Hlt).
  - destruct s as [|c r]; [reflexivity|]. cbn [hasLower].
    rewrite isLower_upperChar. apply IH. cbn. lia.
Qed.


(** *** White space passes through toUpperCase *)

Lemma whiteSpace_plain (w : string) :
  isWhiteSpace w = true ->
  hasUpper w = false /\ isEmpty w = false /\ toUpperCase w = w.
Proof.
  intros H. apply isWhiteSpace_In in H. unfold whiteSpace in H.
  each_entry H; repeat split.
Qed.

Lemma toUpperCase_whiteSpace (w t : string) :
  isWhiteSpace w = true -> toUpperCase (w +:+ t) = w +:+ toUpperCase t.
Proof.
  intros H. apply isWhiteSpace_In in H. unfold whiteSpace in H.
  each_entry H; unfold bytes; cbn [map String.string_of_list_ascii];
    rewrite ?app_cons, ?app_nil;
    try (rewrite !toUpperCase_plain by reflexivity; reflexivity).
  rewrite toUpperCase_head.
  change (specialHead _) with (@None (string * string)).
  rewrite !toUpperCase_plain by reflexivity. reflexivity.
Qed.

Lemma trimStart_whiteSpace (w t : string) :
  isWhiteSpace w = true -> trimStart (w +:+ t) = trimStart t.
Proof.
  intros H. by rewrite trimStart_head, (wsHead_app _ _ H).
Qed.

Lemma wsHead_toUpperCase (s : string) :
  wsHead s = None -> wsHead (toUpperCase s) = None.
Proof.
  intros Hs. destruct (wsHead (toUpperCase s)) as [rest|] eqn:E; [|reflexivity].
  apply wsHead_Some in E as (w & Hw & Heq).
  destruct (whiteSpace_plain w Hw) as (Hnu & _).
  destruct (toUpperCase_lift w s rest Hnu Heq) as (t & -> & _).
  rewrite (wsHead_app _ _ Hw) in Hs. discriminate.
Qed.

Lemma trimStart_toUpperCase (s : string) :
  trimStart (toUpperCase s) = toUpperCase (trimStart s).
Proof.
  induction s as [s IH] using string_length_ind.
  rewrite (trimStart_head s).
  destruct (wsHead s) as [t|] eqn:E.
  - pose proof (wsHead_length _ _ E) as Hlt.
    apply wsHead_Some in E as (w & Hw & ->).
    rewrite (toUpperCase_whiteSpace _ _ Hw), (trimStart_whiteSpace _ _ Hw).
    by apply IH.
  - by rewrite trimStart_head, (wsHead_toUpperCase _ E).
Qed.

Lemma wsHead_trimStart (s : string) : wsHead (trimStart s) = None.
Proof.
  induction s as [s IH] using string_length_ind.
  rewrite trimStart_head. destruct (wsHead s) as [t|] eqn:E; [|exact E].
  apply IH. by apply wsHead_length in E.
Qed.

(** *** trimEnd *)

Lemma trimEnd_cons (c : ascii) (r : string) :
  trimEnd (String c r) =
    if isWhiteSpace (String c (trimEnd r)) then "" else String c (trimEnd r).
Proof. reflexivity. Qed.

Lemma isWhiteSpace_lead (c : ascii) (r : string) :
  isWhiteSpace (String c r) = true -> whiteSpaceLead c = true.
Proof.
  intros H. apply isWhiteSpace_In in H. unfold whiteSpace in H.
  each_entry H; reflexivity.
Qed.

Lemma trimEnd_plain (c : ascii) (r : string) :
  whiteSpaceLead c = false -> trimEnd (String c r) = String c (trimEnd r).
Proof.
  intros Hc. rewrite trimEnd_cons.
  destruct (isWhiteSpace (String c (trimEnd r))) eqn:E; [|reflexivity].
  apply isWhiteSpace_lead in E. congruence.
Qed.

Lemma trimEnd_prefix (s : string) : exists x, s = trimEnd s +:+ x.
Proof.
  induction s as [|c r [x IH]]; [by exists ""|]. rewrite trimEnd_cons.
  destruct (isWhiteSpace _); [by exists (String c r)|].
  exists x. rewrite app_cons. by rewrite <- IH.
Qed.

Lemma trimEnd_idemp (s : string) : trimEnd (trimEnd s) = trimEnd s.
Proof.
  induction s as [|c r IH]; [reflexivity|]. rewrite trimEnd_cons.
  destruct (isWhiteSpace (String c (trimEnd r))) eqn:E; [reflexivity|].
  by rewrite trimEnd_cons, IH, E.
Qed.

Lemma trimEnd_upper_prefix (u t : string) :
  allUpper u = true -> trimEnd (u +:+ t) = u +:+ trimEnd t.
Proof.
  induction u as [|c u IH]; [reflexivity|]. cbn [allUpper].
  intros [Hc Hu]%andb_true_iff. rewrite !app_cons.
  destruct (isUpper_plain c Hc) as (_ & Hlead & _).
  by rewrite (trimEnd_plain _ _ Hlead), (IH Hu).
Qed.

Lemma trimEnd_special (p u t : string) :
  special p = Some u -> trimEnd (p +:+ t) = p +:+ trimEnd t.
Proof.
  intros H. apply special_In in H. unfold specialUpper in H.
  each_entry H; unfold bytes; cbn [map String.string_of_list_ascii];
    rewrite ?app_cons, ?app_nil;
    try (rewrite !trimEnd_plain by reflexivity; reflexivity);
    rewrite trimEnd_cons; rewrite !trimEnd_plain by reflexivity;
    reflexivity.
Qed.

Lemma toUpperCase_special (p u t : string) :
  special p = Some u -> toUpperCase (p +:+ t) = u +:+ toUpperCase t.
Proof.
  intros H. by rewrite toUpperCase_head, (specialHead_app _ _ t H).
Qed.

Lemma toUpperCase_empty (t : string) : toUpperCase t = "" -> t = "".
Proof.
  intros H. apply isEmpty_true. rewrite <- isEmpty_toUpperCase. by rewrite H.
Qed.

Lemma trimEnd_toUpperCase (s : string) :
  trimEnd (toUpperCase s) = toUpperCase (trimEnd s).
Proof.
  induction s as [s IH] using string_length_ind.
  rewrite (toUpperCase_head s).
  destruct (specialHead s) as [[u t]|] eqn:E.
  - pose proof (specialHead_length _ _ _ E) as Hlt.
    apply specialHead_Some in E as (p & Hp & ->).
    destruct (special_upper _ _ Hp) as (Hu & _).
    rewrite (trimEnd_upper_prefix _ _ Hu), (IH t Hlt).
    by rewrite (trimEnd_special _ _ _ Hp), (toUpperCase_special _ _ _ Hp).
  - destruct s as [|c r]; [reflexivity|].
    assert (Hr : trimEnd (toUpperCase r) = toUpperCase (trimEnd r)).
    { apply IH. cbn. lia. }
    rewrite !trimEnd_cons, Hr.
    destruct (isWhiteSpace (String c (trimEnd r))) eqn:Hws.
    + destruct (whiteSpace_plain _ Hws) as (_ & _ & Hfix).
      rewrite toUpperCase_head in Hfix.
      destruct (specialHead (String c (trimEnd r))) as [[u t]|] eqn:E'.
      * exfalso. apply specialHead_Some in E' as (p & Hp & Heq).
        destruct (trimEnd_prefix r) as [x Hx].
        assert (Hs : String c r = p +:+ (t +:+ x)).
        { rewrite <- app_assoc, <- Heq, app_cons. by rewrite <- Hx. }
        rewrite Hs, (specialHead_app _ _ _ Hp) in E. discriminate.
      * by rewrite Hfix, Hws.
    + assert (Hplain : specialHead (String c (trimEnd r)) = None).
      { destruct (specialHead (String c (trimEnd r))) as [[u t]|] eqn:E';
          [|reflexivity].
        exfalso. apply specialHead_Some in E' as (p & Hp & Heq).
        destruct (trimEnd_prefix r) as [x Hx].
        assert (Hs : String c r = p +:+ (t +:+ x)).
        { rewrite <- app_assoc, <- Heq, app_cons. by rewrite <- Hx. }
        rewrite Hs, (specialHead_app _ _ _ Hp) in E. discriminate. }
      assert (Hup : toUpperCase (String c (trimEnd r))
                    = String (upperChar c) (toUpperCase (trimEnd r)))
        by (by rewrite toUpperCase_head, Hplain).
      rewrite <- Hup.
      destruct (isWhiteSpace (toUpperCase (String c (trimEnd r)))) eqn:Hws';
        [|reflexivity].
      exfalso. destruct (whiteSpace_plain _ Hws') as (Hnu & _).
      destruct (toUpperCase_lift _ (String c (trimEnd r)) ""
                  Hnu (eq_sym (app_empty_r _))) as (t & Heq & Ht).
      symmetry in Ht. apply toUpperCase_empty in Ht. subst t.
      rewrite app_empty_r in Heq. rewrite Heq in Hws. congruence.
Qed.

Lemma trim_toUpperCase (s : string) :
  trim (toUpperCase s) = toUpperCase (trim s).
Proof.
  unfold trim. rewrite trimStart_toUpperCase. apply trimEnd_toUpperCase.
Qed.

Lemma wsHead_trimEnd (s : string) : wsHead s = None -> wsHead (trimEnd s) = None.
Proof.
  intros Hs. destruct (wsHead (trimEnd s)) as [t|] eqn:E; [|reflexivity].
  apply wsHead_Some in E as (w & Hw & Heq).
  destruct (trimEnd_prefix s) as [x Hx].
  rewrite Heq, app_assoc in Hx. rewrite Hx, (wsHead_app _ _ Hw) in Hs.
  discriminate.
Qed.

Lemma trim_idemp (s : string) : trim (trim s) = trim s.
Proof.
  unfold trim.
  rewrite (trimStart_head (trimEnd (trimStart s))).
  rewrite (wsHead_trimEnd _ (wsHead_trimStart s)).
  apply trimEnd_idemp.
Qed.


(** *** Padding and letter case *)

Lemma trimStart_padding (ws : list string) (s : string) :
  isPadding ws -> trimStart (padding ws +:+ s) = trimStart s.
Proof.
  induction 1 as [|w ws Hw _ IH]; [reflexivity|].
  cbn [padding fold_right]. rewrite app_assoc.
  by rewrite (trimStart_whiteSpace _ _ Hw).
Qed.

Lemma trimEnd_whiteSpace (w s : string) :
  isWhiteSpace w = true -> trimEnd (s +:+ w) = trimEnd s.
Proof.
  intros Hw. induction s as [|c s IH].
  - rewrite app_nil. apply isWhiteSpace_In in Hw. unfold whiteSpace in Hw.
    each_entry Hw; reflexivity.
  - by rewrite app_cons, !trimEnd_cons, IH.
Qed.

Lemma trimEnd_padding (ws : list string) (s : string) :
  isPadding ws -> trimEnd (s +:+ padding ws) = trimEnd s.
Proof.
  intros H. revert s. induction H as [|w ws Hw _ IH]; intros s.
  - cbn. by rewrite app_empty_r.
  - cbn [padding fold_right]. rewrite <- app_assoc.
    fold (padding ws). by rewrite IH, (trimEnd_whiteSpace _ _ Hw).
Qed.

Lemma wsHead_app_l (s t : string) :
  wsHead s = None -> isEmpty s = false ->
  (forall b t', t = String b t' -> whiteSpaceTail b = false) ->
  wsHead (s +:+ t) = None.
Proof.
  intros Hs Hne Ht.
  destruct s as [|c [|d [|e s3]]]; try discriminate.
  - rewrite app_cons, app_nil. revert Hs. cbn [wsHead].
    destruct (isWhiteSpace (one c)); [discriminate|]. intros _.
    destruct t as [|d t2]; [reflexivity|].
    specialize (Ht d t2 eq_refl).
    destruct (isWhiteSpace (two c d)) eqn:E2.
    { apply isWhiteSpace_In in E2. unfold whiteSpace in E2.
      each_entry E2; discriminate. }
    destruct t2 as [|e t3]; [reflexivity|].
    destruct (isWhiteSpace (three c d e)) eqn:E3; [|reflexivity].
    apply isWhiteSpace_In in E3. unfold whiteSpace in E3.
    each_entry E3; discriminate.
  - rewrite !app_cons, app_nil. revert Hs. cbn [wsHead].
    destruct (isWhiteSpace (one c)); [discriminate|].
    destruct (isWhiteSpace (two c d)); [discriminate|]. intros _.
    destruct t as [|e t3]; [reflexivity|].
    specialize (Ht e t3 eq_refl).
    destruct (isWhiteSpace (three c d e)) eqn:E3; [|reflexivity].
    apply isWhiteSpace_In in E3. unfold whiteSpace in E3.
    each_entry E3; discriminate.
  - rewrite !app_cons. revert Hs. cbn [wsHead].
    destruct (isWhiteSpace (one c)); [discriminate|].
    destruct (isWhiteSpace (two c d)); [discriminate|].
    destruct (isWhiteSpace (three c d e)); [discriminate | reflexivity].
Qed.

Lemma padding_head (ws : list string) (b : ascii) (t : string) :
  isPadding ws -> padding ws = String b t -> whiteSpaceTail b = false.
Proof.
  induction 1 as [|w ws Hw _ IH]; [discriminate|].
  cbn [padding fold_right]. fold (padding ws).
  apply isWhiteSpace_In in Hw. unfold whiteSpace in Hw.
  each_entry Hw; intros [= <- _]; reflexivity.
Qed.

Lemma trimStart_app (s : string) (ws : list string) :
  isPadding ws ->
  trimStart (s +:+ padding ws) =
    if isEmpty (trimStart s) then "" else trimStart s +:+ padding ws.
Proof.
  intros Hws. induction s as [s IH] using string_length_ind.
  rewrite (trimStart_head s).
  destruct (wsHead s) as [r|] eqn:E.
  - pose proof (wsHead_length _ _ E) as Hlt.
    apply wsHead_Some in E as (w & Hw & ->).
    rewrite app_assoc, (trimStart_whiteSpace _ _ Hw). by apply IH.
  - destruct s as [|c s].
    + rewrite app_nil. cbn [isEmpty].
      rewrite <- (app_empty_r (padding ws)).
      by rewrite (trimStart_padding _ _ Hws).
    + cbn [isEmpty]. rewrite trimStart_head.
      rewrite (wsHead_app_l _ _ E eq_refl); [reflexivity|].
      intros b t'. by apply padding_head.
Qed.

Lemma trim_padding (ws ws' : list string) (s : string) :
  isPadding ws -> isPadding ws' ->
  trim (padding ws +:+ s +:+ padding ws') = trim s.
Proof.
  intros Hws Hws'. unfold trim.
  rewrite (trimStart_padding _ _ Hws), (trimStart_app _ _ Hws').
  destruct (isEmpty (trimStart s)) eqn:E.
  - apply isEmpty_true in E. by rewrite E.
  - apply (trimEnd_padding _ _ Hws').
Qed.

(** Letter case. *)

Lemma sameLetter_upperChar (x y : ascii) :
  sameLetter x y = true -> upperChar x = upperChar y.
Proof.
  unfold sameLetter. cbv zeta.
  rewrite !orb_true_iff, !andb_true_iff, !Nat.eqb_eq, !Nat.leb_le.
  intros [[H|((H1 & H2) & H)]|((H1 & H2) & H)].
  - rewrite <- (ascii_nat_embedding x), <- (ascii_nat_embedding y).
    by rewrite H.
  - rewrite <- (ascii_nat_embedding y), H. clear H. revert H1 H2.
    destruct x as [[] [] [] [] [] [] [] []]; vm_compute; intros H1 H2;
      first [reflexivity | lia].
  - rewrite <- (ascii_nat_embedding x), H. clear H. revert H1 H2.
    destruct y as [[] [] [] [] [] [] [] []]; vm_compute; intros H1 H2;
      first [reflexivity | lia].
Qed.

Lemma sameLetter_plain (x y : ascii) :
  sameLetter x y = true -> isLower x = false -> isUpper x = false -> x = y.
Proof.
  unfold sameLetter, isLower, isUpper. cbv zeta.
  rewrite !orb_true_iff, !andb_true_iff, !andb_false_iff, !Nat.eqb_eq,
    !Nat.leb_le, !Nat.leb_gt.
  intros H Hl Hu.
  rewrite <- (ascii_nat_embedding x), <- (ascii_nat_embedding y).
  f_equal. lia.
Qed.

Lemma sameLetter_sym (x y : ascii) : sameLetter x y = sameLetter y x.
Proof.
  unfold sameLetter. cbv zeta. rewrite (Nat.eqb_sym (nat_of_ascii x)).
  rewrite <- !orb_assoc. f_equal. apply orb_comm.
Qed.

Lemma sameLetters_sym (a b : string) : sameLetters a b = sameLetters b a.
Proof.
  revert b. induction a as [|x a IH]; intros [|y b]; try reflexivity.
  cbn [sameLetters]. by rewrite sameLetter_sym, IH.
Qed.

Lemma sameLetters_prefix (p t b : string) :
  hasLower p = false -> hasUpper p = false ->
  sameLetters (p +:+ t) b = true ->
  exists t', b = p +:+ t' /\ sameLetters t t' = true.
Proof.
  revert b. induction p as [|x p IH]; intros b Hl Hu H.
  { exists b. by split. }
  cbn [hasLower hasUpper] in Hl, Hu.
  apply orb_false_iff in Hl as [Hxl Hl]. apply orb_false_iff in Hu as [Hxu Hu].
  rewrite app_cons in H. destruct b as [|y b]; [discriminate|].
  cbn [sameLetters] in H. apply andb_true_iff in H as [Hxy H].
  apply (sameLetter_plain _ _ Hxy Hxl) in Hxu as <-.
  destruct (IH b Hl Hu H) as (t' & -> & Ht). exists t'. by split.
Qed.

Lemma sameLetters_specialHead (a b : string) :
  sameLetters a b = true -> specialHead a = None -> specialHead b = None.
Proof.
  intros Hab Ha. destruct (specialHead b) as [[u t]|] eqn:E; [|reflexivity].
  apply specialHead_Some in E as (p & Hp & ->).
  destruct (special_upper _ _ Hp) as (_ & _ & Hu & Hl).
  rewrite sameLetters_sym in Hab.
  destruct (sameLetters_prefix _ _ _ Hl Hu Hab) as (t' & -> & _).
  rewrite (specialHead_app _ _ _ Hp) in Ha. discriminate.
Qed.

Lemma sameLetters_toUpperCase (a b : string) :
  sameLetters a b = true -> toUpperCase a = toUpperCase b.
Proof.
  revert b. induction a as [a IH] using string_length_ind. intros b Hab.
  rewrite (toUpperCase_head a).
  destruct (specialHead a) as [[u t]|] eqn:E.
  - pose proof (specialHead_length _ _ _ E) as Hlt.
    apply specialHead_Some in E as (p & Hp & ->).
    destruct (special_upper _ _ Hp) as (_ & _ & Hu & Hl).
    destruct (sameLetters_prefix _ _ _ Hl Hu Hab) as (t' & -> & Ht).
    by rewrite (toUpperCase_special _ _ _ Hp), (IH t Hlt t' Ht).
  - rewrite (toUpperCase_head b), (sameLetters_specialHead _ _ Hab E).
    destruct a as [|x a], b as [|y b]; try discriminate; [reflexivity|].
    cbn [sameLetters] in Hab. apply andb_true_iff in Hab as [Hxy Hab].
    rewrite (sameLetter_upperChar _ _ Hxy). f_equal.
    apply IH; [cbn; lia | exact Hab].
Qed.

Lemma sameLetters_isEmpty (a b : string) :
  sameLetters a b = true -> isEmpty a = isEmpty b.
Proof. destruct a, b; try discriminate; reflexivity. Qed.

(** The key that [getVoucherByCode] looks up is the same for [code] and
    for its trimmed upper-case form. *)
Lemma lookup_key_normalised (s : string) :
  toUpperCase (trim (trim (toUpperCase s))) = toUpperCase (trim s).
Proof.
  rewrite trim_idemp, trim_toUpperCase. apply toUpperCase_idemp.
Qed.

(** An upper-cased key never names a property that the voucher table
    inherits from [Object.prototype]. *)
Lemma toUpperCase_not_inherited (s : string) :
  ~ In (toUpperCase s) Object_prototype.
Proof.
  intros H.
  assert (Hall : forallb hasLower Object_prototype = true)
    by (vm_compute; reflexivity).
  rewrite forallb_forall in Hall. specialize (Hall _ H).
  rewrite hasLower_toUpperCase in Hall. discriminate.
Qed.

End StringFacts.

(** ** The voucher table *)

Lemma VOUCHERS_lookup (k : string) :
  Script.VOUCHERS !! k =
    if String.eqb k "OFFI2025" then Some Script.OFFI2025
    else if String.eqb k "BULK10" then Some Script.BULK10
    else None.
Proof.
  unfold Script.VOUCHERS.
  destruct (String.eqb k "OFFI2025") eqn:E1.
  - apply String.eqb_eq in E1. subst k. reflexivity.
  - apply String.eqb_neq in E1.
    rewrite lookup_insert_ne by congruence.
    destruct (String.eqb k "BULK10") eqn:E2.
    + apply String.eqb_eq in E2. subst k. reflexivity.
    + apply String.eqb_neq in E2.
      apply lookup_singleton_ne. congruence.
Qed.

Lemma VOUCHERS_dom : dom Script.VOUCHERS = {[ "OFFI2025"; "BULK10" ]}.
Proof.
  unfold Script.VOUCHERS. rewrite dom_insert_L, dom_singleton_L. reflexivity.
Qed.

Lemma getVoucherByCode_lookup (c : string) :
  Script.getVoucherByCode c =
    (let up := toUpperCase (trim c) in
     if String.eqb up "OFFI2025" then Some Script.OFFI2025
     else if String.eqb up "BULK10" then Some Script.BULK10
     else None).
Proof.
  unfold Script.getVoucherByCode.
  destruct (isEmpty c) eqn:E.
  - apply isEmpty_true in E. subst c. reflexivity.
  - apply VOUCHERS_lookup.
Qed.

Lemma getVoucherByCode_Some (c : string) (v : Script.Voucher) :
  Script.getVoucherByCode c = Some v ->
  v = Script.OFFI2025 \/ v = Script.BULK10.
Proof.
  rewrite getVoucherByCode_lookup. cbv zeta.
  destruct (String.eqb _ "OFFI2025"); [intros [= <-]; by left|].
  destruct (String.eqb _ "BULK10"); [intros [= <-]; by right|].
  discriminate.
Qed.

Lemma getVoucherByCode_code (c : string) (v : Script.Voucher) :
  Script.getVoucherByCode c = Some v -> toUpperCase (trim c) = Script.code v.
Proof.
  rewrite getVoucherByCode_lookup. cbv zeta.
  destruct (String.eqb _ "OFFI2025") eqn:E1;
    [apply String.eqb_eq in E1; by intros [= <-]|].
  destruct (String.eqb _ "BULK10") eqn:E2;
    [apply String.eqb_eq in E2; by intros [= <-]|].
  discriminate.
Qed.

(** White space around a code and the case of its letters do not change
    what it resolves to. *)
Lemma getVoucherByCode_spelling (before after : list string) (a b : string) :
  isPadding before -> isPadding after -> sameLetters a b = true ->
  Script.getVoucherByCode (padding before +:+ a +:+ padding after)
  = Script.getVoucherByCode b.
Proof.
  intros Hbefore Hafter Hab.
  rewrite (getVoucherByCode_lookup b), (getVoucherByCode_lookup (_ +:+ _)).
  cbv zeta. rewrite (trim_padding _ _ _ Hbefore Hafter).
  by rewrite <- !trim_toUpperCase, (sameLetters_toUpperCase _ _ Hab).
Qed.

(** C8: [getVoucherByCode] looks the code up under its trimmed, upper-case
    form, so a code resolves as its trimmed upper-case form does (in
    either order of the two operations): to the voucher whose code that
    form is, and to none when it is neither key of the table, OFFI2025 or
    BULK10.  So a code resolves the same with white space around it and
    with its letters in either case: the two codes resolve in lower case
    and padded, also by a no-break space, and written with the ligature
    of f, f and i or with a dotless i; the empty text, a code with a space
    inside, another code and the name of an inherited property resolve to
    none. *)
Theorem C8_getVoucherByCode_normalises (c : string) :
  Script.getVoucherByCode c = Script.getVoucherByCode (trim (toUpperCase c))
  /\ Script.getVoucherByCode c = Script.getVoucherByCode (toUpperCase (trim c))
  /\ (forall v,
        Script.getVoucherByCode c = Some v <->
        toUpperCase (trim c) = Script.code v
        /\ (v = Script.OFFI2025 \/ v = Script.BULK10))
  /\ (toUpperCase (trim c) <> "OFFI2025" ->
      toUpperCase (trim c) <> "BULK10" ->
      Script.getVoucherByCode c = None)
  /\ dom Script.VOUCHERS = {[ "OFFI2025"; "BULK10" ]}
  /\ (forall (before after : list string) (spelled : string),
        isPadding before -> isPadding after ->
        sameLetters spelled c = true ->
        Script.getVoucherByCode (padding before +:+ spelled +:+ padding after)
        = Script.getVoucherByCode c)
  /\ Script.getVoucherByCode "OFFI2025" = Some Script.OFFI2025
  /\ Script.getVoucherByCode "BULK10" = Some Script.BULK10
  /\ Script.getVoucherByCode "  offi2025 " = Some Script.OFFI2025
  /\ Script.getVoucherByCode (bytes [194; 160]%nat +:+ "Bulk10")
     = Some Script.BULK10
  /\ Script.getVoucherByCode ("o" +:+ bytes [239; 172; 131]%nat +:+ "2025")
     = Some Script.OFFI2025
  /\ Script.getVoucherByCode ("OFF" +:+ bytes [196; 177]%nat +:+ "2025")
     = Some Script.OFFI2025
  /\ Script.getVoucherByCode "" = None
  /\ Script.getVoucherByCode "OFFI 2025" = None
  /\ Script.getVoucherByCode "OFFI2026" = None
  /\ Script.getVoucherByCode "constructor" = None.
Proof.
  split.
  { rewrite (getVoucherByCode_lookup c),
      (getVoucherByCode_lookup (trim (toUpperCase c))).
    cbv zeta. rewrite lookup_key_normalised. reflexivity. }
  split.
  { rewrite (getVoucherByCode_lookup c),
      (getVoucherByCode_lookup (toUpperCase (trim c))).
    cbv zeta. by rewrite trim_toUpperCase, trim_idemp, toUpperCase_idemp. }
  split.
  { intros v. split.
    - intros Hv. split; [by apply getVoucherByCode_code|].
      by apply (getVoucherByCode_Some c).
    - rewrite getVoucherByCode_lookup. cbv zeta.
      intros [Hcode [-> | ->]]; by rewrite Hcode. }
  split.
  { intros H1 H2. rewrite getVoucherByCode_lookup. cbv zeta.
    apply String.eqb_neq in H1, H2. by rewrite H1, H2. }
  split; [exact VOUCHERS_dom|].
  split; [intros before after spelled; apply getVoucherByCode_spelling|].
  repeat split.
Qed.

(** ** Sums and totals *)

Lemma reduceSubtotal_from (cart : Cart) (start : Q) :
  (fold_left (fun sum item => sum + lineTotal item) cart start
   == start + sumPriceQuantity cart)%Q.
Proof.
  revert start. induction cart as [|item rest IH]; intros start; simpl.
  - ring.
  - rewrite IH. unfold lineTotal. ring.
Qed.

Lemma reduceSubtotal_sum (cart : Cart) :
  (reduceSubtotal cart == sumPriceQuantity cart)%Q.
Proof. unfold reduceSubtotal. rewrite reduceSubtotal_from. ring. Qed.

Lemma reduceQuantity_from (cart : Cart) (start : Z) :
  fold_left (fun sum item => sum + quantity item) cart start
  = start + sumQuantity cart.
Proof.
  revert start. induction cart as [|item rest IH]; intros start; simpl.
  - lia.
  - rewrite IH. lia.
Qed.

Lemma reduceQuantity_sum (cart : Cart) : reduceQuantity cart = sumQuantity cart.
Proof. unfold reduceQuantity. rewrite reduceQuantity_from. lia. Qed.

Lemma Qltb_lt (a b : Q) : Qltb a b = true <-> (a < b)%Q.
Proof.
  unfold Qltb. rewrite negb_true_iff, <- not_true_iff_false, Qle_bool_iff.
  split; [apply Qnot_le_lt | apply Qlt_not_le].
Qed.

Lemma Qltb_ge (a b : Q) : Qltb a b = false <-> (b <= a)%Q.
Proof.
  unfold Qltb. rewrite negb_false_iff. apply Qle_bool_iff.
Qed.

Lemma orZero_eq (x : Q) : (Script.orZero x == x)%Q.
Proof.
  unfold Script.orZero. destruct (Qeq_bool x 0) eqn:E; [|reflexivity].
  apply Qeq_bool_iff in E. symmetry. exact E.
Qed.

Lemma minSpend_positive (c : string) (v : Script.Voucher) :
  Script.getVoucherByCode c = Some v -> (0 < Script.minSpend v)%Q.
Proof.
  intros H. destruct (getVoucherByCode_Some _ _ H) as [-> | ->];
    reflexivity.
Qed.


Lemma getActiveVoucherCode_reads (p : Page) :
  exists c, Script.getActiveVoucherCode p = (Ok c, p).
Proof.
  unfold Script.getActiveVoucherCode, getStorage, mbind, M_bind, mret, M_ret.
  destruct (os_active_voucher (localStorage p)) as [c|]; [|by eexists].
  destruct (isEmpty c); by eexists.
Qed.

(** C1: [calculateCartTotals] returns, leaves storage and badge as they
    were, and gives subtotal = sum of price * quantity, itemCount = sum of
    quantity, shipping = 150 if subtotal > 0 and 0 otherwise, discount = the
    voucher discount of the code stored as the active voucher (0 without
    one) and total = max(0, subtotal - discount) + shipping; the totals
    name the stored code as the applied voucher, and two pages with the
    same stored code give the same totals for the same cart.  The totals
    of script1.js, which knows no voucher, are the same with discount
    0. *)
Theorem C1_calculateCartTotals (cart : Cart) (p p' : Page)
  (Hcode : activeVoucher p = activeVoucher p') :
  exists t : Script.Totals,
    Script.calculateCartTotals cart p = (Ok t, p)
    /\ Script.calculateCartTotals cart p' = (Ok t, p')
    /\ (Script.subtotal t == sumPriceQuantity cart)%Q
    /\ Script.itemCount t = sumQuantity cart
    /\ Script.shipping t = (if Qltb 0 (Script.subtotal t) then 150 else 0)%Q
    /\ Script.discount t =
         match activeVoucher p with
         | Some c => Script.calculateVoucherDiscount cart c
         | None => 0%Q
         end
    /\ Script.appliedVoucher t =
         match activeVoucher p with
         | Some c => if isEmpty c then None else Some c
         | None => None
         end
    /\ (Script.total t ==
        Qmax 0 (Script.subtotal t - Script.discount t) + Script.shipping t)%Q
    /\ (Script1.subtotal (Script1.calculateCartTotals cart)
        == sumPriceQuantity cart)%Q
    /\ Script1.itemCount (Script1.calculateCartTotals cart) = sumQuantity cart
    /\ (Script1.total (Script1.calculateCartTotals cart) ==
        Qmax 0 (Script1.subtotal (Script1.calculateCartTotals cart) - 0)
        + (if Qltb 0 (Script1.subtotal (Script1.calculateCartTotals cart))
           then 150 else 0))%Q.
Proof.
  unfold activeVoucher in *.
  assert (Hread : forall q,
    Script.getActiveVoucherCode q
    = (Ok match os_active_voucher (localStorage q) with
          | Some c => if isEmpty c then None else Some c
          | None => None
          end, q)).
  { intros q. unfold Script.getActiveVoucherCode, getStorage, mbind, M_bind.
    destruct (os_active_voucher (localStorage q)) as [c|]; [|reflexivity].
    by destruct (isEmpty c). }
  unfold Script.calculateCartTotals, mbind, M_bind.
  rewrite !Hread, <- Hcode.
  eexists. split; [reflexivity|]. split; [reflexivity|].
  cbn [Script.subtotal Script.discount Script.shipping Script.total
       Script.itemCount Script.appliedVoucher Script1.calculateCartTotals
       Script1.subtotal Script1.total Script1.itemCount].
  split; [apply reduceSubtotal_sum|].
  split; [apply reduceQuantity_sum|].
  split; [reflexivity|].
  split.
  { destruct (os_active_voucher (localStorage p)) as [c|]; [|reflexivity].
    destruct (isEmpty c) eqn:E; [|reflexivity].
    apply isEmpty_true in E. subst c. reflexivity. }
  split; [reflexivity|].
  split; [rewrite orZero_eq; reflexivity|].
  split; [apply reduceSubtotal_sum|].
  split; [apply reduceQuantity_sum|].
  destruct (Qltb 0 (reduceSubtotal cart)) eqn:E.
  - apply Qltb_lt in E. rewrite Q.max_r by lra.
    unfold SHIPPING_FEE. ring.
  - apply Qltb_ge in E. rewrite Q.max_l by lra. ring.
Qed.

(** A desk at 600 with OFFI2025 stored: the discount is 100 and the total
    650, on a page with a badge as on one without. *)
Lemma C1_calculateCartTotals_witness :
  let cart := [mkItem "D" "Desk" 600 "desk.png" 1] in
  let s := set_os_active_voucher (Some "OFFI2025") emptyStorage in
  exists t : Script.Totals,
    Script.calculateCartTotals cart (mkPage s None) = (Ok t, mkPage s None)
    /\ Script.calculateCartTotals cart (mkPage s (Some (mkBadge (Count 1) 1)))
       = (Ok t, mkPage s (Some (mkBadge (Count 1) 1)))
    /\ Script.discount t = 100%Q
    /\ (Script.total t == 650)%Q
    /\ Script.appliedVoucher t = Some "OFFI2025".
Proof.
  cbv zeta.
  destruct (C1_calculateCartTotals [mkItem "D" "Desk" 600 "desk.png" 1]
              (mkPage (set_os_active_voucher (Some "OFFI2025") emptyStorage)
                 None)
              (mkPage (set_os_active_voucher (Some "OFFI2025") emptyStorage)
                 (Some (mkBadge (Count 1) 1)))
              eq_refl)
    as (t & H & H' & _ & _ & _ & Hd & Ha & Ht & _).
  exists t. split; [exact H|]. split; [exact H'|].
  split; [rewrite Hd; reflexivity|].
  split; [|exact Ha].
  vm_compute in H. injection H as <-. reflexivity.
Defined.

(** ** Reading and saving the cart *)

Lemma getCartItems_same : Script.getCartItems = Script1.getCartItems.
Proof. reflexivity. Qed.

Lemma updateCartCount_same : Script.updateCartCount = Script1.updateCartCount.
Proof. reflexivity. Qed.

Lemma saveCart_same : Script.saveCart = Script1.saveCart.
Proof. reflexivity. Qed.

Lemma getCartItems_run (p : Page) :
  Script.getCartItems p =
    match storedCart p with
    | Some cart => (Ok cart, p)
    | None => (Throw SyntaxError, p)
    end.
Proof.
  unfold Script.getCartItems, storedCart, getStorage, mbind, M_bind.
  destruct (cartItems (localStorage p)) as [[c| |raw]|]; reflexivity.
Qed.

Lemma getCartItems_ok (p : Page) (cart : Cart) :
  storedCart p = Some cart -> Script.getCartItems p = (Ok cart, p).
Proof. intros H. rewrite getCartItems_run, H. reflexivity. Qed.

Lemma storedCart_savedPage (cart : Cart) (p : Page) :
  storedCart (savedPage cart p) = Some cart.
Proof. reflexivity. Qed.

Lemma saveCart_run (cart : Cart) (p : Page) :
  Script.saveCart cart p = (Ok tt, savedPage cart p).
Proof.
  unfold Script.saveCart, Script.updateCartCount, modifyStorage, mbind, M_bind.
  rewrite getCartItems_run. cbn.
  unfold savedPage. destruct (cart_count p); reflexivity.
Qed.

Lemma savedPage_savedPage (c1 c2 : Cart) (p : Page) :
  savedPage c2 (savedPage c1 p) = savedPage c2 p.
Proof. unfold savedPage. cbn. destruct (cart_count p); reflexivity. Qed.

(** C2: [getCartItems] returns the persisted cart, and the empty cart when
    the key is absent or holds a falsy JSON value; on a text that is not
    JSON it throws the SyntaxError of [JSON.parse], in both scripts, and
    the page-load handler of the later script stops on that exception. *)
Theorem C2_getCartItems (s : Storage) (badge : option Badge)
  (t : option CartText) (encodeURI decodeURI : string -> option string) :
  let p := mkPage (set_cartItems t s) badge in
  Script1.getCartItems p = Script.getCartItems p
  /\ match t with
     | None => Script.getCartItems p = (Ok [], p)
     | Some (Stringified cart) => Script.getCartItems p = (Ok cart, p)
     | Some FalsyJSON => Script.getCartItems p = (Ok [], p)
     | Some (NotJSON raw) =>
         Script.getCartItems p = (Throw SyntaxError, p)
         /\ Script.pageLoad encodeURI decodeURI p = (Throw SyntaxError, p)
     end.
Proof.
  split; [reflexivity|].
  destruct t as [[cart| |raw]|]; try reflexivity.
  split; reflexivity.
Qed.

(** ** The array operations *)

Section CartArrays.

Variable key : string.

Lemma findById_updateFound (f : CartItem -> CartItem) (cart : Cart) :
  (forall item, id (f item) = id item) ->
  findById key (updateFound key f cart) = f <$> findById key cart.
Proof.
  intros Hid. induction cart as [|item rest IH]; [reflexivity|].
  cbn. destruct (String.eqb (id item) key) eqn:E; cbn.
  - rewrite Hid, E. reflexivity.
  - rewrite E. exact IH.
Qed.

Lemma updateFound_compose (f g : CartItem -> CartItem) (cart : Cart) :
  (forall item, id (f item) = id item) ->
  updateFound key g (updateFound key f cart)
  = updateFound key (fun item => g (f item)) cart.
Proof.
  intros Hid. induction cart as [|item rest IH]; [reflexivity|].
  cbn. destruct (String.eqb (id item) key) eqn:E; cbn.
  - rewrite Hid, E. reflexivity.
  - rewrite E, IH. reflexivity.
Qed.

Lemma updateFound_ext (f g : CartItem -> CartItem) (cart : Cart) :
  (forall item, f item = g item) ->
  updateFound key f cart = updateFound key g cart.
Proof.
  intros Hfg. induction cart as [|item rest IH]; [reflexivity|].
  cbn. rewrite Hfg, IH. reflexivity.
Qed.

Lemma findById_app_absent (cart more : Cart) :
  findById key cart = None ->
  findById key (cart ++ more) = findById key more.
Proof.
  induction cart as [|item rest IH]; [reflexivity|].
  cbn. destruct (String.eqb (id item) key); [discriminate | exact IH].
Qed.

Lemma updateFound_app_absent (f : CartItem -> CartItem) (cart more : Cart) :
  findById key cart = None ->
  updateFound key f (cart ++ more) = cart ++ updateFound key f more.
Proof.
  induction cart as [|item rest IH]; [reflexivity|].
  cbn. destruct (String.eqb (id item) key); [discriminate|].
  intros H. rewrite (IH H). reflexivity.
Qed.

Lemma updateFound_ids (f : CartItem -> CartItem) (cart : Cart) :
  (forall item, id (f item) = id item) ->
  map id (updateFound key f cart) = map id cart.
Proof.
  intros Hid. induction cart as [|item rest IH]; [reflexivity|].
  cbn. destruct (String.eqb (id item) key); cbn; [by rewrite Hid|].
  by rewrite IH.
Qed.

(** The entry that [find] returns is the first one with the id, and the
    assignment changes that entry only. *)
Lemma updateFound_found (f : CartItem -> CartItem) (cart : Cart)
  (existing : CartItem) :
  findById key cart = Some existing ->
  exists before after,
    cart = before ++ existing :: after
    /\ findById key before = None
    /\ id existing = key
    /\ updateFound key f cart = before ++ f existing :: after.
Proof.
  induction cart as [|item rest IH]; [discriminate|].
  cbn. destruct (String.eqb (id item) key) eqn:E.
  - intros [= ->]. exists [], rest. apply String.eqb_eq in E. by cbn; rewrite ?E.
  - intros H. destruct (IH H) as (before & after & -> & Hb & Hk & Hu).
    exists (item :: before), after. cbn. rewrite E, Hu. done.
Qed.

End CartArrays.

Lemma withQuantity_twice (item : CartItem) (a b : Z) :
  withQuantity (quantity (withQuantity (quantity item + a) item) + b)
    (withQuantity (quantity item + a) item)
  = withQuantity (quantity item + (a + b)) item.
Proof. unfold withQuantity. cbn. f_equal. lia. Qed.

(** ** Adding to the cart *)

Section Adding.

Variables encodeURI decodeURI : string -> option string.

Local Abbreviation normalizeImage := (Script.normalizeImage encodeURI decodeURI).
Local Abbreviation incrementOrPush := (Script.incrementOrPush encodeURI decodeURI).
Local Abbreviation addItemToCart := (Script.addItemToCart encodeURI decodeURI).

Lemma addItemToCart_run (newItem : CartItem) (p : Page) :
  addItemToCart newItem p =
    match storedCart p with
    | Some cart => (Ok tt, savedPage (incrementOrPush newItem cart) p)
    | None => (Throw SyntaxError, p)
    end.
Proof.
  unfold Script.addItemToCart, mbind, M_bind. rewrite getCartItems_run.
  destruct (storedCart p); [apply saveCart_run | reflexivity].
Qed.

Lemma Script1_addItemToCart_run (newItem : CartItem) (p : Page) :
  Script1.addItemToCart newItem p =
    match storedCart p with
    | Some cart => (Ok tt, savedPage (Script1.incrementOrPush newItem cart) p)
    | None => (Throw SyntaxError, p)
    end.
Proof.
  unfold Script1.addItemToCart, mbind, M_bind.
  rewrite <- getCartItems_same, <- saveCart_same, getCartItems_run.
  destruct (storedCart p); [apply saveCart_run | reflexivity].
Qed.

Lemma normalizeImage_id (item : CartItem) : id (normalizeImage item) = id item.
Proof. unfold Script.normalizeImage. by destruct (negb _). Qed.

Lemma normalizeImage_quantity (item : CartItem) :
  quantity (normalizeImage item) = quantity item.
Proof. unfold Script.normalizeImage. by destruct (negb _). Qed.

Lemma normalizeImage_withQuantity (item : CartItem) (q : Z) :
  normalizeImage (withQuantity q item) = withQuantity q (normalizeImage item).
Proof. unfold Script.normalizeImage. cbn. by destruct (negb _). Qed.

Lemma incrementOrPush_twice (item second : CartItem) (cart : Cart) :
  id second = id item ->
  incrementOrPush second (incrementOrPush item cart)
  = incrementOrPush (withQuantity (quantity item + quantity second) item) cart.
Proof.
  intros Hid. unfold Script.incrementOrPush at 2 3. cbn [id withQuantity].
  destruct (findById (id item) cart) as [existing|] eqn:Hfind.
  - unfold Script.incrementOrPush. rewrite Hid.
    rewrite findById_updateFound, Hfind by reflexivity. cbn [fmap option_fmap option_map].
    rewrite updateFound_compose by reflexivity.
    apply updateFound_ext. intros e. cbn [quantity withQuantity].
    apply withQuantity_twice.
  - unfold Script.incrementOrPush. rewrite Hid.
    rewrite findById_app_absent by exact Hfind.
    cbn. rewrite normalizeImage_id, String.eqb_refl.
    rewrite updateFound_app_absent by exact Hfind.
    cbn. rewrite normalizeImage_id, String.eqb_refl.
    rewrite normalizeImage_withQuantity.
    unfold withQuantity. cbn. rewrite normalizeImage_quantity. reflexivity.
Qed.

Lemma Script1_incrementOrPush_twice (item second : CartItem) (cart : Cart) :
  id second = id item ->
  Script1.incrementOrPush second (Script1.incrementOrPush item cart)
  = Script1.incrementOrPush
      (withQuantity (quantity item + quantity second) item) cart.
Proof.
  intros Hid. unfold Script1.incrementOrPush at 2 3. cbn [id withQuantity].
  destruct (findById (id item) cart) as [existing|] eqn:Hfind.
  - unfold Script1.incrementOrPush. rewrite Hid.
    rewrite findById_updateFound, Hfind by reflexivity. cbn [fmap option_fmap option_map].
    rewrite updateFound_compose by reflexivity.
    apply updateFound_ext. intros e. cbn [quantity withQuantity].
    apply withQuantity_twice.
  - unfold Script1.incrementOrPush. rewrite Hid.
    rewrite findById_app_absent by exact Hfind.
    cbn. rewrite String.eqb_refl.
    rewrite updateFound_app_absent by exact Hfind.
    cbn. rewrite String.eqb_refl. reflexivity.
Qed.

End Adding.

(** C7: adding an item and then a second item with the same id leaves the
    page as one add with the summed quantity does, in both scripts; an add
    whose id is in the cart increments the quantity of the first entry
    with that id by the new item's quantity, and an add with a new id
    appends the item (the later script normalises its image URL first). *)
Theorem C7_addItemToCart_twice (encodeURI decodeURI : string -> option string)
  (item second : CartItem) (p : Page) (Hid : id second = id item) :
  (Script.addItemToCart encodeURI decodeURI item;;
   Script.addItemToCart encodeURI decodeURI second) p
  = Script.addItemToCart encodeURI decodeURI
      (withQuantity (quantity item + quantity second) item) p
  /\ (Script1.addItemToCart item;; Script1.addItemToCart second) p
     = Script1.addItemToCart
         (withQuantity (quantity item + quantity second) item) p
  /\ (forall cart existing,
        storedCart p = Some cart ->
        findById (id item) cart = Some existing ->
        exists before after,
          cart = before ++ existing :: after
          /\ findById (id item) before = None
          /\ storedCart (exec (Script.addItemToCart encodeURI decodeURI item) p)
             = Some (before
                     ++ withQuantity (quantity existing + quantity item) existing
                     :: after)
          /\ storedCart (exec (Script1.addItemToCart item) p)
             = Some (before
                     ++ withQuantity (quantity existing + quantity item) existing
                     :: after))
  /\ (forall cart,
        storedCart p = Some cart ->
        findById (id item) cart = None ->
        storedCart (exec (Script.addItemToCart encodeURI decodeURI item) p)
        = Some (cart ++ [Script.normalizeImage encodeURI decodeURI item])
        /\ storedCart (exec (Script1.addItemToCart item) p)
           = Some (cart ++ [item])).
Proof.
  split; [|split; [|split]].
  - unfold mbind at 1, M_bind. rewrite !addItemToCart_run.
    destruct (storedCart p) as [cart|] eqn:Hcart; [|reflexivity].
    rewrite addItemToCart_run, storedCart_savedPage, savedPage_savedPage.
    rewrite incrementOrPush_twice by exact Hid. reflexivity.
  - unfold mbind at 1, M_bind. rewrite !Script1_addItemToCart_run.
    destruct (storedCart p) as [cart|] eqn:Hcart; [|reflexivity].
    rewrite Script1_addItemToCart_run, storedCart_savedPage,
      savedPage_savedPage.
    rewrite Script1_incrementOrPush_twice by exact Hid. reflexivity.
  - intros cart existing Hcart Hfind.
    destruct (updateFound_found (id item)
                (fun e => withQuantity (quantity e + quantity item) e)
                cart existing Hfind) as (before & after & Hsplit & Hb & _ & Hu).
    exists before, after. split; [exact Hsplit|]. split; [exact Hb|].
    unfold exec.
    rewrite addItemToCart_run, Script1_addItemToCart_run, Hcart. cbn [snd].
    rewrite !storedCart_savedPage.
    unfold Script.incrementOrPush, Script1.incrementOrPush.
    rewrite Hfind, Hu. split; reflexivity.
  - intros cart Hcart Hfind. unfold exec.
    rewrite addItemToCart_run, Script1_addItemToCart_run, Hcart. cbn [snd].
    rewrite !storedCart_savedPage.
    unfold Script.incrementOrPush, Script1.incrementOrPush.
    rewrite Hfind. split; reflexivity.
Qed.

Lemma C7_addItemToCart_twice_witness :
  storedCart
    (exec (Script.addItemToCart Some Some (mkItem "A" "Pen" 100 "pen.png" 1);;
           Script.addItemToCart Some Some (mkItem "A" "Pen" 100 "pen.png" 1))
       (mkPage emptyStorage None))
  = Some [mkItem "A" "Pen" 100 "pen.png" 2].
Proof.
  unfold exec.
  rewrite (proj1 (C7_addItemToCart_twice Some Some
                    (mkItem "A" "Pen" 100 "pen.png" 1)
                    (mkItem "A" "Pen" 100 "pen.png" 1)
                    (mkPage emptyStorage None) eq_refl)).
  reflexivity.
Defined.

(** C10: when [addItemToCart] gets an id that is in the cart, the stored
    cart changes in the quantity of the first entry with that id and in
    nothing else: ids, names, prices and images stay as stored, and the
    name, price and image of the new item have no effect on the result. *)
Theorem C10_addItemToCart_existing
  (encodeURI decodeURI : string -> option string)
  (newItem existing : CartItem) (cart : Cart) (p : Page)
  (Hcart : storedCart p = Some cart)
  (Hfind : findById (id newItem) cart = Some existing) :
  exists before after cart',
    cart = before ++ existing :: after
    /\ findById (id newItem) before = None
    /\ cart' = before
               ++ withQuantity (quantity existing + quantity newItem) existing
               :: after
    /\ Script.addItemToCart encodeURI decodeURI newItem p
       = (Ok tt, savedPage cart' p)
    /\ Script1.addItemToCart newItem p = (Ok tt, savedPage cart' p)
    /\ map id cart' = map id cart
    /\ map name cart' = map name cart
    /\ map price cart' = map price cart
    /\ map image cart' = map image cart
    /\ (forall other : CartItem,
          id other = id newItem ->
          quantity other = quantity newItem ->
          Script.addItemToCart encodeURI decodeURI other p
          = Script.addItemToCart encodeURI decodeURI newItem p
          /\ Script1.addItemToCart other p = Script1.addItemToCart newItem p).
Proof.
  destruct (updateFound_found (id newItem)
              (fun e => withQuantity (quantity e + quantity newItem) e)
              cart existing Hfind) as (before & after & Hsplit & Hb & _ & Hu).
  exists before, after, (before
    ++ withQuantity (quantity existing + quantity newItem) existing :: after).
  split; [exact Hsplit|]. split; [exact Hb|]. split; [reflexivity|].
  assert (Hrun : Script.incrementOrPush encodeURI decodeURI newItem cart
                 = before ++ withQuantity (quantity existing + quantity newItem)
                               existing :: after)
    by (unfold Script.incrementOrPush; rewrite Hfind; exact Hu).
  assert (Hrun1 : Script1.incrementOrPush newItem cart
                  = before ++ withQuantity (quantity existing + quantity newItem)
                                existing :: after)
    by (unfold Script1.incrementOrPush; rewrite Hfind; exact Hu).
  split; [rewrite addItemToCart_run, Hcart, Hrun; reflexivity|].
  split; [rewrite Script1_addItemToCart_run, Hcart, Hrun1; reflexivity|].
  rewrite Hsplit, !map_app. cbn [map withQuantity id name price image].
  repeat (split; [reflexivity|]).
  intros other Hid Hq.
  rewrite !addItemToCart_run, !Script1_addItemToCart_run, Hcart.
  unfold Script.incrementOrPush, Script1.incrementOrPush.
  rewrite Hid, Hq, Hfind. split; reflexivity.
Qed.

Lemma C10_addItemToCart_existing_witness :
  storedCart
    (exec (Script.addItemToCart Some Some (mkItem "A" "Pencil" 5 "other.png" 3))
       (savedPage [mkItem "A" "Pen" 100 "pen.png" 2] (mkPage emptyStorage None)))
  = Some [mkItem "A" "Pen" 100 "pen.png" 5].
Proof.
  destruct (C10_addItemToCart_existing Some Some
              (mkItem "A" "Pencil" 5 "other.png" 3)
              (mkItem "A" "Pen" 100 "pen.png" 2)
              [mkItem "A" "Pen" 100 "pen.png" 2]
              (savedPage [mkItem "A" "Pen" 100 "pen.png" 2]
                 (mkPage emptyStorage None))
              eq_refl eq_refl)
    as (before & after & cart' & Hsplit & _ & -> & Hrun & _).
  unfold exec. rewrite Hrun. cbn [snd]. rewrite storedCart_savedPage.
  destruct before as [|first before].
  - injection Hsplit as <-. reflexivity.
  - injection Hsplit as _ Hrest. destruct before; discriminate.
Defined.

(** ** What a handler leaves untouched *)

Section Frame.

Context {X : Type} (f : Page -> X).

Lemma preserves_ret {A} (a : A) : preserves f (mret a).
Proof. intros p. reflexivity. Qed.

Lemma preserves_throw {A} (e : Exn) : preserves f (throw e : M A).
Proof. intros p. reflexivity. Qed.

Lemma preserves_getStorage : preserves f getStorage.
Proof. intros p. reflexivity. Qed.

Lemma preserves_getBadge : preserves f getBadge.
Proof. intros p. reflexivity. Qed.

Lemma preserves_bind {A B} (m : M A) (k : A -> M B) :
  preserves f m -> (forall a, preserves f (k a)) -> preserves f (m ≫= k).
Proof.
  intros Hm Hk p. unfold exec, mbind, M_bind.
  specialize (Hm p). unfold exec in Hm.
  destruct (m p) as [[a|e] p']; cbn in *.
  - rewrite <- Hm. apply Hk.
  - exact Hm.
Qed.

Lemma preserves_try_catch {A} (m h : M A) :
  preserves f m -> preserves f h -> preserves f (try_catch m h).
Proof.
  intros Hm Hh p. unfold exec, try_catch.
  specialize (Hm p). unfold exec in Hm.
  destruct (m p) as [[a|e] p']; cbn in *.
  - exact Hm.
  - rewrite <- Hm. apply Hh.
Qed.

Lemma preserves_modifyStorage (g : Storage -> Storage) :
  (forall s b, f (mkPage (g s) b) = f (mkPage s b)) ->
  preserves f (modifyStorage g).
Proof. intros H [s b]. apply H. Qed.

Lemma preserves_setBadge (badge : Badge) :
  (forall s b, f (mkPage s (Some badge)) = f (mkPage s b)) ->
  preserves f (setBadge badge).
Proof. intros H [s b]. apply H. Qed.

End Frame.

(** Walks through a handler: binds, branches and catches, down to the
    reads and writes. *)
Ltac frame :=
  repeat first
    [ progress intros
    | apply preserves_ret
    | apply preserves_throw
    | apply preserves_getStorage
    | apply preserves_getBadge
    | apply preserves_bind
    | apply preserves_try_catch
    | apply preserves_modifyStorage; reflexivity
    | apply preserves_setBadge; reflexivity
    | progress cbv zeta
    | match goal with
      | |- preserves _ (match ?x with _ => _ end) => destruct x
      end ].

Lemma handleCheckoutForm_keeps_voucher (form : Form) (now : Z) :
  preserves activeVoucher (Script.handleCheckoutForm form now).
Proof. frame. Qed.

Lemma event_keeps_voucher (encodeURI decodeURI : string -> option string)
  (e : Script.Event) :
  voucherEvent e = false ->
  preserves activeVoucher (Script.handle encodeURI decodeURI e).
Proof. destruct e; cbn; try discriminate; intros _; frame. Qed.

(** ** Checkout and the active voucher *)

Lemma handleCheckoutForm_placed (form : Form) (now : Z) (p : Page) (n : string) :
  result (Script.handleCheckoutForm form now) p = Ok (Some n) ->
  n = orderNumber now
  /\ localStorage (exec (Script.handleCheckoutForm form now) p)
     = set_cartItems None (localStorage p).
Proof.
  destruct p as [[ci av cu su pa pr] b].
  unfold result, exec, Script.handleCheckoutForm, Script.isLoggedIn,
    Script.calculateCartTotals, Script.getActiveVoucherCode,
    Script.updateCartCount, Script.getCartItems, getStorage, modifyStorage,
    getBadge, setBadge, mbind, M_bind, mret, M_ret, throw.
  cbn.
  destruct cu as [u|]; cbn; [|discriminate].
  destruct (isEmpty u); cbn; [discriminate|].
  destruct (Script.validateCheckoutForm form); cbn; [|discriminate].
  destruct ci as [[c| |raw]|]; cbn; try discriminate;
    destruct av as [v|]; cbn; try destruct (isEmpty v); cbn;
    destruct b; cbn; intros [= <-]; split; reflexivity.
Qed.

Lemma removeVoucherClick_clears (p : Page) :
  activeVoucher (exec Script.removeVoucherClick p) = None.
Proof.
  destruct p as [[ci av cu su pa pr] b].
  unfold exec, Script.removeVoucherClick, Script.clearActiveVoucher,
    Script.renderCart, Script.calculateCartTotals,
    Script.getActiveVoucherCode, Script.getCartItems, getStorage,
    modifyStorage, mbind, M_bind, mret, M_ret, throw.
  cbn. destruct ci as [[[|item c]| |raw]|]; reflexivity.
Qed.

Lemma doLogout_clears (p : Page) :
  activeVoucher (exec Script.doLogout p) = None
  /\ storedCart (exec Script.doLogout p) = Some [].
Proof.
  destruct p as [[ci av cu su pa pr] b].
  unfold exec, Script.doLogout, try_catch, mbind, M_bind.
  cbn. rewrite saveCart_run. cbn.
  destruct b; split; reflexivity.
Qed.

(** C9: a placed order clears the stored cart and leaves every other key
    of the storage, the active voucher code among them, as it was; no
    outcome of the submit handler changes the code, and no later event
    does except applying another code, the voucher Remove button and
    logout, the last two of which clear it. *)
Theorem C9_checkout_keeps_voucher
  (encodeURI decodeURI : string -> option string)
  (form : Form) (now : Z) (p : Page) :
  activeVoucher (exec (Script.handleCheckoutForm form now) p) = activeVoucher p
  /\ (forall n,
        result (Script.handleCheckoutForm form now) p = Ok (Some n) ->
        n = orderNumber now
        /\ localStorage (exec (Script.handleCheckoutForm form now) p)
           = set_cartItems None (localStorage p))
  /\ (forall e q,
        voucherEvent e = false ->
        activeVoucher (exec (Script.handle encodeURI decodeURI e) q)
        = activeVoucher q)
  /\ (forall q, activeVoucher (exec Script.removeVoucherClick q) = None)
  /\ (forall q, activeVoucher (exec Script.doLogout q) = None).
Proof.
  split; [apply handleCheckoutForm_keeps_voucher|].
  split; [intros n; apply handleCheckoutForm_placed|].
  split; [intros e q He; by apply event_keeps_voucher|].
  split; [apply removeVoucherClick_clears|].
  intros q. apply doLogout_clears.
Qed.

Lemma C9_checkout_keeps_voucher_witness :
  localStorage
    (exec (Script.handleCheckoutForm
             (mkForm "Ana Cruz" "ana@example.com" "09170000000"
                "1 Rizal St" "Manila" (Some "cod"))
             1730575012345)
       (mkPage
          (mkStorage (Some (Stringified [mkItem "A" "Pen" 100 "pen.png" 2]))
             (Some "BULK10") (Some "ana") None None None)
          None))
  = mkStorage None (Some "BULK10") (Some "ana") None None None.
Proof.
  refine (proj2 (proj1 (proj2 (C9_checkout_keeps_voucher Some Some _ _ _))
                   "OS012345" _)).
  vm_compute. reflexivity.
Defined.

(** ** Applying a voucher *)

Lemma renderCart_reads (p : Page) : exec Script.renderCart p = p.
Proof.
  destruct p as [[ci av cu su pa pr] b].
  unfold exec, Script.renderCart, Script.calculateCartTotals,
    Script.getActiveVoucherCode, Script.getCartItems, getStorage,
    mbind, M_bind, mret, M_ret, throw.
  cbn. destruct ci as [[[|item c]| |raw]|]; cbn; try reflexivity;
    destruct av as [v|]; cbn; try destruct (isEmpty v); reflexivity.
Qed.

Lemma discount_positive_iff (cart : Cart) (c : string) (v : Script.Voucher) :
  Script.getVoucherByCode c = Some v ->
  Qle_bool (Script.calculateVoucherDiscount cart c) 0
  = Qltb (reduceSubtotal cart) (Script.minSpend v).
Proof.
  intros Hv.
  unfold Script.calculateVoucherDiscount. rewrite Hv.
  pose proof (minSpend_positive _ _ Hv) as Hpos.
  destruct (Qle_bool (reduceSubtotal cart) 0) eqn:Hle.
  - apply Qle_bool_iff in Hle. symmetry. apply Qltb_lt. lra.
  - assert (Hs : (0 < reduceSubtotal cart)%Q).
    { apply Qnot_le_lt. intros H. apply Qle_bool_iff in H. congruence. }
    assert (Hnz : Qeq_bool (Script.minSpend v) 0 = false).
    { apply not_true_iff_false. rewrite Qeq_bool_iff. lra. }
    rewrite Hnz. cbn [negb andb].
    destruct (Qltb (reduceSubtotal cart) (Script.minSpend v)) eqn:Hm;
      [reflexivity|].
    apply not_true_iff_false. rewrite Qle_bool_iff.
    destruct (getVoucherByCode_Some _ _ Hv) as [-> | ->]; cbn [Script.type
      Script.OFFI2025 Script.BULK10].
    + destruct (Q.min_dec 100 (reduceSubtotal cart)) as [E|E]; rewrite E; lra.
    + assert (E : (10 / 100 == 1 # 10)%Q) by reflexivity. rewrite E. lra.
Qed.

Lemma getVoucherByCode_nonempty (c : string) (v : Script.Voucher) :
  Script.getVoucherByCode c = Some v -> isEmpty c = false.
Proof.
  unfold Script.getVoucherByCode. destruct (isEmpty c); [discriminate | done].
Qed.

Lemma getVoucherByCode_normalised (c : string) :
  Script.getVoucherByCode (toUpperCase (trim c))
  = Script.getVoucherByCode c.
Proof.
  rewrite (getVoucherByCode_lookup c),
    (getVoucherByCode_lookup (toUpperCase (trim c))).
  cbv zeta. rewrite trim_toUpperCase, trim_idemp, toUpperCase_idemp.
  reflexivity.
Qed.

Lemma applyVoucherClick_exec (cart : Cart) (input : string) (p : Page) :
  exec (Script.applyVoucherClick cart input) p =
    match Script.getVoucherByCode input with
    | Some voucher =>
        if Qltb (reduceSubtotal cart) (Script.minSpend voucher) then p
        else mkPage (set_os_active_voucher (Some (toUpperCase (trim input)))
                       (localStorage p))
               (cart_count p)
    | None => p
    end.
Proof.
  unfold Script.applyVoucherClick.
  rewrite getVoucherByCode_normalised.
  destruct (isEmpty (toUpperCase (trim input))) eqn:Hempty.
  - destruct (Script.getVoucherByCode input) as [v|] eqn:Hv; [|reflexivity].
    rewrite <- getVoucherByCode_normalised in Hv.
    apply getVoucherByCode_nonempty in Hv. congruence.
  - destruct (Script.getVoucherByCode input) as [v|] eqn:Hv; [|reflexivity].
    rewrite <- getVoucherByCode_normalised in Hv.
    rewrite (discount_positive_iff cart _ v Hv).
    destruct (Qltb (reduceSubtotal cart) (Script.minSpend v));
      [reflexivity|].
    unfold exec, mbind, M_bind, Script.setActiveVoucherCode.
    rewrite Hempty. cbn [negb]. unfold modifyStorage at 1.
    apply renderCart_reads.
Qed.

Lemma applyVoucherClick_page (cart : Cart) (input : string) (p : Page) :
  exec (Script.applyVoucherClick cart input) p =
    match Script.getVoucherByCode input with
    | Some v =>
        if qualifies v (Some cart) then withVoucher (Script.code v) p else p
    | None => p
    end.
Proof.
  rewrite applyVoucherClick_exec.
  destruct (Script.getVoucherByCode input) as [v|] eqn:Hv; [|reflexivity].
  rewrite (getVoucherByCode_code _ _ Hv). cbn [qualifies].
  by destruct (Qltb _ _).
Qed.

(** The handler does the same on the text of the field and on the code
    that a render has written into the field in its place. *)
Lemma applyVoucherClick_field (cart : Cart) (input : string) :
  Script.applyVoucherClick cart (toUpperCase (trim input))
  = Script.applyVoucherClick cart input.
Proof.
  unfold Script.applyVoucherClick.
  assert (E : toUpperCase (trim (toUpperCase (trim input)))
              = toUpperCase (trim input))
    by (by rewrite trim_toUpperCase, trim_idemp, toUpperCase_idemp).
  by rewrite E.
Qed.

Lemma withVoucher_twice (c : string) (p : Page) :
  withVoucher c (withVoucher c p) = withVoucher c p.
Proof. reflexivity. Qed.

Lemma exec_try_then (m k : M unit) (p : Page) :
  exec (try_catch m (mret tt);; k) p = exec k (exec m p).
Proof.
  unfold exec, mbind, M_bind, try_catch.
  destruct (m p) as [[[]|e] p']; reflexivity.
Qed.

(** The two handlers of one click: the code is stored when it resolves
    and the cart of either handler reaches the minimum spend. *)
Lemma applyVoucherButton_exec (listener onclick : option Cart)
  (input : string) (p : Page) :
  exec (Script.applyVoucherButton listener onclick input) p =
    match Script.getVoucherByCode input with
    | Some v =>
        if qualifies v onclick || qualifies v listener
        then withVoucher (Script.code v) p
        else p
    | None => p
    end.
Proof.
  unfold Script.applyVoucherButton. rewrite exec_try_then.
  assert (Hone : forall (held : option Cart) (q : Page),
    exec match held with
         | Some cart => Script.applyVoucherClick cart input
         | None => mret tt
         end q
    = match Script.getVoucherByCode input with
      | Some v => if qualifies v held then withVoucher (Script.code v) q else q
      | None => q
      end).
  { intros [cart|] q; [apply applyVoucherClick_page|].
    by destruct (Script.getVoucherByCode input). }
  rewrite !Hone.
  destruct (Script.getVoucherByCode input) as [v|]; [|reflexivity].
  destruct (qualifies v onclick), (qualifies v listener); reflexivity.
Qed.

(** ** Invariants on the items of the cart *)

Lemma parseQuantity_nonzero (value : string) : Script.parseQuantity value <> 0.
Proof.
  unfold Script.parseQuantity.
  destruct (parseInt value (Some 10)) as [[|n|n]|]; lia.
Qed.

Section Invariant.

(** An invariant on items that holds at least the quantity invariant and
    that quantity and image assignments keep. *)
Variable good : CartItem -> Prop.
Hypothesis good_quantity : forall item, good item -> 1 <= quantity item.
Hypothesis good_withQuantity :
  forall item q, good item -> 1 <= q -> good (withQuantity q item).
Hypothesis good_withImage :
  forall item img, good item -> good (withImage img item).

Variables encodeURI decodeURI : string -> option string.

Local Abbreviation top := (fun _ => True).
Local Abbreviation maintains := (maintains good).

Lemma maintains_ret {A} (G : A -> Prop) (a : A) : G a -> maintains G (mret a).
Proof. intros Ha p Hp. split; [exact Hp|]. intros a' [= <-]. exact Ha. Qed.

Lemma maintains_throw {A} (G : A -> Prop) (e : Exn) : maintains G (throw e).
Proof. intros p Hp. split; [exact Hp|]. intros a' [=]. Qed.

Lemma maintains_bind {A B} (G : A -> Prop) (H : B -> Prop)
  (m : M A) (k : A -> M B) :
  maintains G m -> (forall a, G a -> maintains H (k a)) ->
  maintains H (m ≫= k).
Proof.
  intros Hm Hk p Hp. destruct (Hm p Hp) as [Hs Ha].
  unfold exec, result, mbind, M_bind in *.
  destruct (m p) as [[a|e] p']; cbn in *.
  - apply (Hk a (Ha a eq_refl) p' Hs).
  - split; [exact Hs|]. intros b [=].
Qed.

Lemma maintains_then {A B} (G : A -> Prop) (H : B -> Prop)
  (m : M A) (m' : M B) :
  maintains G m -> maintains H m' -> maintains H (m;; m').
Proof.
  intros Hm Hm'. eapply maintains_bind; [exact Hm | intros _ _; exact Hm'].
Qed.

Lemma maintains_try_catch {A} (G : A -> Prop) (m h : M A) :
  maintains G m -> maintains G h -> maintains G (try_catch m h).
Proof.
  intros Hm Hh p Hp. destruct (Hm p Hp) as [Hs Ha].
  unfold exec, result, try_catch in *.
  destruct (m p) as [[a|e] p']; cbn in *.
  - split; [exact Hs | exact Ha].
  - apply (Hh p' Hs).
Qed.

Lemma maintains_getStorage : maintains (storageOK good) getStorage.
Proof. intros p Hp. split; [exact Hp|]. intros s [= <-]. exact Hp. Qed.

Lemma maintains_getBadge : maintains top getBadge.
Proof. intros p Hp. split; [exact Hp | done]. Qed.

Lemma maintains_setBadge (b : Badge) : maintains top (setBadge b).
Proof. intros p Hp. split; [exact Hp | done]. Qed.

Lemma maintains_modifyStorage (g : Storage -> Storage) :
  (forall s, storageOK good s -> storageOK good (g s)) ->
  maintains top (modifyStorage g).
Proof. intros Hg p Hp. split; [apply Hg, Hp | done]. Qed.

(** *** Reading and saving *)

Lemma maintains_getCartItems : maintains (Forall good) Script.getCartItems.
Proof.
  intros p [Hc Hpend]. unfold exec, result. rewrite getCartItems_run.
  unfold storedCart.
  destruct (cartItems (localStorage p)) as [[c| |raw]|] eqn:E; cbn in *;
    (split; [unfold storageOK; rewrite E; done|]); intros a [= <-];
    first [exact Hc | constructor].
Qed.

Lemma maintains_updateCartCount : maintains top Script.updateCartCount.
Proof.
  unfold Script.updateCartCount.
  eapply maintains_bind; [apply maintains_getCartItems|]. intros cart _.
  eapply maintains_bind; [apply maintains_getBadge|]. intros [b|] _.
  - apply maintains_setBadge.
  - by apply maintains_ret.
Qed.

Lemma maintains_saveCart (cart : Cart) :
  Forall good cart -> maintains top (Script.saveCart cart).
Proof.
  intros Hcart. unfold Script.saveCart.
  eapply maintains_bind; [|intros _ _; apply maintains_updateCartCount].
  apply maintains_modifyStorage. intros s [_ Hpend]. split; assumption.
Qed.

Lemma maintains_clearCart :
  maintains top (modifyStorage (set_cartItems None)).
Proof.
  apply maintains_modifyStorage. intros s [_ Hpend].
  split; [exact I | exact Hpend].
Qed.

Lemma maintains_calculateCartTotals (cart : Cart) :
  maintains top (Script.calculateCartTotals cart).
Proof.
  unfold Script.calculateCartTotals, Script.getActiveVoucherCode.
  eapply maintains_bind; [|intros a _; by apply maintains_ret].
  eapply maintains_bind; [apply maintains_getStorage|]. intros s _.
  destruct (os_active_voucher s) as [c|]; [destruct (isEmpty c)|];
    by apply (maintains_ret top).
Qed.

Lemma maintains_isLoggedIn : maintains top Script.isLoggedIn.
Proof.
  unfold Script.isLoggedIn.
  eapply maintains_bind; [apply maintains_getStorage|]. intros s _.
  destruct (os_current_user s); by apply maintains_ret.
Qed.

(** *** The array operations keep the items good *)

Lemma good_updateFound (key : string) (q : Z) (cart : Cart) :
  1 <= q -> Forall good cart ->
  Forall good (updateFound key (withQuantity q) cart).
Proof.
  intros Hq. induction 1 as [|item rest Hitem Hrest IH]; cbn; [constructor|].
  destruct (String.eqb (id item) key); constructor; try assumption.
  by apply good_withQuantity.
Qed.

Lemma good_increment (key : string) (q : Z) (cart : Cart) :
  1 <= q -> Forall good cart ->
  Forall good (updateFound key (fun e => withQuantity (quantity e + q) e) cart).
Proof.
  intros Hq. induction 1 as [|item rest Hitem Hrest IH]; cbn; [constructor|].
  destruct (String.eqb (id item) key); constructor; try assumption.
  apply good_withQuantity; [exact Hitem|].
  pose proof (good_quantity _ Hitem). lia.
Qed.

Lemma good_filterOut (key : string) (cart : Cart) :
  Forall good cart -> Forall good (filterOut key cart).
Proof.
  induction 1 as [|item rest Hitem Hrest IH]; cbn; [constructor|].
  destruct (negb (String.eqb (id item) key)); [constructor|]; assumption.
Qed.

Lemma good_push (item : CartItem) (cart : Cart) :
  good item -> Forall good cart -> Forall good (cart ++ [item]).
Proof.
  intros Hitem Hcart. apply Forall_app. split; [exact Hcart|].
  constructor; [exact Hitem | constructor].
Qed.

Lemma good_normalizeImage (item : CartItem) :
  good item -> good (Script.normalizeImage encodeURI decodeURI item).
Proof.
  intros Hitem. unfold Script.normalizeImage.
  destruct (negb _); [by apply good_withImage | exact Hitem].
Qed.

Lemma good_incrementOrPush1 (item : CartItem) (cart : Cart) :
  good item -> Forall good cart ->
  Forall good (Script1.incrementOrPush item cart).
Proof.
  intros Hitem Hcart. unfold Script1.incrementOrPush.
  destruct (findById (id item) cart).
  - apply good_increment; [by apply good_quantity | exact Hcart].
  - by apply good_push.
Qed.

Lemma good_incrementOrPush (item : CartItem) (cart : Cart) :
  good item -> Forall good cart ->
  Forall good (Script.incrementOrPush encodeURI decodeURI item cart).
Proof.
  intros Hitem Hcart. unfold Script.incrementOrPush.
  destruct (findById (id item) cart).
  - apply good_increment; [by apply good_quantity | exact Hcart].
  - apply good_push; [by apply good_normalizeImage | exact Hcart].
Qed.

Lemma good_migrated (cart : Cart) :
  Forall good cart ->
  Forall good (map (Script.normalizeImage encodeURI decodeURI) cart).
Proof.
  induction 1 as [|item rest Hitem Hrest IH]; cbn; constructor;
    [by apply good_normalizeImage | exact IH].
Qed.

(** *** The operations on the stored cart *)

Lemma maintains_updateQuantity (key : string) (q : Z) :
  1 <= q -> maintains top (Script.updateQuantity key q).
Proof.
  intros Hq. unfold Script.updateQuantity.
  eapply maintains_bind; [apply maintains_getCartItems|]. intros cart Hcart.
  by apply maintains_saveCart, good_updateFound.
Qed.

Lemma maintains_removeItem (key : string) :
  maintains top (Script.removeItem key).
Proof.
  unfold Script.removeItem.
  eapply maintains_bind; [apply maintains_getCartItems|]. intros cart Hcart.
  by apply maintains_saveCart, good_filterOut.
Qed.

Lemma maintains_renderCart : maintains top Script.renderCart.
Proof.
  unfold Script.renderCart.
  eapply maintains_bind; [apply maintains_getCartItems|]. intros cart _.
  destruct cart; [by apply maintains_ret|].
  eapply maintains_bind; [apply maintains_calculateCartTotals|]. intros t _.
  by apply maintains_ret.
Qed.

Lemma maintains_addItemToCart1 (item : CartItem) :
  good item -> maintains top (Script1.addItemToCart item).
Proof.
  intros Hitem. unfold Script1.addItemToCart.
  eapply maintains_bind; [apply maintains_getCartItems|]. intros cart Hcart.
  by apply maintains_saveCart, good_incrementOrPush1.
Qed.

Lemma maintains_addItemToCart (item : CartItem) :
  good item -> maintains top (Script.addItemToCart encodeURI decodeURI item).
Proof.
  intros Hitem. unfold Script.addItemToCart.
  eapply maintains_bind; [apply maintains_getCartItems|]. intros cart Hcart.
  by apply maintains_saveCart, good_incrementOrPush.
Qed.

Lemma maintains_removeItem1 (key : string) :
  maintains top (Script1.removeItem key).
Proof.
  unfold Script1.removeItem, Script1.renderCart.
  eapply maintains_bind; [apply maintains_getCartItems|]. intros cart Hcart.
  eapply maintains_then; [by apply maintains_saveCart, good_filterOut|].
  eapply maintains_bind; [apply maintains_getCartItems|]. intros c _.
  by apply maintains_ret.
Qed.

Lemma maintains_migrateStoredImages :
  maintains top (Script.migrateStoredImages encodeURI decodeURI).
Proof.
  unfold Script.migrateStoredImages.
  eapply maintains_bind; [apply maintains_getCartItems|]. intros cart Hcart.
  cbv zeta. destruct (existsb _ cart).
  - by apply maintains_saveCart, good_migrated.
  - by apply maintains_ret.
Qed.

Lemma maintains_replayPendingAdd :
  maintains top (Script.replayPendingAdd encodeURI decodeURI).
Proof.
  unfold Script.replayPendingAdd.
  apply maintains_try_catch; [|by apply maintains_ret].
  eapply maintains_bind; [apply maintains_getStorage|]. intros s [_ Hpend].
  eapply maintains_bind; [apply maintains_isLoggedIn|]. intros loggedIn _.
  destruct (os_pending_add s) as [[pending|raw]|]; cbn in Hpend;
    destruct (negb loggedIn); try (by apply maintains_ret);
    [|apply maintains_throw].
  destruct (negb (isEmpty (id pending))); [|by apply maintains_ret].
  eapply maintains_then; [by apply maintains_addItemToCart|].
  apply maintains_modifyStorage. intros s' [Hc _]. split; [exact Hc | exact I].
Qed.

Lemma maintains_handleCheckoutForm (form : Form) (now : Z) :
  maintains top (Script.handleCheckoutForm form now).
Proof.
  unfold Script.handleCheckoutForm.
  eapply maintains_bind; [apply maintains_isLoggedIn|]. intros loggedIn _.
  destruct (negb loggedIn); [by apply maintains_ret|].
  destruct (negb (Script.validateCheckoutForm form));
    [by apply maintains_ret|].
  eapply maintains_bind; [apply maintains_getCartItems|]. intros cart _.
  eapply maintains_bind; [apply maintains_calculateCartTotals|]. intros t _.
  eapply maintains_then; [apply maintains_clearCart|].
  eapply maintains_then; [apply maintains_updateCartCount|].
  by apply maintains_ret.
Qed.

Lemma maintains_applyVoucherClick (cart : Cart) (input : string) :
  maintains top (Script.applyVoucherClick cart input).
Proof.
  unfold Script.applyVoucherClick. cbv zeta.
  destruct (isEmpty _); [by apply maintains_ret|].
  destruct (Script.getVoucherByCode _); [|by apply maintains_ret].
  destruct (Qle_bool _ 0); [by apply maintains_ret|].
  eapply maintains_then; [|apply maintains_renderCart].
  unfold Script.setActiveVoucherCode.
  destruct (negb _); apply maintains_modifyStorage; by intros s [].
Qed.

Lemma maintains_applyVoucherButton (listener onclick : option Cart)
  (input : string) :
  maintains top (Script.applyVoucherButton listener onclick input).
Proof.
  unfold Script.applyVoucherButton.
  apply maintains_then with (G := top).
  - apply maintains_try_catch; [|by apply maintains_ret].
    destruct listener; [apply maintains_applyVoucherClick|].
    by apply maintains_ret.
  - destruct onclick; [apply maintains_applyVoucherClick|].
    by apply maintains_ret.
Qed.

Lemma maintains_doLogout : maintains top Script.doLogout.
Proof.
  unfold Script.doLogout.
  apply maintains_then with (G := top);
    [|apply maintains_try_catch;
      [apply maintains_updateCartCount | by apply maintains_ret]].
  apply maintains_try_catch; [|by apply maintains_ret].
  eapply maintains_then; [apply maintains_modifyStorage; by intros s []|].
  eapply maintains_then; [apply maintains_modifyStorage; by intros s []|].
  eapply maintains_then;
    [apply maintains_try_catch;
      [apply maintains_saveCart; constructor | apply maintains_clearCart]|].
  apply maintains_modifyStorage. by intros s [].
Qed.

(** *** The events *)

Lemma maintains_handle1 (e : Script1.Event) :
  allowed1By good e -> maintains top (Script1.handle e).
Proof.
  destruct e as [card|key value|key|form now]; cbn; intros Hallowed.
  - by apply maintains_addItemToCart1.
  - unfold Script1.quantityChange.
    destruct (parseInt value None) as [n|]; [|apply maintains_removeItem1].
    destruct (0 <? n) eqn:E; [|apply maintains_removeItem1].
    apply Z.ltb_lt in E. apply (maintains_updateQuantity key n). lia.
  - apply maintains_removeItem1.
  - unfold Script1.handleCheckoutForm.
    eapply maintains_bind with (G := top); [|intros; by apply maintains_ret].
    destruct (negb (Script1.validateCheckoutForm form));
      [by apply maintains_ret|].
    eapply maintains_bind; [apply maintains_getCartItems|]. intros cart _.
    eapply maintains_then; [apply maintains_clearCart|].
    eapply maintains_then; [apply maintains_updateCartCount|].
    by apply maintains_ret.
Qed.

Lemma maintains_handle (e : Script.Event) :
  allowedBy good e -> maintains top (Script.handle encodeURI decodeURI e).
Proof.
  destruct e as [|user|card href|key value|key|listener onclick input|
                 |key value|key|form now|]; cbn; intros Hallowed.
  - unfold Script.pageLoad.
    eapply maintains_then; [apply maintains_updateCartCount|].
    apply maintains_then with (G := top);
      [apply maintains_try_catch;
        [apply maintains_migrateStoredImages | by apply maintains_ret]|].
    apply maintains_replayPendingAdd.
  - apply maintains_modifyStorage. by intros s [].
  - unfold Script.addToCartClick.
    eapply maintains_bind; [apply maintains_isLoggedIn|]. intros loggedIn _.
    destruct (negb loggedIn); [|by apply maintains_addItemToCart].
    eapply maintains_then.
    + apply maintains_modifyStorage. intros s [Hc _].
      split; [exact Hc | exact Hallowed].
    + apply maintains_modifyStorage. by intros s [].
  - unfold Script.cartQuantityChange. cbv zeta.
    eapply maintains_then; [|apply maintains_renderCart].
    apply maintains_updateQuantity.
    pose proof (parseQuantity_nonzero value). lia.
  - unfold Script.cartRemoveClick.
    eapply maintains_then; [apply maintains_removeItem|].
    apply maintains_renderCart.
  - apply maintains_applyVoucherButton.
  - unfold Script.removeVoucherClick, Script.clearActiveVoucher.
    eapply maintains_then; [|apply maintains_renderCart].
    apply maintains_modifyStorage. by intros s [].
  - unfold Script.checkoutQuantityChange. cbv zeta.
    eapply maintains_then.
    + apply maintains_updateQuantity.
      destruct (Script.parseQuantity value <? 1) eqn:E; [lia|].
      apply Z.ltb_ge in E. exact E.
    + eapply maintains_bind; [apply maintains_getCartItems|]. intros cart _.
      eapply maintains_bind; [apply maintains_calculateCartTotals|].
      intros t _. by apply maintains_ret.
  - unfold Script.checkoutRemoveClick, Script.renderOrderSummary.
    eapply maintains_then; [apply maintains_removeItem|].
    apply maintains_then with (G := top); [|apply maintains_updateCartCount].
    eapply maintains_bind; [apply maintains_getCartItems|]. intros cart _.
    destruct cart; [by apply maintains_ret|].
    eapply maintains_bind; [apply maintains_calculateCartTotals|].
    intros t _. by apply maintains_ret.
  - eapply maintains_bind; [apply maintains_handleCheckoutForm|].
    intros r _. by apply maintains_ret.
  - apply maintains_doLogout.
Qed.

Lemma storageOK_storedCart (p : Page) :
  storageOK good (localStorage p) ->
  exists cart, storedCart p = Some cart /\ Forall good cart.
Proof.
  intros [Hc _]. unfold storedCart.
  destruct (cartItems (localStorage p)) as [[c| |raw]|]; cbn in *;
    try contradiction; eexists; (split; [reflexivity|]);
    first [exact Hc | constructor].
Qed.

Lemma reachable1_storageOK (p : Page) :
  (forall e, allowed1By good e) ->
  Script1.reachable p -> storageOK good (localStorage p).
Proof.
  intros Hall. induction 1 as [badge|p e Hreach IH].
  - split; exact I.
  - apply (maintains_handle1 e (Hall e) p IH).
Qed.

Lemma reachableBy_storageOK (p : Page) :
  Script.reachableBy encodeURI decodeURI (allowedBy good) p ->
  storageOK good (localStorage p).
Proof.
  induction 1 as [badge|p e Hallowed Hreach IH].
  - split; exact I.
  - apply (maintains_handle e Hallowed p IH).
Qed.

End Invariant.

Lemma reachableBy_mono (encodeURI decodeURI : string -> option string)
  (allowed allowed' : Script.Event -> Prop) (p : Page) :
  (forall e, allowed e -> allowed' e) ->
  Script.reachableBy encodeURI decodeURI allowed p ->
  Script.reachableBy encodeURI decodeURI allowed' p.
Proof.
  intros Hsub. induction 1 as [badge|p e He Hreach IH]; constructor; auto.
Qed.

(** The quantity invariant of script1.js. *)
Lemma reachable1_positive (p : Page) :
  Script1.reachable p ->
  exists cart, storedCart p = Some cart /\ quantitiesPositive cart.
Proof.
  intros Hreach. apply storageOK_storedCart.
  apply reachable1_storageOK; [..|exact Hreach].
  - intros item Hitem. exact Hitem.
  - unfold positiveQuantity. intros item q _ Hq. exact Hq.
  - intros [card| | |]; cbn; unfold positiveQuantity; cbn; done.
Qed.

(** The quantity invariant of the later script, for cart-page values that
    do not parse to a negative number. *)
Lemma reachableBy_positive (encodeURI decodeURI : string -> option string)
  (p : Page) :
  Script.reachableBy encodeURI decodeURI nonNegativeCartInput p ->
  exists cart, storedCart p = Some cart /\ quantitiesPositive cart.
Proof.
  intros Hreach. apply storageOK_storedCart.
  apply (reachableBy_storageOK positiveQuantity) with encodeURI decodeURI.
  - intros item Hitem. exact Hitem.
  - unfold positiveQuantity. intros item q _ Hq. exact Hq.
  - intros item img Hitem. exact Hitem.
  - revert Hreach. apply reachableBy_mono.
    intros e He. destruct e; cbn in *; try exact He.
    unfold positiveQuantity. cbn. lia.
Qed.

(** With prices that are not negative as well, every reachable cart is a
    cart of sellable items. *)
Lemma reachableBy_sellable (encodeURI decodeURI : string -> option string)
  (p : Page) :
  Script.reachableBy encodeURI decodeURI intendedInput p ->
  exists cart, storedCart p = Some cart /\ Forall sellable cart.
Proof.
  intros Hreach. apply storageOK_storedCart.
  apply (reachableBy_storageOK sellable) with encodeURI decodeURI.
  - intros item [Hq _]. exact Hq.
  - intros item q [_ Hprice] Hq. split; [exact Hq | exact Hprice].
  - intros item img Hitem. exact Hitem.
  - revert Hreach. apply reachableBy_mono.
    intros e He. destruct e; cbn in *; try exact He.
    split; [cbn; lia | exact He].
Qed.

Lemma sellable_subtotal (cart : Cart) :
  Forall sellable cart -> (0 <= reduceSubtotal cart)%Q.
Proof.
  intros Hcart. rewrite reduceSubtotal_sum.
  induction Hcart as [|item rest [Hq Hprice] Hrest IH]; cbn; [lra|].
  assert (Hline : (0 <= price item * inject_Z (quantity item))%Q).
  { apply Qmult_le_0_compat; [exact Hprice|].
    change 0%Q with (inject_Z 0). rewrite <- Zle_Qle. lia. }
  lra.
Qed.

(** ** Quantity controls *)

Lemma removeItem1_run (key : string) (p : Page) (cart : Cart) :
  storedCart p = Some cart ->
  exec (Script1.removeItem key) p = savedPage (filterOut key cart) p.
Proof.
  intros Hcart.
  unfold exec, Script1.removeItem, Script1.renderCart, mbind, M_bind.
  rewrite <- getCartItems_same, <- saveCart_same.
  rewrite (getCartItems_ok p cart Hcart), saveCart_run.
  rewrite (getCartItems_ok _ _ (storedCart_savedPage _ _)). reflexivity.
Qed.

Lemma updateQuantity_run (key : string) (q : Z) (p : Page) (cart : Cart) :
  storedCart p = Some cart ->
  Script.updateQuantity key q p
  = (Ok tt, savedPage (updateFound key (withQuantity q) cart) p).
Proof.
  intros Hcart. unfold Script.updateQuantity, mbind, M_bind.
  rewrite (getCartItems_ok p cart Hcart). apply saveCart_run.
Qed.

Lemma removeItem_run (key : string) (p : Page) (cart : Cart) :
  storedCart p = Some cart ->
  Script.removeItem key p = (Ok tt, savedPage (filterOut key cart) p).
Proof.
  intros Hcart. unfold Script.removeItem, mbind, M_bind.
  rewrite (getCartItems_ok p cart Hcart). apply saveCart_run.
Qed.

Lemma cartQuantityChange_run (key value : string) (p : Page) (cart : Cart) :
  storedCart p = Some cart ->
  exec (Script.cartQuantityChange key value) p
  = savedPage
      (updateFound key (withQuantity (Script.parseQuantity value)) cart) p.
Proof.
  intros Hcart. unfold exec, Script.cartQuantityChange, mbind, M_bind.
  rewrite (updateQuantity_run _ _ _ _ Hcart). apply renderCart_reads.
Qed.

Lemma cartRemoveClick_run (key : string) (p : Page) (cart : Cart) :
  storedCart p = Some cart ->
  exec (Script.cartRemoveClick key) p = savedPage (filterOut key cart) p.
Proof.
  intros Hcart. unfold exec, Script.cartRemoveClick, mbind, M_bind.
  rewrite (removeItem_run _ _ _ Hcart). apply renderCart_reads.
Qed.

Lemma calculateCartTotals_reads (cart : Cart) (p : Page) :
  exec (Script.calculateCartTotals cart) p = p.
Proof.
  unfold exec, Script.calculateCartTotals, mbind, M_bind.
  destruct (getActiveVoucherCode_reads p) as [c ->]. reflexivity.
Qed.

Lemma checkoutQuantityChange_run (key value : string) (p : Page) (cart : Cart) :
  storedCart p = Some cart ->
  exec (Script.checkoutQuantityChange key value) p
  = savedPage
      (updateFound key
         (withQuantity
            (if Script.parseQuantity value <? 1 then 1
             else Script.parseQuantity value)) cart) p.
Proof.
  intros Hcart. unfold exec, Script.checkoutQuantityChange. cbv zeta.
  unfold mbind at 1, M_bind at 1.
  rewrite (updateQuantity_run _ _ _ _ Hcart).
  unfold mbind at 1, M_bind at 1.
  rewrite (getCartItems_ok _ _ (storedCart_savedPage _ _)).
  unfold mbind, M_bind.
  pose proof (calculateCartTotals_reads
    (updateFound key
       (withQuantity
          (if Script.parseQuantity value <? 1 then 1
           else Script.parseQuantity value)) cart)
    (savedPage
       (updateFound key
          (withQuantity
             (if Script.parseQuantity value <? 1 then 1
              else Script.parseQuantity value)) cart) p)) as Hreads.
  unfold exec in Hreads.
  destruct (Script.calculateCartTotals _ _) as [[t|e] p']; exact Hreads.
Qed.

(** C5, counterexample: a signed-in user of the later script adds
    product A twice and types 0 into its quantity input on the cart page.
    The item stays, with quantity 1; the cart with that item removed is
    empty.  (The product has no image, so the URL functions of the
    browser are never called.) *)
Lemma C5_counterexample :
  let p :=
    Script.run Some Some
      [ Script.SignIn "ana";
        Script.AddToCart (mkCard "A" "Pen" 100 "") "catalog.html";
        Script.AddToCart (mkCard "A" "Pen" 100 "") "catalog.html" ]
      (mkPage emptyStorage None) in
  let after :=
    exec (Script.handle Some Some (Script.CartQuantityInput "A" "0")) p in
  storedCart p = Some [mkItem "A" "Pen" 100 "" 2]
  /\ parseInt "0" (Some 10) = Some 0
  /\ storedCart after = Some [mkItem "A" "Pen" 100 "" 1]
  /\ storedCart (exec (Script.handle Some Some (Script.CartRemove "A")) p)
     = Some []
  /\ storedCart after
     <> storedCart (exec (Script.handle Some Some (Script.CartRemove "A")) p).
Proof. cbv zeta. repeat split; try reflexivity. vm_compute. discriminate. Qed.

(** ** Bounds on the totals *)

Lemma calculateCartTotals_run (cart : Cart) (p : Page) :
  exists t,
    Script.calculateCartTotals cart p = (Ok t, p)
    /\ Script.subtotal t = reduceSubtotal cart.
Proof.
  unfold Script.calculateCartTotals, mbind, M_bind.
  destruct (getActiveVoucherCode_reads p) as [c ->]. cbn.
  eexists. split; reflexivity.
Qed.

Lemma total_nonnegative (cart : Cart) (p : Page) (t : Script.Totals) :
  result (Script.calculateCartTotals cart) p = Ok t -> (0 <= Script.total t)%Q.
Proof.
  unfold result, Script.calculateCartTotals, mbind, M_bind.
  destruct (getActiveVoucherCode_reads p) as [c ->]. cbn.
  intros [= <-]. cbn [Script.total].
  assert (H0 : (0 <= Qmax 0 (reduceSubtotal cart - Script.orZero
      match c with
      | Some c0 => Script.calculateVoucherDiscount cart c0
      | None => 0
      end))%Q) by apply Q.le_max_l.
  destruct (Qltb 0 (reduceSubtotal cart)); unfold SHIPPING_FEE; lra.
Qed.

Lemma discount_le_subtotal (cart : Cart) (c : string) :
  (0 <= reduceSubtotal cart)%Q ->
  (Script.calculateVoucherDiscount cart c <= reduceSubtotal cart)%Q.
Proof.
  intros Hs. unfold Script.calculateVoucherDiscount.
  destruct (Script.getVoucherByCode c) as [v|] eqn:Hv; [|exact Hs].
  destruct (Qle_bool (reduceSubtotal cart) 0); [exact Hs|].
  destruct (negb _ && _); [exact Hs|].
  destruct (getVoucherByCode_Some _ _ Hv) as [-> | ->];
    cbn [Script.type Script.OFFI2025 Script.BULK10].
  - apply Q.le_min_r.
  - assert (E : (10 / 100 == 1 # 10)%Q) by reflexivity. rewrite E. lra.
Qed.

Lemma run_reachable (encodeURI decodeURI : string -> option string)
  (allowed : Script.Event -> Prop) (events : list Script.Event) (p : Page) :
  Script.reachableBy encodeURI decodeURI allowed p ->
  Forall allowed events ->
  Script.reachableBy encodeURI decodeURI allowed
    (Script.run encodeURI decodeURI events p).
Proof.
  intros Hp Hall. revert p Hp.
  induction Hall as [|e rest He Hrest IH]; intros p Hp; cbn; [exact Hp|].
  apply IH. by constructor.
Qed.

(** C6: the total is never negative, and the discount does not exceed a
    subtotal that is not negative, as is the subtotal of every cart
    reached with prices that are not negative and cart-page quantity
    values that do not parse to a negative number; but a cart-page
    quantity of -5 is stored as it is, and in the page that results the
    subtotal is -500 and the discount, 0, exceeds it. *)
Theorem C6_totals_bounds (encodeURI decodeURI : string -> option string) :
  let p :=
    Script.run encodeURI decodeURI
      [ Script.SignIn "ana";
        Script.AddToCart (mkCard "A" "Pen" 100 "") "catalog.html";
        Script.CartQuantityInput "A" "-5" ]
      (mkPage emptyStorage None) in
  (forall cart q t,
     result (Script.calculateCartTotals cart) q = Ok t ->
     (0 <= Script.total t)%Q
     /\ ((0 <= Script.subtotal t)%Q ->
         (Script.discount t <= Script.subtotal t)%Q))
  /\ (forall q,
        Script.reachableBy encodeURI decodeURI intendedInput q ->
        exists cart t,
          storedCart q = Some cart
          /\ Script.calculateCartTotals cart q = (Ok t, q)
          /\ (0 <= Script.total t)%Q
          /\ (Script.discount t <= Script.subtotal t)%Q)
  /\ Script.reachable encodeURI decodeURI p
  /\ storedCart p = Some [mkItem "A" "Pen" 100 "" (-5)]
  /\ exists t,
       Script.calculateCartTotals [mkItem "A" "Pen" 100 "" (-5)] p = (Ok t, p)
       /\ (Script.subtotal t == -500)%Q
       /\ (Script.discount t == 0)%Q
       /\ ~ (Script.discount t <= Script.subtotal t)%Q
       /\ (0 <= Script.total t)%Q.
Proof.
  cbv zeta.
  assert (Hbounds : forall cart q t,
    result (Script.calculateCartTotals cart) q = Ok t ->
    (0 <= Script.total t)%Q
    /\ ((0 <= Script.subtotal t)%Q ->
        (Script.discount t <= Script.subtotal t)%Q)).
  { intros cart q t Ht. split; [exact (total_nonnegative _ _ _ Ht)|].
    revert Ht. unfold result, Script.calculateCartTotals, mbind, M_bind.
    destruct (getActiveVoucherCode_reads q) as [c ->]. cbn.
    intros [= <-]. cbn [Script.subtotal Script.discount]. intros Hs.
    destruct c as [c|]; [by apply discount_le_subtotal | exact Hs]. }
  split; [exact Hbounds|]. split; [|split; [|split]].
  - intros q Hreach.
    destruct (reachableBy_sellable _ _ _ Hreach) as (cart & Hcart & Hsell).
    destruct (calculateCartTotals_run cart q) as (t & Ht & Hsub).
    exists cart, t. split; [exact Hcart|]. split; [exact Ht|].
    assert (Hr : result (Script.calculateCartTotals cart) q = Ok t)
      by (unfold result; rewrite Ht; reflexivity).
    destruct (Hbounds cart q t Hr) as [Htotal Hdisc].
    split; [exact Htotal|]. apply Hdisc. rewrite Hsub.
    by apply sellable_subtotal.
  - apply run_reachable; [apply Script.reachable_fresh|].
    repeat constructor.
  - reflexivity.
  - eexists. split; [reflexivity|].
    cbn [Script.subtotal Script.discount Script.total].
    split; [reflexivity|]. split; [reflexivity|].
    split; [|by vm_compute].
    intros H. vm_compute in H. by apply H.
Qed.

Lemma C6_totals_bounds_witness :
  exists t,
    result (Script.calculateCartTotals [mkItem "A" "Desk" 2500 "desk.png" 1])
      (mkPage (set_os_active_voucher (Some "BULK10") emptyStorage) None)
    = Ok t
    /\ (0 <= Script.total t)%Q
    /\ (Script.discount t <= Script.subtotal t)%Q.
Proof.
  eexists. split; [reflexivity|].
  destruct (proj1 (C6_totals_bounds Some Some)
              [mkItem "A" "Desk" 2500 "desk.png" 1]
              (mkPage (set_os_active_voucher (Some "BULK10") emptyStorage) None)
              _ eq_refl)
    as [Htotal Hdisc].
  split; [exact Htotal|]. apply Hdisc. by vm_compute.
Defined.

(** * Further properties of the scripts *)

(** ** escapeHtml *)

Section EscapeHtml.

Lemma includesChar_app (c : ascii) (a b : string) :
  includesChar c (a +:+ b) = includesChar c a || includesChar c b.
Proof.
  induction a as [|d a IH]; [reflexivity|].
  change (Ascii.eqb c d || includesChar c (a +:+ b)
          = Ascii.eqb c d || includesChar c a || includesChar c b).
  rewrite IH. apply orb_assoc.
Qed.

Lemma escapeChar_markup_free (c : ascii) :
  includesChar "<" (Script.escapeChar c) = false
  /\ includesChar ">" (Script.escapeChar c) = false
  /\ includesChar "034" (Script.escapeChar c) = false
  /\ includesChar "'" (Script.escapeChar c) = false.
Proof. destruct c as [[] [] [] [] [] [] [] []]; vm_compute; done. Qed.

Lemma unescapeHtml_escapeChar (c : ascii) (rest : string) :
  unescapeHtml (Script.escapeChar c +:+ rest) = String c (unescapeHtml rest).
Proof. destruct c as [[] [] [] [] [] [] [] []]; reflexivity. Qed.

Lemma unescapeHtml_escapeHtml (s : string) :
  unescapeHtml (Script.escapeHtml s) = s.
Proof.
  induction s as [|c r IH]; [reflexivity|].
  cbn [Script.escapeHtml]. rewrite unescapeHtml_escapeChar, IH. reflexivity.
Qed.

Lemma escapeChar_plain (c : ascii) :
  isHtmlSpecial c = false -> Script.escapeChar c = String c EmptyString.
Proof. destruct c as [[] [] [] [] [] [] [] []]; vm_compute; done. Qed.

End EscapeHtml.

(** X1: the text that [escapeHtml] returns holds no less-than, greater-than,
    double quote or apostrophe; the escaping can be undone, so two names
    with the same escaped text are the same name; and a text without the
    five special characters is returned as it is. *)
Theorem X1_escapeHtml (s : string) :
  includesChar "<" (Script.escapeHtml s) = false
  /\ includesChar ">" (Script.escapeHtml s) = false
  /\ includesChar "034" (Script.escapeHtml s) = false
  /\ includesChar "'" (Script.escapeHtml s) = false
  /\ unescapeHtml (Script.escapeHtml s) = s
  /\ (forall s', Script.escapeHtml s = Script.escapeHtml s' -> s = s')
  /\ (hasHtmlSpecial s = false -> Script.escapeHtml s = s).
Proof.
  assert (Hfree : forall t,
    includesChar "<" (Script.escapeHtml t) = false
    /\ includesChar ">" (Script.escapeHtml t) = false
    /\ includesChar "034" (Script.escapeHtml t) = false
    /\ includesChar "'" (Script.escapeHtml t) = false).
  { induction t as [|c r (IH1 & IH2 & IH3 & IH4)]; [done|].
    cbn [Script.escapeHtml]. rewrite !includesChar_app, IH1, IH2, IH3, IH4.
    destruct (escapeChar_markup_free c) as (-> & -> & -> & ->). done. }
  destruct (Hfree s) as (H1 & H2 & H3 & H4).
  repeat (split; [assumption|]).
  split; [apply unescapeHtml_escapeHtml|]. split.
  - intros s' Heq.
    rewrite <- (unescapeHtml_escapeHtml s), <- (unescapeHtml_escapeHtml s').
    by rewrite Heq.
  - induction s as [|c r IH]; [done|].
    cbn [hasHtmlSpecial Script.escapeHtml]. intros Hplain.
    apply orb_false_iff in Hplain as [Hc Hr].
    destruct (Hfree r) as (R1 & R2 & R3 & R4).
    rewrite (escapeChar_plain c Hc), (IH R1 R2 R3 R4 Hr). reflexivity.
Qed.

Lemma X1_escapeHtml_witness :
  Script.escapeHtml "Ana Cruz" = "Ana Cruz"
  /\ Script.escapeHtml "<b>Tom & Jerry's</b>"
     = "&lt;b&gt;Tom &amp; Jerry&#39;s&lt;/b&gt;".
Proof.
  split; [|reflexivity].
  apply (proj2 (proj2 (proj2 (proj2 (proj2 (proj2
           (X1_escapeHtml "Ana Cruz"))))))).
  reflexivity.
Defined.

(** ** Image URLs: normalizeImageUrl and migrateStoredImages *)

Section ImageUrls.

Variables encodeURI decodeURI : string -> option string.

Local Abbreviation normalizeImageUrl :=
  (Script.normalizeImageUrl encodeURI decodeURI).
Local Abbreviation normalizeImage :=
  (Script.normalizeImage encodeURI decodeURI).
Local Abbreviation migrateStoredImages :=
  (Script.migrateStoredImages encodeURI decodeURI).

(** The test of [migrateStoredImages]: the item has an image and its
    normal form differs. *)
Local Abbreviation needsMigration :=
  (fun item : CartItem =>
     negb (isEmpty (image item))
     && negb (String.eqb (normalizeImageUrl (image item)) (image item))).

Lemma withImage_same (item : CartItem) : withImage (image item) item = item.
Proof. by destruct item. Qed.

Lemma normalizeImage_unchanged (item : CartItem) :
  needsMigration item = false -> normalizeImage item = item.
Proof.
  unfold Script.normalizeImage. destruct (negb (isEmpty (image item))); cbn;
    [|done].
  rewrite negb_false_iff, String.eqb_eq. intros ->. apply withImage_same.
Qed.

Lemma migrated_unchanged (cart : Cart) :
  existsb needsMigration cart = false -> map normalizeImage cart = cart.
Proof.
  induction cart as [|item rest IH]; [done|].
  cbn [existsb map]. intros H. apply orb_false_iff in H as [Hitem Hrest].
  by rewrite (normalizeImage_unchanged item Hitem), (IH Hrest).
Qed.

Lemma migrateStoredImages_run (p : Page) (cart : Cart) :
  storedCart p = Some cart ->
  migrateStoredImages p =
    (Ok tt,
     if existsb needsMigration cart
     then savedPage (map normalizeImage cart) p else p).
Proof.
  intros Hcart. unfold Script.migrateStoredImages, mbind, M_bind.
  rewrite (getCartItems_ok p cart Hcart). cbv zeta.
  destruct (existsb _ cart); [apply saveCart_run | reflexivity].
Qed.

Lemma normalizeImage_fields (cart : Cart) :
  map id (map normalizeImage cart) = map id cart
  /\ map name (map normalizeImage cart) = map name cart
  /\ map price (map normalizeImage cart) = map price cart
  /\ map quantity (map normalizeImage cart) = map quantity cart.
Proof.
  rewrite !map_map. repeat split; apply map_ext; intros item;
    unfold Script.normalizeImage; by destruct (negb _).
Qed.

(** X3: [migrateStoredImages] returns without an exception when the stored
    cart parses; afterwards the stored cart is the old one with every
    image URL normalised, so ids, names, prices and quantities are the
    same and in the same order; and when no image needs it, nothing is
    written: storage and badge are left as they were. *)
Theorem X3_migrateStoredImages (p : Page) (cart : Cart)
  (Hcart : storedCart p = Some cart) :
  result migrateStoredImages p = Ok tt
  /\ storedCart (exec migrateStoredImages p) = Some (map normalizeImage cart)
  /\ map id (map normalizeImage cart) = map id cart
  /\ map name (map normalizeImage cart) = map name cart
  /\ map price (map normalizeImage cart) = map price cart
  /\ map quantity (map normalizeImage cart) = map quantity cart
  /\ (existsb needsMigration cart = false -> exec migrateStoredImages p = p).
Proof.
  unfold result, exec. rewrite (migrateStoredImages_run p cart Hcart).
  cbn [fst snd]. split; [reflexivity|]. split.
  - destruct (existsb _ cart) eqn:E; [reflexivity|].
    by rewrite (migrated_unchanged cart E).
  - destruct (normalizeImage_fields cart) as (H1 & H2 & H3 & H4).
    repeat (split; [assumption|]). by intros ->.
Qed.

(** The browser's pair of functions round-trips: decoding what
    [encodeURI] returned gives the text back. *)
Hypothesis decode_encode :
  forall s e, encodeURI s = Some e -> decodeURI e = Some s.

Lemma normalizeImageUrl_encoded (s e : string) :
  encodeURI s = Some e -> normalizeImageUrl e = e.
Proof.
  intros He. unfold Script.normalizeImageUrl.
  destruct (isEmpty e); [reflexivity|].
  by rewrite (decode_encode s e He), He.
Qed.

Lemma normalizeImageUrl_idemp (url : string) :
  normalizeImageUrl (normalizeImageUrl url) = normalizeImageUrl url.
Proof.
  unfold Script.normalizeImageUrl at 2 3.
  destruct (isEmpty url) eqn:Hempty.
  - unfold Script.normalizeImageUrl. by rewrite Hempty.
  - destruct (decodeURI url) as [decoded|] eqn:Hdec.
    + destruct (encodeURI decoded) as [encoded|] eqn:Henc;
        [by apply (normalizeImageUrl_encoded decoded)|].
      destruct (encodeURI url) as [e|] eqn:Henc';
        [by apply (normalizeImageUrl_encoded url)|].
      unfold Script.normalizeImageUrl. by rewrite Hempty, Hdec, Henc, Henc'.
    + destruct (encodeURI url) as [e|] eqn:Henc';
        [by apply (normalizeImageUrl_encoded url)|].
      unfold Script.normalizeImageUrl. by rewrite Hempty, Hdec, Henc'.
Qed.

Lemma migrated_settled (cart : Cart) :
  existsb needsMigration (map normalizeImage cart) = false.
Proof.
  induction cart as [|item rest IH]; [done|].
  cbn [map existsb]. rewrite IH, orb_false_r.
  unfold Script.normalizeImage.
  destruct (negb (isEmpty (image item))) eqn:E; cbn [image withImage]; [|by rewrite E].
  rewrite normalizeImageUrl_idemp, String.eqb_refl. cbn. apply andb_false_r.
Qed.

(** X2: when the browser's [decodeURI] undoes its [encodeURI],
    [normalizeImageUrl] is idempotent (a normalised URL is not encoded a
    second time), and so a second run of [migrateStoredImages] changes
    nothing. *)
Theorem X2_normalizeImageUrl_idempotent (url : string) (p : Page) (cart : Cart)
  (Hcart : storedCart p = Some cart) :
  normalizeImageUrl (normalizeImageUrl url) = normalizeImageUrl url
  /\ exec migrateStoredImages (exec migrateStoredImages p)
     = exec migrateStoredImages p.
Proof.
  split; [apply normalizeImageUrl_idemp|].
  unfold exec. rewrite (migrateStoredImages_run p cart Hcart). cbn [snd].
  destruct (existsb _ cart) eqn:E.
  - rewrite (migrateStoredImages_run _ _ (storedCart_savedPage _ _)).
    by rewrite migrated_settled.
  - by rewrite (migrateStoredImages_run p cart Hcart), E.
Qed.

End ImageUrls.

Lemma X3_migrateStoredImages_witness :
  storedCart
    (exec (Script.migrateStoredImages (fun s => Some ("u:" +:+ s)) Some)
       (savedPage [mkItem "A" "Pen" 100 "pen.png" 2]
          (mkPage emptyStorage None)))
  = Some [mkItem "A" "Pen" 100 "u:pen.png" 2].
Proof.
  exact (proj1 (proj2 (X3_migrateStoredImages (fun s => Some ("u:" +:+ s)) Some
    (savedPage [mkItem "A" "Pen" 100 "pen.png" 2] (mkPage emptyStorage None))
    [mkItem "A" "Pen" 100 "pen.png" 2] eq_refl))).
Defined.

Lemma X2_normalizeImageUrl_idempotent_witness :
  Script.normalizeImageUrl Some Some
    (Script.normalizeImageUrl Some Some "img/pen.png")
  = Script.normalizeImageUrl Some Some "img/pen.png".
Proof.
  refine (proj1 (X2_normalizeImageUrl_idempotent Some Some _ "img/pen.png"
    (mkPage emptyStorage None) [] eq_refl)).
  intros s e [= <-]. reflexivity.
Defined.

(** ** Removing, setting a quantity, adding: lookups afterwards *)

Section CartLookups.

Variable key : string.

Lemma findById_filterOut (cart : Cart) : findById key (filterOut key cart) = None.
Proof.
  induction cart as [|item rest IH]; [reflexivity|].
  cbn. destruct (String.eqb (id item) key) eqn:E; cbn; [exact IH|].
  by rewrite E.
Qed.

Lemma findById_filterOut_other (k : string) (cart : Cart) :
  k <> key -> findById k (filterOut key cart) = findById k cart.
Proof.
  intros Hne. unfold findById, filterOut.
  induction cart as [|item rest IH]; [reflexivity|].
  cbn. destruct (String.eqb (id item) key) eqn:E; cbn.
  - apply String.eqb_eq in E.
    destruct (String.eqb (id item) k) eqn:E'; [|exact IH].
    apply String.eqb_eq in E'. congruence.
  - by rewrite IH.
Qed.

Lemma filterOut_absent (cart : Cart) :
  findById key cart = None -> filterOut key cart = cart.
Proof.
  induction cart as [|item rest IH]; [reflexivity|].
  cbn. destruct (String.eqb (id item) key); cbn; [discriminate|].
  intros H. f_equal. exact (IH H).
Qed.

Lemma filterOut_idemp (cart : Cart) :
  filterOut key (filterOut key cart) = filterOut key cart.
Proof. apply filterOut_absent, findById_filterOut. Qed.

Lemma filterOut_app (cart more : Cart) :
  filterOut key (cart ++ more) = filterOut key cart ++ filterOut key more.
Proof. unfold filterOut. apply List.filter_app. Qed.

Lemma updateFound_absent (f : CartItem -> CartItem) (cart : Cart) :
  findById key cart = None -> updateFound key f cart = cart.
Proof.
  induction cart as [|item rest IH]; [reflexivity|].
  cbn. destruct (String.eqb (id item) key); [discriminate|].
  intros H. by rewrite (IH H).
Qed.

Lemma findById_updateFound_other (k : string) (f : CartItem -> CartItem)
  (cart : Cart) :
  k <> key -> (forall item, id (f item) = id item) ->
  findById k (updateFound key f cart) = findById k cart.
Proof.
  intros Hne Hid. induction cart as [|item rest IH]; [reflexivity|].
  cbn. destruct (String.eqb (id item) key) eqn:E; cbn.
  - rewrite Hid. apply String.eqb_eq in E.
    destruct (String.eqb (id item) k) eqn:E'; [|reflexivity].
    apply String.eqb_eq in E'. congruence.
  - destruct (String.eqb (id item) k); [reflexivity | exact IH].
Qed.

Lemma findById_app (cart more : Cart) :
  findById key (cart ++ more) =
    match findById key cart with
    | Some item => Some item
    | None => findById key more
    end.
Proof.
  induction cart as [|item rest IH]; [reflexivity|].
  cbn. destruct (String.eqb (id item) key); [reflexivity | exact IH].
Qed.

End CartLookups.

(** X4: [removeItem] returns without an exception when the stored cart
    parses and stores the cart without the entries of that id: a lookup of
    the id then finds nothing, lookups of other ids find what they found
    before, a cart without the id is stored again as it was, and a second
    removal changes nothing.  [removeItem] of script1.js leaves the same
    page. *)
Theorem X4_removeItem (key : string) (p : Page) (cart : Cart)
  (Hcart : storedCart p = Some cart) :
  result (Script.removeItem key) p = Ok tt
  /\ storedCart (exec (Script.removeItem key) p) = Some (filterOut key cart)
  /\ findById key (filterOut key cart) = None
  /\ (forall k, k <> key ->
        findById k (filterOut key cart) = findById k cart)
  /\ (findById key cart = None -> filterOut key cart = cart)
  /\ exec (Script.removeItem key) (exec (Script.removeItem key) p)
     = exec (Script.removeItem key) p
  /\ exec (Script1.removeItem key) p = exec (Script.removeItem key) p.
Proof.
  unfold result, exec. rewrite (removeItem_run key p cart Hcart). cbn [fst snd].
  split; [reflexivity|]. split; [reflexivity|].
  split; [apply findById_filterOut|].
  split; [intros k; apply findById_filterOut_other|].
  split; [apply filterOut_absent|]. split.
  - rewrite (removeItem_run key _ _ (storedCart_savedPage _ _)). cbn [snd].
    by rewrite filterOut_idemp, savedPage_savedPage.
  - apply (removeItem1_run key p cart Hcart).
Qed.

Lemma X4_removeItem_witness :
  storedCart
    (exec (Script.removeItem "A")
       (savedPage [mkItem "A" "Pen" 100 "" 2; mkItem "B" "Desk" 2500 "" 1]
          (mkPage emptyStorage None)))
  = Some [mkItem "B" "Desk" 2500 "" 1].
Proof.
  exact (proj1 (proj2 (X4_removeItem "A"
    (savedPage [mkItem "A" "Pen" 100 "" 2; mkItem "B" "Desk" 2500 "" 1]
       (mkPage emptyStorage None))
    [mkItem "A" "Pen" 100 "" 2; mkItem "B" "Desk" 2500 "" 1] eq_refl))).
Defined.

(** X5: [updateQuantity] returns without an exception when the stored cart
    parses.  With an id that is not in the cart it stores the cart as it
    was; otherwise a lookup of the id then finds the same entry with the
    new quantity, lookups of other ids find what they found before, the
    ids keep their order, and of two updates of one id the second one
    wins.  [updateQuantity] of script1.js is the same function. *)
Theorem X5_updateQuantity (key : string) (q q' : Z) (p : Page) (cart : Cart)
  (Hcart : storedCart p = Some cart) :
  let cart' := updateFound key (withQuantity q) cart in
  Script.updateQuantity key q p = (Ok tt, savedPage cart' p)
  /\ (findById key cart = None -> cart' = cart)
  /\ findById key cart' = withQuantity q <$> findById key cart
  /\ (forall k, k <> key -> findById k cart' = findById k cart)
  /\ map id cart' = map id cart
  /\ (Script.updateQuantity key q;; Script.updateQuantity key q') p
     = Script.updateQuantity key q' p
  /\ Script1.updateQuantity key q p = Script.updateQuantity key q p.
Proof.
  cbv zeta. split; [apply (updateQuantity_run key q p cart Hcart)|].
  split; [apply updateFound_absent|].
  split; [by apply findById_updateFound|].
  split; [intros k Hne; by apply findById_updateFound_other|].
  split; [by apply updateFound_ids|]. split; [|reflexivity].
  unfold mbind at 1, M_bind. rewrite (updateQuantity_run key q p cart Hcart).
  rewrite (updateQuantity_run key q' _ _ (storedCart_savedPage _ _)),
    (updateQuantity_run key q' p cart Hcart), savedPage_savedPage.
  rewrite updateFound_compose by reflexivity. reflexivity.
Qed.

Lemma X5_updateQuantity_witness :
  Script.updateQuantity "B" 7
    (savedPage [mkItem "A" "Pen" 100 "" 2] (mkPage emptyStorage None))
  = (Ok tt, savedPage [mkItem "A" "Pen" 100 "" 2] (mkPage emptyStorage None)).
Proof.
  destruct (X5_updateQuantity "B" 7 1
    (savedPage [mkItem "A" "Pen" 100 "" 2] (mkPage emptyStorage None))
    [mkItem "A" "Pen" 100 "" 2] eq_refl) as (Hrun & _).
  exact Hrun.
Defined.

Section AddLookups.

Variables encodeURI decodeURI : string -> option string.

Local Abbreviation normalizeImage :=
  (Script.normalizeImage encodeURI decodeURI).
Local Abbreviation incrementOrPush :=
  (Script.incrementOrPush encodeURI decodeURI).
Local Abbreviation addItemToCart :=
  (Script.addItemToCart encodeURI decodeURI).

Lemma findById_incrementOrPush (item : CartItem) (cart : Cart) :
  findById (id item) (incrementOrPush item cart) =
    match findById (id item) cart with
    | Some existing =>
        Some (withQuantity (quantity existing + quantity item) existing)
    | None => Some (normalizeImage item)
    end.
Proof.
  unfold Script.incrementOrPush.
  destruct (findById (id item) cart) as [existing|] eqn:Hfind.
  - by rewrite findById_updateFound, Hfind.
  - rewrite findById_app, Hfind. cbn.
    by rewrite normalizeImage_id, String.eqb_refl.
Qed.

Lemma findById_incrementOrPush_other (k : string) (item : CartItem)
  (cart : Cart) :
  k <> id item ->
  findById k (incrementOrPush item cart) = findById k cart.
Proof.
  intros Hne. unfold Script.incrementOrPush.
  destruct (findById (id item) cart) as [existing|] eqn:Hfind.
  - by apply findById_updateFound_other.
  - rewrite findById_app. destruct (findById k cart); [reflexivity|].
    cbn. rewrite normalizeImage_id.
    destruct (String.eqb (id item) k) eqn:E; [|reflexivity].
    apply String.eqb_eq in E. congruence.
Qed.

Lemma filterOut_incrementOrPush_new (item : CartItem) (cart : Cart) :
  findById (id item) cart = None ->
  filterOut (id item) (incrementOrPush item cart) = cart.
Proof.
  intros Hfind. unfold Script.incrementOrPush. rewrite Hfind.
  rewrite filterOut_app, (filterOut_absent _ _ Hfind). cbn.
  rewrite normalizeImage_id, String.eqb_refl. cbn. apply app_nil_r.
Qed.

(** X6: after [addItemToCart] a lookup of the item's id finds an entry
    whose quantity is the item's quantity, added to the quantity the cart
    held for that id if it held one; lookups of other ids find what they
    found before; the cart grows by one entry exactly when the id is new;
    and removing a newly added id leaves the stored cart as it was before
    the add. *)
Theorem X6_addItemToCart_lookup (item : CartItem) (p : Page) (cart : Cart)
  (Hcart : storedCart p = Some cart) :
  exists cart' entry,
    addItemToCart item p = (Ok tt, savedPage cart' p)
    /\ findById (id item) cart' = Some entry
    /\ quantity entry =
         match findById (id item) cart with
         | Some existing => quantity existing + quantity item
         | None => quantity item
         end
    /\ (forall k, k <> id item -> findById k cart' = findById k cart)
    /\ length cart' =
         match findById (id item) cart with
         | Some _ => length cart
         | None => S (length cart)
         end
    /\ (findById (id item) cart = None ->
        storedCart
          (exec (addItemToCart item;; Script.removeItem (id item)) p)
        = Some cart).
Proof.
  exists (incrementOrPush item cart).
  pose proof (findById_incrementOrPush item cart) as Hfound.
  assert (Hrun : addItemToCart item p
                 = (Ok tt, savedPage (incrementOrPush item cart) p))
    by (rewrite addItemToCart_run, Hcart; reflexivity).
  destruct (findById (id item) cart) as [existing|] eqn:Hfind.
  - eexists. split; [exact Hrun|]. split; [exact Hfound|].
    split; [reflexivity|].
    split; [intros k; apply findById_incrementOrPush_other|].
    split; [|discriminate].
    unfold Script.incrementOrPush. rewrite Hfind.
    rewrite <- (length_map id), updateFound_ids by reflexivity.
    apply length_map.
  - eexists. split; [exact Hrun|]. split; [exact Hfound|].
    split; [apply normalizeImage_quantity|].
    split; [intros k; apply findById_incrementOrPush_other|].
    split.
    + unfold Script.incrementOrPush. rewrite Hfind, length_app. cbn. lia.
    + intros _. unfold exec, mbind, M_bind. rewrite Hrun.
      rewrite (removeItem_run _ _ _ (storedCart_savedPage _ _)). cbn [snd].
      rewrite storedCart_savedPage.
      by rewrite (filterOut_incrementOrPush_new item cart Hfind).
Qed.

End AddLookups.

Lemma X6_addItemToCart_lookup_witness :
  exists cart' entry,
    Script.addItemToCart Some Some (mkItem "A" "Pen" 100 "" 3)
      (savedPage [mkItem "A" "Pen" 100 "" 2] (mkPage emptyStorage None))
    = (Ok tt,
       savedPage cart'
         (savedPage [mkItem "A" "Pen" 100 "" 2] (mkPage emptyStorage None)))
    /\ findById "A" cart' = Some entry
    /\ quantity entry = 5.
Proof.
  destruct (X6_addItemToCart_lookup Some Some (mkItem "A" "Pen" 100 "" 3)
    (savedPage [mkItem "A" "Pen" 100 "" 2] (mkPage emptyStorage None))
    [mkItem "A" "Pen" 100 "" 2] eq_refl)
    as (cart' & entry & Hrun & Hfind & Hq & _).
  exists cart', entry. split; [exact Hrun|]. split; [exact Hfind | exact Hq].
Defined.

(** ** What the handlers of the later script leave behind *)

Lemma run_split {A} (m : M A) (p : Page) : m p = (result m p, exec m p).
Proof. unfold result, exec. by destruct (m p). Qed.

Lemma isLoggedIn_run (p : Page) : Script.isLoggedIn p = (Ok (loggedIn p), p).
Proof.
  unfold Script.isLoggedIn, loggedIn, getStorage, mbind, M_bind.
  by destruct (os_current_user (localStorage p)).
Qed.

Lemma updateCartCount_run (p : Page) (cart : Cart) :
  storedCart p = Some cart ->
  Script.updateCartCount p = (Ok tt, refreshedPage cart p).
Proof.
  intros Hcart. unfold Script.updateCartCount, mbind, M_bind.
  rewrite (getCartItems_ok p cart Hcart). cbv zeta.
  destruct p as [s [b|]]; reflexivity.
Qed.

Lemma savedPage_refreshed (cart : Cart) (p : Page) :
  refreshedPage cart (withStorage (set_cartItems (Some (Stringified cart))) p)
  = savedPage cart p.
Proof. reflexivity. Qed.

Lemma refreshBadge_twice (c1 c2 : Cart) (b : option Badge) :
  refreshBadge c2 (refreshBadge c1 b) = refreshBadge c2 b.
Proof. by destruct b. Qed.

Lemma refreshedPage_savedPage (cart : Cart) (p : Page) :
  refreshedPage cart (savedPage cart p) = savedPage cart p.
Proof. unfold refreshedPage, savedPage. cbn. by destruct (cart_count p). Qed.

Section HandlerRuns.

Variables encodeURI decodeURI : string -> option string.

Local Abbreviation incrementOrPush :=
  (Script.incrementOrPush encodeURI decodeURI).
Local Abbreviation addItemToCart :=
  (Script.addItemToCart encodeURI decodeURI).
Local Abbreviation addToCartClick :=
  (Script.addToCartClick encodeURI decodeURI).
Local Abbreviation replayPendingAdd :=
  (Script.replayPendingAdd encodeURI decodeURI).
Local Abbreviation migrateStoredImages :=
  (Script.migrateStoredImages encodeURI decodeURI).
Local Abbreviation pageLoad := (Script.pageLoad encodeURI decodeURI).

Lemma addToCartClick_run (card : Card) (href : string) (p : Page) :
  addToCartClick card href p =
    if loggedIn p then addItemToCart (itemOfCard card) p
    else
      (Ok tt,
       withStorage
         (fun s =>
            set_os_post_login_redirect (Some href)
              (set_os_pending_add (Some (StringifiedItem (itemOfCard card))) s))
         p).
Proof.
  unfold Script.addToCartClick, mbind, M_bind. rewrite isLoggedIn_run.
  by destruct (loggedIn p).
Qed.

Lemma replayPendingAdd_run (p : Page) (cart : Cart) :
  storedCart p = Some cart ->
  replayPendingAdd p =
    (Ok tt,
     match pendingToReplay p with
     | Some pending =>
         withStorage (set_os_pending_add None)
           (savedPage (incrementOrPush pending cart) p)
     | None => p
     end).
Proof.
  intros Hcart.
  unfold Script.replayPendingAdd, pendingToReplay, try_catch, getStorage.
  unfold mbind at 1, M_bind at 1. unfold mbind at 1, M_bind at 1.
  rewrite isLoggedIn_run.
  destruct (os_pending_add (localStorage p)) as [[pending|raw]|];
    destruct (loggedIn p); cbn [negb andb]; try reflexivity.
  destruct (negb (isEmpty (id pending))); [|reflexivity].
  unfold mbind, M_bind. by rewrite addItemToCart_run, Hcart.
Qed.

Lemma replayPendingAdd_returns (p : Page) : result replayPendingAdd p = Ok tt.
Proof.
  unfold result, Script.replayPendingAdd, try_catch, getStorage.
  unfold mbind at 1, M_bind at 1. unfold mbind at 1, M_bind at 1.
  rewrite isLoggedIn_run.
  destruct (os_pending_add (localStorage p)) as [[pending|raw]|];
    destruct (loggedIn p); cbn [negb]; try reflexivity.
  destruct (negb (isEmpty (id pending))); [|reflexivity].
  unfold mbind, M_bind. rewrite addItemToCart_run.
  by destruct (storedCart p).
Qed.

Lemma pageLoad_run (p : Page) (cart : Cart) :
  storedCart p = Some cart ->
  pageLoad p =
    (Ok tt,
     exec replayPendingAdd (exec migrateStoredImages (refreshedPage cart p))).
Proof.
  intros Hcart. unfold Script.pageLoad.
  unfold mbind at 1, M_bind at 1. rewrite (updateCartCount_run p cart Hcart).
  unfold mbind at 1, M_bind at 1, try_catch.
  assert (Hcart' : storedCart (refreshedPage cart p) = Some cart) by exact Hcart.
  rewrite (run_split migrateStoredImages (refreshedPage cart p)).
  unfold result at 1.
  rewrite (migrateStoredImages_run _ _ _ _ Hcart'). cbn [fst].
  rewrite (run_split replayPendingAdd).
  by rewrite replayPendingAdd_returns.
Qed.

End HandlerRuns.

Lemma handleCheckoutForm_run (form : Form) (now : Z) (p : Page) :
  Script.handleCheckoutForm form now p =
    if loggedIn p && Script.validateCheckoutForm form then
      match storedCart p with
      | Some cart =>
          (Ok (Some (orderNumber now)),
           refreshedPage [] (withStorage (set_cartItems None) p))
      | None => (Throw SyntaxError, p)
      end
    else (Ok None, p).
Proof.
  unfold Script.handleCheckoutForm.
  unfold mbind at 1, M_bind at 1. rewrite isLoggedIn_run.
  destruct (loggedIn p); cbn [negb andb]; [|reflexivity].
  destruct (Script.validateCheckoutForm form); cbn [negb]; [|reflexivity].
  unfold mbind at 1, M_bind at 1. rewrite getCartItems_run.
  destruct (storedCart p) as [cart|]; [|reflexivity].
  unfold mbind at 1, M_bind at 1.
  pose proof (calculateCartTotals_reads cart p) as Hreads. unfold exec in Hreads.
  destruct (getActiveVoucherCode_reads p) as [c Hc].
  unfold Script.calculateCartTotals at 1, mbind at 1, M_bind at 1.
  rewrite Hc. cbn [mret M_ret].
  unfold mbind at 1, M_bind at 1, modifyStorage at 1.
  unfold mbind at 1, M_bind at 1.
  change (mkPage (set_cartItems None (localStorage p)) (cart_count p))
    with (withStorage (set_cartItems None) p).
  rewrite (updateCartCount_run (withStorage (set_cartItems None) p) []
             eq_refl).
  reflexivity.
Qed.

Lemma handleCheckoutForm1_run (form : Form) (now : Z) (p : Page) :
  Script1.handleCheckoutForm form now p =
    if Script1.validateCheckoutForm form then
      match storedCart p with
      | Some cart =>
          (Ok (Some (orderNumber now)),
           refreshedPage [] (withStorage (set_cartItems None) p))
      | None => (Throw SyntaxError, p)
      end
    else (Ok None, p).
Proof.
  unfold Script1.handleCheckoutForm.
  destruct (Script1.validateCheckoutForm form); cbn [negb]; [|reflexivity].
  unfold mbind at 1, M_bind at 1.
  rewrite <- getCartItems_same, <- updateCartCount_same, getCartItems_run.
  destruct (storedCart p) as [cart|]; [|reflexivity].
  cbv zeta. unfold mbind at 1, M_bind at 1, modifyStorage at 1.
  unfold mbind at 1, M_bind at 1.
  change (mkPage (set_cartItems None (localStorage p)) (cart_count p))
    with (withStorage (set_cartItems None) p).
  rewrite (updateCartCount_run (withStorage (set_cartItems None) p) []
             eq_refl).
  reflexivity.
Qed.

Lemma doLogout_run (p : Page) :
  Script.doLogout p =
    (Ok tt,
     withStorage (set_os_active_voucher None)
       (savedPage []
          (withStorage
             (fun s => set_os_saved_username None (set_os_current_user None s))
             p))).
Proof.
  unfold Script.doLogout, try_catch.
  unfold mbind at 1, M_bind at 1.
  unfold mbind at 1, M_bind at 1, modifyStorage at 1.
  unfold mbind at 1, M_bind at 1, modifyStorage at 1.
  unfold mbind at 1, M_bind at 1.
  rewrite saveCart_run. unfold modifyStorage at 1.
  match goal with
  | |- context [Script.updateCartCount ?q] =>
      rewrite (updateCartCount_run q [] eq_refl)
  end.
  f_equal. unfold refreshedPage, withStorage, savedPage. cbn.
  by destruct (cart_count p).
Qed.

Lemma removeVoucherClick_run (p : Page) :
  exec Script.removeVoucherClick p = withStorage (set_os_active_voucher None) p.
Proof.
  unfold exec, Script.removeVoucherClick, Script.clearActiveVoucher,
    mbind, M_bind, modifyStorage.
  apply renderCart_reads.
Qed.

Lemma checkoutRemoveClick_run (key : string) (p : Page) (cart : Cart) :
  storedCart p = Some cart ->
  Script.checkoutRemoveClick key p = (Ok tt, savedPage (filterOut key cart) p).
Proof.
  intros Hcart. unfold Script.checkoutRemoveClick.
  unfold mbind at 1, M_bind at 1. rewrite (removeItem_run key p cart Hcart).
  unfold mbind at 1, M_bind at 1.
  assert (Hrender : Script.renderOrderSummary (savedPage (filterOut key cart) p)
                    = (Ok tt, savedPage (filterOut key cart) p)).
  { unfold Script.renderOrderSummary, mbind, M_bind.
    rewrite (getCartItems_ok _ _ (storedCart_savedPage _ _)).
    destruct (filterOut key cart) as [|item rest] eqn:E; [reflexivity|].
    destruct (calculateCartTotals_run (item :: rest)
                (savedPage (item :: rest) p)) as (t & Ht & _).
    by rewrite Ht. }
  rewrite Hrender.
  rewrite (updateCartCount_run _ _ (storedCart_savedPage _ _)).
  by rewrite refreshedPage_savedPage.
Qed.

(** ** The login gate and the add put aside *)

Section LoginGate.

Variables encodeURI decodeURI : string -> option string.

Local Abbreviation normalizeImage :=
  (Script.normalizeImage encodeURI decodeURI).
Local Abbreviation incrementOrPush :=
  (Script.incrementOrPush encodeURI decodeURI).
Local Abbreviation addToCartClick :=
  (Script.addToCartClick encodeURI decodeURI).
Local Abbreviation replayPendingAdd :=
  (Script.replayPendingAdd encodeURI decodeURI).
Local Abbreviation migrateStoredImages :=
  (Script.migrateStoredImages encodeURI decodeURI).
Local Abbreviation run := (Script.run encodeURI decodeURI).

(** X7: while the user is logged out, a click on an add-to-cart button
    returns without touching the cart text, the badge or the active
    voucher: it stores the item under [os_pending_add] and the page address
    under [os_post_login_redirect].  Only the last such click is kept, and
    a submitted checkout form leaves the page as it was. *)
Theorem X7_logged_out_add (card card' : Card) (href href' : string)
  (form : Form) (now : Z) (p : Page) (Hout : loggedIn p = false) :
  let q := exec (addToCartClick card href) p in
  result (addToCartClick card href) p = Ok tt
  /\ cartItems (localStorage q) = cartItems (localStorage p)
  /\ cart_count q = cart_count p
  /\ activeVoucher q = activeVoucher p
  /\ loggedIn q = false
  /\ os_pending_add (localStorage q) = Some (StringifiedItem (itemOfCard card))
  /\ os_post_login_redirect (localStorage q) = Some href
  /\ os_pending_add (localStorage (exec (addToCartClick card' href') q))
     = Some (StringifiedItem (itemOfCard card'))
  /\ Script.handleCheckoutForm form now p = (Ok None, p).
Proof.
  cbv zeta. unfold result, exec.
  rewrite (addToCartClick_run _ _ card href p), Hout. cbn [fst snd].
  repeat (split; [first [reflexivity | exact Hout]|]).
  split.
  - rewrite addToCartClick_run.
    assert (Hout' : loggedIn
      (withStorage
         (fun s =>
            set_os_post_login_redirect (Some href)
              (set_os_pending_add (Some (StringifiedItem (itemOfCard card))) s))
         p) = false) by exact Hout.
    by rewrite Hout'.
  - by rewrite handleCheckoutForm_run, Hout.
Qed.

Lemma migrateStoredImages_storedCart (p : Page) (cart : Cart) :
  storedCart p = Some cart ->
  storedCart (exec migrateStoredImages p) = Some (map normalizeImage cart)
  /\ localStorage (exec migrateStoredImages p)
     = set_cartItems (cartItems (localStorage (exec migrateStoredImages p)))
         (localStorage p).
Proof.
  intros Hcart. unfold exec. rewrite (migrateStoredImages_run _ _ p cart Hcart).
  cbn [snd]. destruct (existsb _ cart) eqn:E.
  - split; reflexivity.
  - rewrite (migrated_unchanged _ _ cart E). split; [exact Hcart|].
    by destruct (localStorage p).
Qed.

(** X8: [replayPendingAdd] never lets an exception out.  When the user is
    logged in, an item with an id is put aside and the stored cart parses,
    the item is added to the cart as [addItemToCart] adds it and the key
    [os_pending_add] is removed, so that a second run adds nothing; when
    nothing is to be replayed, or the stored cart does not parse, the run
    leaves the page as it was. *)
Theorem X8_replayPendingAdd (p : Page) :
  result replayPendingAdd p = Ok tt
  /\ (pendingToReplay p = None -> exec replayPendingAdd p = p)
  /\ (storedCart p = None -> exec replayPendingAdd p = p)
  /\ (forall cart pending,
        storedCart p = Some cart ->
        os_pending_add (localStorage p) = Some (StringifiedItem pending) ->
        loggedIn p = true ->
        isEmpty (id pending) = false ->
        let q := exec replayPendingAdd p in
        storedCart q = Some (incrementOrPush pending cart)
        /\ os_pending_add (localStorage q) = None
        /\ exec replayPendingAdd q = q).
Proof.
  split; [apply replayPendingAdd_returns|]. split; [|split].
  - unfold exec, pendingToReplay, Script.replayPendingAdd, try_catch,
      getStorage.
    unfold mbind at 1, M_bind at 1. unfold mbind at 1, M_bind at 1.
    rewrite isLoggedIn_run.
    destruct (os_pending_add (localStorage p)) as [[pending|raw]|];
      destruct (loggedIn p); cbn [negb andb]; try reflexivity.
    destruct (negb (isEmpty (id pending))); [discriminate | reflexivity].
  - intros Hcart.
    unfold exec, Script.replayPendingAdd, try_catch, getStorage.
    unfold mbind at 1, M_bind at 1. unfold mbind at 1, M_bind at 1.
    rewrite isLoggedIn_run.
    destruct (os_pending_add (localStorage p)) as [[pending|raw]|];
      destruct (loggedIn p); cbn [negb]; try reflexivity.
    destruct (negb (isEmpty (id pending))); [|reflexivity].
    unfold mbind, M_bind. by rewrite addItemToCart_run, Hcart.
  - intros cart pending Hcart Hpend Hin Hid. cbv zeta. unfold exec.
    assert (Hreplay : pendingToReplay p = Some pending)
      by (unfold pendingToReplay; by rewrite Hpend, Hin, Hid).
    rewrite (replayPendingAdd_run _ _ p cart Hcart), Hreplay. cbn [snd].
    split; [reflexivity|]. split; [reflexivity|].
    match goal with
    | |- context [Script.replayPendingAdd encodeURI decodeURI ?q] =>
        rewrite (replayPendingAdd_run _ _ q (incrementOrPush pending cart)
                   eq_refl)
    end.
    reflexivity.
Qed.


End LoginGate.

Lemma X7_logged_out_add_witness :
  os_pending_add
    (localStorage
       (exec (Script.addToCartClick Some Some (mkCard "A" "Pen" 100 "")
                "catalog.html")
          (mkPage emptyStorage None)))
  = Some (StringifiedItem (mkItem "A" "Pen" 100 "" 1)).
Proof.
  exact (proj1 (proj2 (proj2 (proj2 (proj2 (proj2
    (X7_logged_out_add Some Some (mkCard "A" "Pen" 100 "")
       (mkCard "A" "Pen" 100 "") "catalog.html" "catalog.html"
       (mkForm "Ana" "ana@example.com" "0917" "1 Rizal St" "Manila" None)
       0 (mkPage emptyStorage None)
       eq_refl))))))).
Defined.

Lemma X8_replayPendingAdd_witness :
  storedCart
    (exec (Script.replayPendingAdd Some Some)
       (mkPage
          (mkStorage None None (Some "ana") None
             (Some (StringifiedItem (mkItem "A" "Pen" 100 "" 1))) None)
          None))
  = Some [mkItem "A" "Pen" 100 "" 1].
Proof.
  destruct (X8_replayPendingAdd Some Some
    (mkPage
       (mkStorage None None (Some "ana") None
          (Some (StringifiedItem (mkItem "A" "Pen" 100 "" 1))) None)
       None)) as (_ & _ & _ & Hreplay).
  exact (proj1 (Hreplay [] (mkItem "A" "Pen" 100 "" 1) eq_refl eq_refl
                  eq_refl eq_refl)).
Defined.


(** ** Logout and checkout *)

(** X10: [doLogout] returns without an exception from every page, also
    from one whose cart text is not JSON.  Afterwards the stored cart is
    the empty cart, the login flag, the saved user name and the active
    voucher code are gone, the user counts as logged out, a badge shows 0,
    and the add put aside and the return address are as they were; a
    click on an add-to-cart button then leaves the cart empty. *)
Theorem X10_doLogout (encodeURI decodeURI : string -> option string)
  (card : Card) (href : string) (p : Page) :
  let q := exec Script.doLogout p in
  result Script.doLogout p = Ok tt
  /\ storedCart q = Some []
  /\ os_current_user (localStorage q) = None
  /\ os_saved_username (localStorage q) = None
  /\ activeVoucher q = None
  /\ loggedIn q = false
  /\ cart_count q = refreshBadge [] (cart_count p)
  /\ os_pending_add (localStorage q) = os_pending_add (localStorage p)
  /\ os_post_login_redirect (localStorage q)
     = os_post_login_redirect (localStorage p)
  /\ storedCart (exec (Script.addToCartClick encodeURI decodeURI card href) q)
     = Some [].
Proof.
  cbv zeta. unfold result, exec. rewrite doLogout_run. cbn [fst snd].
  repeat (split; [reflexivity|]).
  by rewrite addToCartClick_run.
Qed.

Lemma validateCheckoutForm_true (form : Form) :
  Script.validateCheckoutForm form = true <->
  isEmpty (trim (fullName form)) = false
  /\ isEmpty (trim (email form)) = false
  /\ isEmpty (trim (phone form)) = false
  /\ isEmpty (trim (address form)) = false
  /\ isEmpty (trim (city form)) = false
  /\ includesChar "@" (email form) = true
  /\ paymentMethod form <> None.
Proof.
  unfold Script.validateCheckoutForm. cbn [forallb].
  destruct (paymentMethod form) as [method|].
  - rewrite !andb_true_iff, !negb_true_iff. split.
    + intros (((H1 & H2 & H3 & H4 & H5 & _) & Hat) & _). done.
    + intros (H1 & H2 & H3 & H4 & H5 & Hat & _). done.
  - rewrite andb_false_r. split; [discriminate|].
    intros (_ & _ & _ & _ & _ & _ & Hpay). by contradiction Hpay.
Qed.

Lemma trim_blank (ws : list string) : isPadding ws -> trim (padding ws) = "".
Proof.
  intros Hws.
  assert (Hnil : isPadding []) by constructor.
  pose proof (trim_padding ws [] "" Hws Hnil) as H.
  cbn [padding fold_right] in H. fold (padding ws) in H.
  by rewrite !app_empty_r in H.
Qed.

Lemma validateCheckoutForm_blank (form : Form) (ws : list string) :
  isPadding ws ->
  In (padding ws)
    [fullName form; email form; phone form; address form; city form] ->
  Script.validateCheckoutForm form = false.
Proof.
  intros Hws Hin. apply not_true_iff_false. intros Hvalid.
  apply validateCheckoutForm_true in Hvalid
    as (H1 & H2 & H3 & H4 & H5 & _).
  assert (Hblank : isEmpty (trim (padding ws)) = true)
    by (by rewrite (trim_blank ws Hws)).
  cbn [In] in Hin.
  destruct Hin as [E|[E|[E|[E|[E|[]]]]]]; rewrite <- E in Hblank;
    congruence.
Qed.

(** X11: the submit handler places an order exactly when the user is
    logged in and the form is valid, whatever the cart holds, also when
    it is empty: it returns the order number, removes the key [cartItems]
    and sets a badge to 0.  Otherwise it returns nothing and leaves the
    page as it was; when the stored cart does not parse, the exception
    leaves the page as it was too.  The form is valid when the five
    fields are not blank, the email holds an at sign and a payment method
    is chosen; a field of white space only, a no-break space for one, is
    blank.  The handler of script1.js has no login test: it places the
    order exactly when the form is valid, also for a user who is logged
    out, and does then what the later handler does for a user who is
    logged in. *)
Theorem X11_handleCheckoutForm (form : Form) (now : Z) (p : Page) :
  (loggedIn p && Script.validateCheckoutForm form = false ->
   Script.handleCheckoutForm form now p = (Ok None, p))
  /\ (loggedIn p && Script.validateCheckoutForm form = true ->
      forall cart, storedCart p = Some cart ->
        let q := exec (Script.handleCheckoutForm form now) p in
        result (Script.handleCheckoutForm form now) p
        = Ok (Some (orderNumber now))
        /\ cartItems (localStorage q) = None
        /\ storedCart q = Some []
        /\ cart_count q = refreshBadge [] (cart_count p))
  /\ (loggedIn p && Script.validateCheckoutForm form = true ->
      storedCart p = None ->
      Script.handleCheckoutForm form now p = (Throw SyntaxError, p))
  /\ (Script.validateCheckoutForm form = true <->
      isEmpty (trim (fullName form)) = false
      /\ isEmpty (trim (email form)) = false
      /\ isEmpty (trim (phone form)) = false
      /\ isEmpty (trim (address form)) = false
      /\ isEmpty (trim (city form)) = false
      /\ includesChar "@" (email form) = true
      /\ paymentMethod form <> None)
  /\ (forall ws,
        isPadding ws ->
        In (padding ws)
          [fullName form; email form; phone form; address form; city form] ->
        Script.validateCheckoutForm form = false)
  /\ Script.validateCheckoutForm
       (mkForm (bytes [194; 160]%nat) "ana@example.com" "09170000000"
          "1 Rizal St" "Manila" (Some "cod"))
     = false
  /\ Script1.validateCheckoutForm form = Script.validateCheckoutForm form
  /\ (Script1.validateCheckoutForm form = false ->
      Script1.handleCheckoutForm form now p = (Ok None, p))
  /\ (Script1.validateCheckoutForm form = true ->
      forall cart, storedCart p = Some cart ->
        let q := exec (Script1.handleCheckoutForm form now) p in
        result (Script1.handleCheckoutForm form now) p
        = Ok (Some (orderNumber now))
        /\ cartItems (localStorage q) = None
        /\ storedCart q = Some []
        /\ cart_count q = refreshBadge [] (cart_count p)
        /\ os_current_user (localStorage q) = os_current_user (localStorage p))
  /\ (Script1.validateCheckoutForm form = true ->
      storedCart p = None ->
      Script1.handleCheckoutForm form now p = (Throw SyntaxError, p))
  /\ (loggedIn p = true ->
      Script1.handleCheckoutForm form now p
      = Script.handleCheckoutForm form now p)
  /\ (loggedIn p = false ->
      Script.handleCheckoutForm form now p = (Ok None, p)).
Proof.
  split; [intros H; by rewrite handleCheckoutForm_run, H|].
  split.
  { intros H cart Hcart. cbv zeta. unfold result, exec.
    rewrite handleCheckoutForm_run, H, Hcart. cbn [fst snd].
    repeat split. }
  split; [intros H Hcart; by rewrite handleCheckoutForm_run, H, Hcart|].
  split; [apply validateCheckoutForm_true|].
  split; [apply validateCheckoutForm_blank|].
  split; [reflexivity|].
  split; [reflexivity|].
  split; [intros H; by rewrite handleCheckoutForm1_run, H|].
  split.
  { intros H cart Hcart. cbv zeta. unfold result, exec.
    rewrite handleCheckoutForm1_run, H, Hcart. cbn [fst snd].
    repeat split. }
  split; [intros H Hcart; by rewrite handleCheckoutForm1_run, H, Hcart|].
  split.
  { intros Hin. rewrite handleCheckoutForm_run, handleCheckoutForm1_run, Hin.
    reflexivity. }
  intros Hout. by rewrite handleCheckoutForm_run, Hout.
Qed.

Lemma X11_handleCheckoutForm_witness :
  result
    (Script.handleCheckoutForm
       (mkForm "Ana Cruz" "ana@example.com" "09170000000" "1 Rizal St"
          "Manila" (Some "cod"))
       1730575012345)
    (mkPage (mkStorage None None (Some "ana") None None None) None)
  = Ok (Some "OS012345")
  /\ result
       (Script1.handleCheckoutForm
          (mkForm "Ana Cruz" "ana@example.com" "09170000000" "1 Rizal St"
             "Manila" (Some "cod"))
          1730575012345)
       (mkPage emptyStorage None)
     = Ok (Some "OS012345").
Proof.
  split.
  - destruct (X11_handleCheckoutForm
      (mkForm "Ana Cruz" "ana@example.com" "09170000000" "1 Rizal St"
         "Manila" (Some "cod"))
      1730575012345
      (mkPage (mkStorage None None (Some "ana") None None None) None))
      as (_ & Hplaced & _).
    exact (proj1 (Hplaced eq_refl [] eq_refl)).
  - destruct (X11_handleCheckoutForm
      (mkForm "Ana Cruz" "ana@example.com" "09170000000" "1 Rizal St"
         "Manila" (Some "cod"))
      1730575012345 (mkPage emptyStorage None))
      as (_ & _ & _ & _ & _ & _ & _ & _ & Hplaced & _).
    exact (proj1 (Hplaced eq_refl [] eq_refl)).
Defined.

(** ** Properties of the stored cart and the badge that every event keeps *)

Section PageInvariant.

Variables encodeURI decodeURI : string -> option string.

(** A property of cart and badge that every array operation keeps when the
    badge is refreshed after it. *)
Variable R : Cart -> option Badge -> Prop.
Hypothesis R_step :
  forall cart cart' badge,
    cartStep encodeURI decodeURI cart cart' ->
    R cart badge -> R cart' (refreshBadge cart' badge).

Local Abbreviation inv := (pageInv R).

Lemma inv_same (p q : Page) :
  storedCart q = storedCart p -> cart_count q = cart_count p ->
  inv p -> inv q.
Proof.
  intros Hc Hb (cart & Hcart & HR). exists cart.
  rewrite Hc, Hb. by split.
Qed.

Lemma inv_step (p q : Page) (cart cart' : Cart) :
  storedCart p = Some cart ->
  cartStep encodeURI decodeURI cart cart' ->
  storedCart q = Some cart' ->
  cart_count q = refreshBadge cart' (cart_count p) ->
  inv p -> inv q.
Proof.
  intros Hcart Hstep Hq Hb (c & Hc & HR).
  rewrite Hcart in Hc. injection Hc as <-.
  exists cart'. split; [exact Hq|]. rewrite Hb. by apply (R_step cart).
Qed.

Lemma inv_savedPage (p : Page) (cart cart' : Cart) :
  storedCart p = Some cart ->
  cartStep encodeURI decodeURI cart cart' ->
  inv p -> inv (savedPage cart' p).
Proof.
  intros Hcart Hstep. by apply (inv_step p _ cart cart').
Qed.

Lemma inv_refreshedPage (p : Page) (cart : Cart) :
  storedCart p = Some cart -> inv p -> inv (refreshedPage cart p).
Proof.
  intros Hcart. apply (inv_step p _ cart cart); try done. constructor.
Qed.

Lemma inv_migrateStoredImages (p : Page) :
  inv p -> inv (exec (Script.migrateStoredImages encodeURI decodeURI) p).
Proof.
  intros Hinv. pose proof Hinv as (cart & Hcart & _).
  unfold exec. rewrite (migrateStoredImages_run _ _ p cart Hcart). cbn [snd].
  destruct (existsb _ cart); [|exact Hinv].
  apply (inv_savedPage p cart); [exact Hcart | constructor | exact Hinv].
Qed.

Lemma inv_replayPendingAdd (p : Page) :
  inv p -> inv (exec (Script.replayPendingAdd encodeURI decodeURI) p).
Proof.
  intros Hinv. pose proof Hinv as (cart & Hcart & _).
  unfold exec. rewrite (replayPendingAdd_run _ _ p cart Hcart). cbn [snd].
  destruct (pendingToReplay p) as [pending|]; [|exact Hinv].
  apply (inv_step p _ cart
           (Script.incrementOrPush encodeURI decodeURI pending cart));
    try done. constructor.
Qed.

Lemma inv_handle (e : Script.Event) (p : Page) :
  inv p -> inv (exec (Script.handle encodeURI decodeURI e) p).
Proof.
  intros Hinv. pose proof Hinv as (cart & Hcart & _).
  destruct e as [|user|card href|key value|key|listener onclick input|
                 |key value|key|form now|]; cbn [Script.handle].
  - unfold exec. rewrite (pageLoad_run _ _ p cart Hcart). cbn [snd].
    by apply inv_replayPendingAdd, inv_migrateStoredImages,
      inv_refreshedPage.
  - by apply (inv_same p).
  - unfold exec. rewrite addToCartClick_run.
    destruct (loggedIn p); [|by apply (inv_same p)].
    rewrite addItemToCart_run, Hcart. cbn [snd].
    apply (inv_savedPage p cart); [exact Hcart | constructor | exact Hinv].
  - rewrite (cartQuantityChange_run key value p cart Hcart).
    apply (inv_savedPage p cart); [exact Hcart | constructor | exact Hinv].
  - rewrite (cartRemoveClick_run key p cart Hcart).
    apply (inv_savedPage p cart); [exact Hcart | constructor | exact Hinv].
  - rewrite applyVoucherButton_exec.
    destruct (Script.getVoucherByCode input) as [v|]; [|exact Hinv].
    destruct (_ || _); [by apply (inv_same p) | exact Hinv].
  - rewrite removeVoucherClick_run. by apply (inv_same p).
  - rewrite (checkoutQuantityChange_run key value p cart Hcart).
    apply (inv_savedPage p cart); [exact Hcart | constructor | exact Hinv].
  - unfold exec. rewrite (checkoutRemoveClick_run key p cart Hcart).
    apply (inv_savedPage p cart); [exact Hcart | constructor | exact Hinv].
  - unfold exec, mbind, M_bind. rewrite handleCheckoutForm_run, Hcart.
    destruct (loggedIn p && Script.validateCheckoutForm form);
      [|exact Hinv].
    apply (inv_step p _ cart []); try done. constructor.
  - unfold exec. rewrite doLogout_run. cbn [snd].
    apply (inv_step p _ cart []); try done. constructor.
Qed.

Lemma inv_handle1 (e : Script1.Event) (p : Page) :
  inv p -> inv (exec (Script1.handle e) p).
Proof.
  intros Hinv. pose proof Hinv as (cart & Hcart & _).
  destruct e as [card|key value|key|form now]; cbn [Script1.handle].
  - unfold exec, Script1.addToCartClick.
    rewrite Script1_addItemToCart_run, Hcart. cbn [snd].
    apply (inv_savedPage p cart); [exact Hcart | constructor | exact Hinv].
  - unfold Script1.quantityChange.
    destruct (parseInt value None) as [n|].
    + destruct (0 <? n).
      * unfold exec.
        change (Script1.updateQuantity key n) with (Script.updateQuantity key n).
        rewrite (updateQuantity_run key n p cart Hcart). cbn [snd].
        apply (inv_savedPage p cart); [exact Hcart | constructor | exact Hinv].
      * rewrite (removeItem1_run key p cart Hcart).
        apply (inv_savedPage p cart); [exact Hcart | constructor | exact Hinv].
    + rewrite (removeItem1_run key p cart Hcart).
      apply (inv_savedPage p cart); [exact Hcart | constructor | exact Hinv].
  - unfold Script1.removeClick. rewrite (removeItem1_run key p cart Hcart).
    apply (inv_savedPage p cart); [exact Hcart | constructor | exact Hinv].
  - unfold exec, mbind, M_bind. rewrite handleCheckoutForm1_run, Hcart.
    destruct (Script1.validateCheckoutForm form); [|exact Hinv].
    apply (inv_step p _ cart []); try done. constructor.
Qed.

End PageInvariant.

(** ** One line for each id *)

Lemma findById_None_notin (key : string) (cart : Cart) :
  findById key cart = None -> ~ In key (map id cart).
Proof.
  induction cart as [|item rest IH]; [intros _ []|].
  cbn. destruct (String.eqb (id item) key) eqn:E; [discriminate|].
  intros H [Hin|Hin]; [|exact (IH H Hin)].
  apply String.eqb_neq in E. by apply E.
Qed.

Lemma in_ids_filterOut (key k : string) (cart : Cart) :
  In k (map id (filterOut key cart)) -> In k (map id cart).
Proof.
  induction cart as [|item rest IH]; [intros []|].
  cbn. destruct (String.eqb (id item) key); cbn; [by right; apply IH|].
  intros [H|H]; [by left | by right; apply IH].
Qed.

Lemma uniqueIds_filterOut (key : string) (cart : Cart) :
  uniqueIds cart -> uniqueIds (filterOut key cart).
Proof.
  unfold uniqueIds. induction cart as [|item rest IH]; [done|].
  cbn. intros H. inversion H as [|? ? Hnotin Hrest]; subst.
  destruct (String.eqb (id item) key); cbn; [by apply IH|].
  constructor; [|by apply IH].
  intros Hin. by apply Hnotin, (in_ids_filterOut key).
Qed.

Lemma uniqueIds_app_new (item : CartItem) (cart : Cart) :
  findById (id item) cart = None ->
  uniqueIds cart -> uniqueIds (cart ++ [item]).
Proof.
  unfold uniqueIds. intros Hnone. apply findById_None_notin in Hnone.
  induction cart as [|first rest IH]; cbn.
  - intros _. constructor; [intros [] | constructor].
  - intros H. inversion H as [|? ? Hnotin Hrest]; subst.
    constructor.
    + rewrite map_app, in_app_iff. intros [Hin|[Hin|[]]]; [by apply Hnotin|].
      apply Hnone. by left.
    + apply IH; [|exact Hrest]. intros Hin. apply Hnone. by right.
Qed.

Lemma uniqueIds_step (encodeURI decodeURI : string -> option string)
  (cart cart' : Cart) :
  cartStep encodeURI decodeURI cart cart' ->
  uniqueIds cart -> uniqueIds cart'.
Proof.
  intros Hstep Hcart.
  destruct Hstep as [cart|item cart|item cart|key q cart|key cart|cart|cart].
  - exact Hcart.
  - unfold Script.incrementOrPush.
    destruct (findById (id item) cart) eqn:E.
    + unfold uniqueIds. by rewrite updateFound_ids.
    + apply uniqueIds_app_new; [|exact Hcart].
      by rewrite normalizeImage_id.
  - unfold Script1.incrementOrPush.
    destruct (findById (id item) cart) eqn:E.
    + unfold uniqueIds. by rewrite updateFound_ids.
    + by apply uniqueIds_app_new.
  - unfold uniqueIds. by rewrite updateFound_ids.
  - by apply uniqueIds_filterOut.
  - unfold uniqueIds.
    by rewrite (proj1 (normalizeImage_fields encodeURI decodeURI cart)).
  - constructor.
Qed.

Lemma uniqueIds_find (key : string) (cart : Cart) (item : CartItem) :
  uniqueIds cart -> In item cart -> id item = key ->
  findById key cart = Some item.
Proof.
  unfold uniqueIds. induction cart as [|first rest IH]; [intros _ []|].
  cbn. intros H. inversion H as [|? ? Hnotin Hrest]; subst.
  intros [->|Hin] Hid.
  - subst key. by rewrite String.eqb_refl.
  - destruct (String.eqb (id first) key) eqn:E; [|by apply IH].
    apply String.eqb_eq in E. exfalso. apply Hnotin.
    rewrite E, <- Hid. by apply in_map.
Qed.

Lemma uniqueIds_filterOut_length (key : string) (cart : Cart)
  (existing : CartItem) :
  uniqueIds cart -> findById key cart = Some existing ->
  (length (filterOut key cart) + 1 = length cart)%nat.
Proof.
  unfold uniqueIds. induction cart as [|first rest IH]; [discriminate|].
  cbn. intros H. inversion H as [|? ? Hnotin Hrest]; subst.
  destruct (String.eqb (id first) key) eqn:E; cbn.
  - intros _. apply String.eqb_eq in E.
    fold (filterOut key rest). rewrite filterOut_absent; [lia|].
    destruct (findById key rest) as [other|] eqn:F; [|reflexivity].
    exfalso. apply Hnotin. rewrite E.
    pose proof (find_some _ _ F) as [Hin Hkey].
    apply String.eqb_eq in Hkey. rewrite <- Hkey. by apply in_map.
  - intros Hfind. fold (filterOut key rest).
    specialize (IH Hrest Hfind). lia.
Qed.

(** X12: in both scripts the stored cart of every page that the events
    reach has one line for each id: the ids of its lines are pairwise
    different.  So the line that a lookup by id finds is the only line
    with that id, and removing an id that is in the cart makes the cart
    exactly one line shorter. *)
Theorem X12_one_line_per_id (encodeURI decodeURI : string -> option string)
  (p : Page) :
  Script.reachable encodeURI decodeURI p \/ Script1.reachable p ->
  exists cart,
    storedCart p = Some cart
    /\ uniqueIds cart
    /\ (forall item, In item cart -> findById (id item) cart = Some item)
    /\ (forall key existing,
          findById key cart = Some existing ->
          (length (filterOut key cart) + 1 = length cart)%nat).
Proof.
  intros Hreach.
  assert (Hinv : pageInv (fun cart _ => uniqueIds cart) p).
  { destruct Hreach as [Hreach|Hreach].
    - induction Hreach as [badge|p e _ _ IH].
      + exists []. split; [reflexivity | constructor].
      + apply (inv_handle encodeURI decodeURI); [|exact IH].
        intros cart cart' _. apply uniqueIds_step.
    - induction Hreach as [badge|p e _ IH].
      + exists []. split; [reflexivity | constructor].
      + apply (inv_handle1 encodeURI decodeURI); [|exact IH].
        intros cart cart' _. apply uniqueIds_step. }
  destruct Hinv as (cart & Hcart & Hunique).
  exists cart. repeat split; [exact Hcart | exact Hunique | |].
  - intros item Hin. by apply uniqueIds_find.
  - intros key existing. by apply uniqueIds_filterOut_length.
Qed.

Lemma X12_one_line_per_id_witness :
  exists cart,
    storedCart
      (Script.run Some Some
         [ Script.SignIn "ana";
           Script.AddToCart (mkCard "A" "Pen" 100 "") "catalog.html";
           Script.AddToCart (mkCard "B" "Ink" 50 "") "catalog.html";
           Script.AddToCart (mkCard "A" "Pen" 100 "") "catalog.html" ]
         (mkPage emptyStorage None))
    = Some cart
    /\ uniqueIds cart.
Proof.
  destruct (X12_one_line_per_id Some Some
    (Script.run Some Some
       [ Script.SignIn "ana";
         Script.AddToCart (mkCard "A" "Pen" 100 "") "catalog.html";
         Script.AddToCart (mkCard "B" "Ink" 50 "") "catalog.html";
         Script.AddToCart (mkCard "A" "Pen" 100 "") "catalog.html" ]
       (mkPage emptyStorage None)))
    as (cart & Hcart & Hunique & _).
  - left. cbn [Script.run fold_left].
    repeat (apply Script.reachable_event; [exact I|]).
    apply Script.reachable_fresh.
  - exists cart. by split.
Defined.

(** ** The badge follows the cart *)

Lemma badgeInSync_step (encodeURI decodeURI : string -> option string)
  (cart cart' : Cart) (badge : option Badge) :
  cartStep encodeURI decodeURI cart cart' ->
  badge = refreshBadge cart badge ->
  refreshBadge cart' badge = refreshBadge cart' (refreshBadge cart' badge).
Proof. intros _ _. by rewrite refreshBadge_twice. Qed.

Lemma badgeInSync_handle (encodeURI decodeURI : string -> option string)
  (e : Script.Event) (p : Page) :
  badgeInSync p -> badgeInSync (exec (Script.handle encodeURI decodeURI e) p).
Proof.
  apply (inv_handle encodeURI decodeURI
           (fun cart badge => badge = refreshBadge cart badge)).
  apply badgeInSync_step.
Qed.

Lemma badgeInSync_handle1 (e : Script1.Event) (p : Page) :
  badgeInSync p -> badgeInSync (exec (Script1.handle e) p).
Proof.
  apply (inv_handle1 Some Some
           (fun cart badge => badge = refreshBadge cart badge)).
  apply badgeInSync_step.
Qed.

Lemma badgeInSync_refreshedPage (p : Page) (cart : Cart) :
  storedCart p = Some cart -> badgeInSync (refreshedPage cart p).
Proof.
  intros Hcart. exists cart. split; [exact Hcart|].
  cbn. by rewrite refreshBadge_twice.
Qed.

Lemma badgeInSync_shows (p : Page) : badgeInSync p -> badgeShows p.
Proof.
  intros (cart & Hcart & Hbadge). exists cart. split; [exact Hcart|].
  intros b Hb. rewrite Hb in Hbadge. cbn in Hbadge.
  injection Hbadge as ->. cbn. rewrite reduceQuantity_sum. by split.
Qed.

(** X13: once a page with a parseable cart has loaded, the badge follows
    the cart through every sequence of events, in both scripts: whenever
    the page has a badge, its [data-count] is the total quantity of the
    stored cart and its text is that number or, above 99, [99+].  In the
    later script the load is the [DOMContentLoaded] handler, in
    script1.js its first statement, [updateCartCount]. *)
Theorem X13_badge_follows_cart
  (encodeURI decodeURI : string -> option string)
  (p : Page) (cart : Cart)
  (events : list Script.Event) (events1 : list Script1.Event) :
  storedCart p = Some cart ->
  badgeShows
    (Script.run encodeURI decodeURI events
       (exec (Script.handle encodeURI decodeURI Script.PageLoad) p))
  /\ badgeShows (run1 events1 (exec Script1.updateCartCount p)).
Proof.
  intros Hcart. split; apply badgeInSync_shows.
  - assert (Hloaded : badgeInSync
      (exec (Script.handle encodeURI decodeURI Script.PageLoad) p)).
    { cbn [Script.handle]. unfold exec.
      rewrite (pageLoad_run _ _ p cart Hcart). cbn [snd].
      apply (inv_replayPendingAdd encodeURI decodeURI
               (fun cart badge => badge = refreshBadge cart badge));
        [apply badgeInSync_step|].
      apply (inv_migrateStoredImages encodeURI decodeURI
               (fun cart badge => badge = refreshBadge cart badge));
        [apply badgeInSync_step|].
      by apply badgeInSync_refreshedPage. }
    revert Hloaded.
    generalize (exec (Script.handle encodeURI decodeURI Script.PageLoad) p).
    induction events as [|e rest IH]; intros q Hq; [exact Hq|].
    cbn. apply IH. by apply badgeInSync_handle.
  - assert (Hloaded : badgeInSync (exec Script1.updateCartCount p)).
    { unfold exec.
      change Script1.updateCartCount with Script.updateCartCount.
      rewrite (updateCartCount_run p cart Hcart). cbn [snd].
      by apply badgeInSync_refreshedPage. }
    revert Hloaded. generalize (exec Script1.updateCartCount p).
    induction events1 as [|e rest IH]; intros q Hq; [exact Hq|].
    cbn. apply IH. by apply badgeInSync_handle1.
Qed.

Lemma X13_badge_follows_cart_witness :
  badgeShows
    (Script.run Some Some
       [ Script.SignIn "ana";
         Script.AddToCart (mkCard "A" "Pen" 100 "") "catalog.html";
         Script.CartQuantityInput "A" "120" ]
       (exec (Script.handle Some Some Script.PageLoad)
          (mkPage emptyStorage (Some (mkBadge (Count 7) 7))))).
Proof.
  exact (proj1 (X13_badge_follows_cart Some Some
    (mkPage emptyStorage (Some (mkBadge (Count 7) 7))) []
    [ Script.SignIn "ana";
      Script.AddToCart (mkCard "A" "Pen" 100 "") "catalog.html";
      Script.CartQuantityInput "A" "120" ] [] eq_refl)).
Defined.

(** ** The stored voucher code *)

Lemma getVoucherByCode_known (c : string) (v : Script.Voucher) :
  Script.getVoucherByCode c = Some v -> knownCode (toUpperCase (trim c)).
Proof.
  rewrite getVoucherByCode_lookup. cbv zeta.
  destruct (String.eqb _ "OFFI2025") eqn:E1;
    [apply String.eqb_eq in E1; by left|].
  destruct (String.eqb _ "BULK10") eqn:E2;
    [apply String.eqb_eq in E2; by right|].
  discriminate.
Qed.

Lemma knownCode_resolves (c : string) :
  knownCode c ->
  exists v, Script.getVoucherByCode c = Some v /\ Script.code v = c.
Proof.
  intros [->| ->]; eexists; split; reflexivity.
Qed.

Lemma handle_knownCode (encodeURI decodeURI : string -> option string)
  (e : Script.Event) (p : Page) :
  (forall c, activeVoucher p = Some c -> knownCode c) ->
  forall c,
    activeVoucher (exec (Script.handle encodeURI decodeURI e) p) = Some c ->
    knownCode c.
Proof.
  intros Hp c. destruct (voucherEvent e) eqn:Hkind.
  - destruct e as [|user|card href|key value|key|listener onclick input|
                   |key value|key|form now|]; try discriminate;
      cbn [Script.handle].
    + rewrite applyVoucherButton_exec.
      destruct (Script.getVoucherByCode input) as [v|] eqn:Hv; [|apply Hp].
      destruct (_ || _); [|apply Hp].
      cbn. intros [= <-]. rewrite <- (getVoucherByCode_code _ _ Hv).
      exact (getVoucherByCode_known input v Hv).
    + rewrite removeVoucherClick_run. discriminate.
    + unfold exec. rewrite doLogout_run. discriminate.
  - rewrite (event_keeps_voucher encodeURI decodeURI e Hkind p). apply Hp.
Qed.

(** X14: the voucher code that the later script keeps in storage is, on
    every page that the events reach, one of the two codes of the table,
    in the table's spelling: so it resolves to the voucher with that very
    code, and [getActiveVoucherCode] returns it as stored. *)
Theorem X14_active_voucher_known
  (encodeURI decodeURI : string -> option string) (p : Page) (c : string) :
  Script.reachable encodeURI decodeURI p ->
  activeVoucher p = Some c ->
  knownCode c
  /\ result Script.getActiveVoucherCode p = Ok (Some c)
  /\ exists v, Script.getVoucherByCode c = Some v /\ Script.code v = c.
Proof.
  intros Hreach Hc.
  assert (Hknown : knownCode c).
  { revert c Hc. induction Hreach as [badge|p e _ _ IH]; [discriminate|].
    by apply handle_knownCode. }
  split; [exact Hknown|]. split; [|by apply knownCode_resolves].
  unfold result, Script.getActiveVoucherCode, mbind, M_bind, getStorage.
  cbn. unfold activeVoucher in Hc. rewrite Hc.
  by destruct Hknown as [->| ->].
Qed.

Lemma X14_active_voucher_known_witness :
  knownCode "OFFI2025".
Proof.
  apply (X14_active_voucher_known Some Some
    (Script.run Some Some
       [ Script.SignIn "ana";
         Script.AddToCart (mkCard "A" "Desk" 600 "") "catalog.html";
         Script.ApplyVoucher None
           (Some [mkItem "A" "Desk" 600 "" 1]) " offi2025 " ]
       (mkPage emptyStorage None)) "OFFI2025").
  - cbn [Script.run fold_left].
    repeat (apply Script.reachable_event; [exact I|]).
    apply Script.reachable_fresh.
  - reflexivity.
Defined.

(** ** The header shrink *)

Section HeaderShrinkProperties.

Import HeaderShrink.

Variable prefersReduced : bool.

Lemma updateHeader_settled (st : State) :
  frames st = O -> headerSettled (updateHeader st).
Proof.
  intros Hframes. unfold headerSettled, updateHeader. cbn.
  repeat split; [exact Hframes|].
  by destruct (Qltb SHRINK_THRESHOLD (scrollY st)), (shrunk st).
Qed.

Lemma setup_settled (isShrunk : bool) (y : Q) :
  headerSettled (setup isShrunk y).
Proof. by apply updateHeader_settled. Qed.

Lemma step_states (e : Event) (st : State) :
  headerSettled st \/ (prefersReduced = false /\ headerPending st) ->
  headerSettled (step prefersReduced e st)
  \/ (prefersReduced = false /\ headerPending (step prefersReduced e st)).
Proof.
  destruct st as [sh t l y n].
  intros [(Ht & Hn & Hsh & Hl)|(Hmode & Ht & Hn)]; cbn in *; subst.
  - destruct e as [y'|]; cbn.
    + unfold onScroll. cbn. rewrite andb_false_r.
      destruct prefersReduced.
      * left. by apply updateHeader_settled.
      * right. by repeat split.
    + left. by repeat split.
  - destruct e as [y'|]; cbn.
    + unfold onScroll. cbn. rewrite andb_true_r.
      destruct (Qltb _ 8); right; by repeat split.
    + left. by apply updateHeader_settled.
Qed.

Lemma run_states (events : list Event) (st : State) :
  headerSettled st \/ (prefersReduced = false /\ headerPending st) ->
  headerSettled (run prefersReduced events st)
  \/ (prefersReduced = false /\ headerPending (run prefersReduced events st)).
Proof.
  revert st. induction events as [|e rest IH]; intros st Hst; [exact Hst|].
  cbn. by apply IH, step_states.
Qed.

End HeaderShrinkProperties.

(** X15: the header shrink, from its set-up through every sequence of
    scroll events and animation frames.  At most one [updateHeader]
    callback is queued, and one is queued exactly when [ticking] is set.
    When none is queued the header has the class [shrunk] exactly when
    the window is scrolled past 100 pixels, and [lastScrollY] is the
    scroll position.  Under reduced motion nothing is ever queued, so the
    header follows every scroll at once.  Otherwise the header is right
    again after the next animation frame.  The dead zone test of
    [onScroll] never changes what a scroll does. *)
Theorem X15_header_shrink (prefersReduced isShrunk : bool) (y0 : Q)
  (events : list HeaderShrink.Event) :
  let st :=
    HeaderShrink.run prefersReduced events (HeaderShrink.setup isShrunk y0) in
  (HeaderShrink.frames st <= 1)%nat
  /\ HeaderShrink.ticking st = Nat.eqb (HeaderShrink.frames st) 1
  /\ (if Nat.eqb (HeaderShrink.frames st) 0
      then headerSettled st else headerPending st)
  /\ (if prefersReduced then HeaderShrink.frames st = O else True)
  /\ headerSettled
       (HeaderShrink.step prefersReduced HeaderShrink.AnimationFrame st)
  /\ forall y,
       HeaderShrink.step prefersReduced (HeaderShrink.Scroll y) st
       = onScrollPlain prefersReduced (scrolledTo y st).
Proof.
  intros st.
  pose proof (run_states prefersReduced events (HeaderShrink.setup isShrunk y0)
                (or_introl (setup_settled isShrunk y0))) as Hst.
  fold st in Hst.
  pose proof (step_states prefersReduced HeaderShrink.AnimationFrame st Hst)
    as Hnext.
  assert (Hframe : headerSettled
            (HeaderShrink.step prefersReduced HeaderShrink.AnimationFrame st)).
  { destruct Hnext as [H|(_ & Ht & Hn)]; [exact H|].
    exfalso. clear Hst. destruct st as [sh t l y n].
    cbn in Ht. destruct n; cbn in Ht, Hn; [discriminate|].
    discriminate. }
  clear Hnext. destruct st as [sh t l y n].
  destruct Hst as [(Ht & Hn & Hsh & Hl)|(Hmode & Ht & Hn)]; cbn in *; subst.
  - split; [lia|]. split; [reflexivity|].
    split; [by repeat split|]. split; [by destruct prefersReduced|].
    split; [exact Hframe|].
    intros y'. unfold HeaderShrink.onScroll, onScrollPlain, scrolledTo.
    cbn. by rewrite andb_false_r.
  - split; [lia|]. split; [reflexivity|].
    split; [by split|]. split; [exact I|].
    split; [exact Hframe|].
    intros y'. unfold HeaderShrink.onScroll, onScrollPlain, scrolledTo.
    cbn. rewrite andb_true_r. by destruct (Qltb _ 8).
Qed.

(** ** The number of items *)

Lemma sumQuantity_app (cart more : Cart) :
  sumQuantity (cart ++ more) = sumQuantity cart + sumQuantity more.
Proof.
  induction cart as [|item rest IH]; [reflexivity|].
  cbn [app sumQuantity]. rewrite IH. lia.
Qed.

Lemma sumQuantity_updateFound (key : string) (f : CartItem -> CartItem)
  (cart : Cart) (existing : CartItem) :
  findById key cart = Some existing ->
  sumQuantity (updateFound key f cart)
  = sumQuantity cart - quantity existing + quantity (f existing).
Proof.
  intros Hfind.
  destruct (updateFound_found key f cart existing Hfind)
    as (before & after & -> & _ & _ & ->).
  rewrite !sumQuantity_app. cbn [sumQuantity]. lia.
Qed.

Lemma sumQuantity_filterOut (key : string) (cart : Cart)
  (existing : CartItem) :
  uniqueIds cart -> findById key cart = Some existing ->
  sumQuantity (filterOut key cart) = sumQuantity cart - quantity existing.
Proof.
  unfold uniqueIds. induction cart as [|first rest IH]; [discriminate|].
  cbn. intros H. inversion H as [|? ? Hnotin Hrest]; subst.
  destruct (String.eqb (id first) key) eqn:E; cbn.
  - intros [= <-]. apply String.eqb_eq in E.
    fold (filterOut key rest). rewrite filterOut_absent; [lia|].
    destruct (findById key rest) as [other|] eqn:F; [|reflexivity].
    exfalso. apply Hnotin. rewrite E.
    pose proof (find_some _ _ F) as [Hin Hkey].
    apply String.eqb_eq in Hkey. rewrite <- Hkey. by apply in_map.
  - intros Hfind. fold (filterOut key rest).
    rewrite (IH Hrest Hfind). lia.
Qed.

Lemma sumQuantity_incrementOrPush
  (encodeURI decodeURI : string -> option string)
  (item : CartItem) (cart : Cart) :
  sumQuantity (Script.incrementOrPush encodeURI decodeURI item cart)
  = sumQuantity cart + quantity item.
Proof.
  unfold Script.incrementOrPush.
  destruct (findById (id item) cart) as [existing|] eqn:Hfind.
  - rewrite (sumQuantity_updateFound _ _ _ existing Hfind). cbn. lia.
  - rewrite sumQuantity_app. cbn. rewrite normalizeImage_quantity. lia.
Qed.

Lemma sumQuantity_incrementOrPush1 (item : CartItem) (cart : Cart) :
  sumQuantity (Script1.incrementOrPush item cart)
  = sumQuantity cart + quantity item.
Proof.
  unfold Script1.incrementOrPush.
  destruct (findById (id item) cart) as [existing|] eqn:Hfind.
  - rewrite (sumQuantity_updateFound _ _ _ existing Hfind). cbn. lia.
  - rewrite sumQuantity_app. cbn. lia.
Qed.

Lemma countIs_savedPage (cart : Cart) (p : Page) (n : Z) :
  sumQuantity cart = n -> countIs n (savedPage cart p).
Proof.
  intros <-. exists cart. split; [reflexivity|]. split; [reflexivity|].
  cbn. destruct (cart_count p); [|exact I]. cbn.
  by rewrite reduceQuantity_sum.
Qed.

(** X16: how the handlers move the number of items, from a page whose
    stored cart [cart] has one line for each id.  A click on an
    add-to-cart button by a logged-in user gives one item more, in
    script1.js by anyone; a quantity typed for a line of the cart page
    replaces the quantity of that line in the count; a remove button
    takes the quantity of its line off the count.  Each time the badge,
    if the page has one, shows the new count. *)
Theorem X16_item_count (encodeURI decodeURI : string -> option string)
  (p : Page) (cart : Cart)
  (Hcart : storedCart p = Some cart) (Hunique : uniqueIds cart) :
  (forall card href,
      loggedIn p = true ->
      countIs (sumQuantity cart + 1)
        (exec (Script.addToCartClick encodeURI decodeURI card href) p))
  /\ (forall card,
        countIs (sumQuantity cart + 1) (exec (Script1.addToCartClick card) p))
  /\ (forall key value existing,
        findById key cart = Some existing ->
        countIs (sumQuantity cart - quantity existing
                 + Script.parseQuantity value)
          (exec (Script.cartQuantityChange key value) p))
  /\ (forall key existing,
        findById key cart = Some existing ->
        countIs (sumQuantity cart - quantity existing)
          (exec (Script.cartRemoveClick key) p)
        /\ countIs (sumQuantity cart - quantity existing)
             (exec (Script.checkoutRemoveClick key) p)
        /\ countIs (sumQuantity cart - quantity existing)
             (exec (Script1.removeClick key) p)).
Proof.
  split; [|split; [|split]].
  - intros card href Hin. unfold exec.
    rewrite addToCartClick_run, Hin, addItemToCart_run, Hcart. cbn [snd].
    apply countIs_savedPage. by rewrite sumQuantity_incrementOrPush.
  - intros card. unfold exec, Script1.addToCartClick.
    rewrite Script1_addItemToCart_run, Hcart. cbn [snd].
    apply countIs_savedPage. by rewrite sumQuantity_incrementOrPush1.
  - intros key value existing Hfind.
    rewrite (cartQuantityChange_run key value p cart Hcart).
    apply countIs_savedPage.
    by rewrite (sumQuantity_updateFound _ _ _ existing Hfind).
  - intros key existing Hfind.
    pose proof (sumQuantity_filterOut key cart existing Hunique Hfind) as Hsum.
    split; [|split].
    + rewrite (cartRemoveClick_run key p cart Hcart).
      by apply countIs_savedPage.
    + unfold exec. rewrite (checkoutRemoveClick_run key p cart Hcart).
      by apply countIs_savedPage.
    + unfold Script1.removeClick. rewrite (removeItem1_run key p cart Hcart).
      by apply countIs_savedPage.
Qed.

Lemma X16_item_count_witness :
  countIs 2
    (exec (Script.cartRemoveClick "A")
       (savedPage [mkItem "A" "Pen" 100 "" 3; mkItem "B" "Ink" 50 "" 2]
          (mkPage emptyStorage (Some (mkBadge (Count 0) 0))))).
Proof.
  destruct (X16_item_count Some Some
    (savedPage [mkItem "A" "Pen" 100 "" 3; mkItem "B" "Ink" 50 "" 2]
       (mkPage emptyStorage (Some (mkBadge (Count 0) 0))))
    [mkItem "A" "Pen" 100 "" 3; mkItem "B" "Ink" 50 "" 2] eq_refl)
    as (_ & _ & _ & Hremove).
  - repeat constructor; cbn; intros H;
      repeat (destruct H as [H|H]; [discriminate|]); exact H.
  - exact (proj1 (Hremove "A" (mkItem "A" "Pen" 100 "" 3) eq_refl)).
Defined.

(** * The cart page: which cart the Apply button checks *)

Section CartPageFacts.

Import CartPage.

Lemma withPage_same (d : Document) : withPage (page d) d = d.
Proof. by destruct d. Qed.

Lemma page_rendered (d : Document) : page (rendered d) = page d.
Proof.
  unfold rendered. destruct (result _ _) as [[|item cart]|e]; reflexivity.
Qed.

Lemma controls_rendered (d : Document) :
  controls d = true -> controls (rendered d) = true.
Proof.
  unfold rendered. destruct (result _ _) as [[|item cart]|e]; by cbn.
Qed.

Lemma listener_rendered (d : Document) :
  controls d = true -> listener (rendered d) = listener d.
Proof.
  unfold rendered. intros Hc.
  destruct (result _ _) as [[|item cart]|e]; cbn; by rewrite ?Hc.
Qed.

Lemma listenerInjected_rendered (d : Document) :
  listenerInjected d -> listenerInjected (rendered d).
Proof.
  unfold listenerInjected, rendered. intros Hd.
  destruct (result _ _) as [[|item cart]|e]; cbn; done.
Qed.

Lemma holdsShownCart_rendered (d : Document) : holdsShownCart (rendered d).
Proof.
  intros cart. rewrite page_rendered. intros Hcart Hne.
  unfold rendered, result. rewrite (getCartItems_ok _ _ Hcart). cbn [fst].
  by destruct cart.
Qed.

Lemma passesChecks_spec (cart : Cart) (input : string) :
  passesChecks cart input =
    match Script.getVoucherByCode input with
    | Some v => qualifies v (Some cart)
    | None => false
    end.
Proof.
  unfold passesChecks. cbv zeta. rewrite getVoucherByCode_normalised.
  destruct (Script.getVoucherByCode input) as [v|] eqn:Hv;
    [|by rewrite andb_false_r].
  rewrite (getVoucherByCode_code _ _ Hv).
  assert (Hne : isEmpty (Script.code v) = false)
    by (destruct (getVoucherByCode_Some _ _ Hv) as [-> | ->]; reflexivity).
  rewrite Hne. cbn [negb andb qualifies].
  rewrite <- (getVoucherByCode_code _ _ Hv).
  rewrite <- getVoucherByCode_normalised in Hv.
  by rewrite (discount_positive_iff cart _ v Hv).
Qed.

Lemma page_applyHandler (cart : Cart) (input : string) (d : Document) :
  page (applyHandler cart input d)
  = exec (Script.applyVoucherClick cart input) (page d).
Proof.
  unfold applyHandler. cbv zeta.
  destruct (passesChecks cart input); [by rewrite page_rendered | reflexivity].
Qed.

Lemma applyHandler_rejected (cart : Cart) (input : string) (d : Document) :
  passesChecks cart input = false -> applyHandler cart input d = d.
Proof.
  intros Hno. unfold applyHandler. cbv zeta. rewrite Hno.
  rewrite applyVoucherClick_page. rewrite passesChecks_spec in Hno.
  destruct (Script.getVoucherByCode input) as [v|]; [rewrite Hno|];
    apply withPage_same.
Qed.

(** The page after a click on Apply. *)
Lemma page_clickApply (input : string) (d : Document) :
  page (clickApply input d) =
    match Script.getVoucherByCode input with
    | Some v =>
        if qualifies v (onclick d) || qualifies v (listener d)
        then withVoucher (Script.code v) (page d)
        else page d
    | None => page d
    end.
Proof.
  unfold clickApply. cbv zeta.
  assert (Hsecond : forall d1,
    page match onclick d1 with
         | Some cart => applyHandler cart input d1
         | None => d1
         end
    = match Script.getVoucherByCode input with
      | Some v =>
          if qualifies v (onclick d1) then withVoucher (Script.code v) (page d1)
          else page d1
      | None => page d1
      end).
  { intros d1. destruct (onclick d1) as [cart|].
    - by rewrite page_applyHandler, applyVoucherClick_page.
    - by destruct (Script.getVoucherByCode input). }
  rewrite Hsecond. destruct (listener d) as [cart0|] eqn:Hl.
  - destruct (passesChecks cart0 input) eqn:Hpass.
    + rewrite page_applyHandler, applyVoucherClick_page.
      rewrite passesChecks_spec in Hpass.
      destruct (Script.getVoucherByCode input) as [v|]; [|discriminate].
      rewrite Hpass, orb_true_r.
      by destruct (qualifies v (onclick _)).
    + rewrite (applyHandler_rejected _ _ _ Hpass).
      rewrite passesChecks_spec in Hpass.
      destruct (Script.getVoucherByCode input) as [v|]; [|reflexivity].
      by rewrite Hpass, orb_false_r.
  - destruct (Script.getVoucherByCode input) as [v|]; [|reflexivity].
    cbn [qualifies]. by rewrite orb_false_r.
Qed.

(** The handlers that end with a render. *)

Lemma thenRendered_holds (m : M unit) (d : Document) :
  (forall e q, m (page d) = (Throw e, q) -> storedCart q = None) ->
  holdsShownCart (thenRendered m d).
Proof.
  intros Hthrow. unfold thenRendered.
  destruct (m (page d)) as [[[]|e] q] eqn:E.
  - apply holdsShownCart_rendered.
  - intros cart Hcart. cbn in Hcart. rewrite (Hthrow e q eq_refl) in Hcart.
    discriminate.
Qed.

Lemma thenRendered_listener (m : M unit) (d : Document) :
  (listenerInjected d -> listenerInjected (thenRendered m d))
  /\ (controls d = true ->
      controls (thenRendered m d) = true
      /\ listener (thenRendered m d) = listener d).
Proof.
  unfold thenRendered. destruct (m (page d)) as [[[]|e] q]; split; try done.
  - apply (listenerInjected_rendered (withPage q d)).
  - intros Hc. split.
    + by apply (controls_rendered (withPage q d)).
    + by apply (listener_rendered (withPage q d)).
Qed.

Lemma renderCart_run (p : Page) :
  Script.renderCart p =
    match storedCart p with
    | Some _ => (Ok tt, p)
    | None => (Throw SyntaxError, p)
    end.
Proof.
  unfold Script.renderCart, mbind, M_bind. rewrite getCartItems_run.
  destruct (storedCart p) as [[|item cart]|]; try reflexivity.
  by destruct (calculateCartTotals_run (item :: cart) p) as (t & -> & _).
Qed.

Lemma cartQuantityChange_throws (key value : string) (p q : Page) (e : Exn) :
  Script.cartQuantityChange key value p = (Throw e, q) -> storedCart q = None.
Proof.
  unfold Script.cartQuantityChange. cbv zeta. unfold mbind, M_bind.
  destruct (storedCart p) as [cart|] eqn:Hcart.
  - rewrite (updateQuantity_run _ _ _ _ Hcart), renderCart_run.
    by rewrite storedCart_savedPage.
  - unfold Script.updateQuantity, mbind, M_bind.
    rewrite getCartItems_run, Hcart. by intros [= _ <-].
Qed.

Lemma cartRemoveClick_throws (key : string) (p q : Page) (e : Exn) :
  Script.cartRemoveClick key p = (Throw e, q) -> storedCart q = None.
Proof.
  unfold Script.cartRemoveClick. unfold mbind, M_bind.
  destruct (storedCart p) as [cart|] eqn:Hcart.
  - rewrite (removeItem_run _ _ _ Hcart), renderCart_run.
    by rewrite storedCart_savedPage.
  - unfold Script.removeItem, mbind, M_bind.
    rewrite getCartItems_run, Hcart. by intros [= _ <-].
Qed.

Lemma removeVoucherClick_throws (p q : Page) (e : Exn) :
  Script.removeVoucherClick p = (Throw e, q) -> storedCart q = None.
Proof.
  unfold Script.removeVoucherClick, Script.clearActiveVoucher, mbind, M_bind,
    modifyStorage.
  rewrite renderCart_run.
  destruct (storedCart _) eqn:Hcart; [discriminate|]. by intros [= _ <-].
Qed.

(** Every step keeps the [onclick] handler on the cart shown, and never
    replaces a listener. *)
Lemma step_holds (e : Event) (d : Document) :
  holdsShownCart d -> holdsShownCart (step e d).
Proof.
  intros Hd. destruct e as [key value|key|input|]; cbn [step].
  - apply thenRendered_holds. intros e q. apply cartQuantityChange_throws.
  - apply thenRendered_holds. intros e q. apply cartRemoveClick_throws.
  - unfold clickApply. cbv zeta.
    assert (Hone : forall cart d1,
      holdsShownCart d1 -> holdsShownCart (applyHandler cart input d1)).
    { intros cart d1 Hd1. destruct (passesChecks cart input) eqn:Hpass.
      - unfold applyHandler. cbv zeta. rewrite Hpass.
        apply holdsShownCart_rendered.
      - by rewrite (applyHandler_rejected _ _ _ Hpass). }
    assert (Hfirst : holdsShownCart
      match listener d with
      | Some cart => applyHandler cart input d
      | None => d
      end) by (destruct (listener d); [by apply Hone | exact Hd]).
    destruct (onclick _); [by apply Hone | exact Hfirst].
  - unfold clickRemoveVoucher. cbv zeta.
    assert (Hone : forall d1,
      holdsShownCart (thenRendered Script.removeVoucherClick d1)).
    { intros d1. apply thenRendered_holds. intros e q.
      apply removeVoucherClick_throws. }
    assert (Hfirst : holdsShownCart
      match listener d with
      | Some _ => thenRendered Script.removeVoucherClick d
      | None => d
      end) by (destruct (listener d); [apply Hone | exact Hd]).
    destruct (onclick _); [apply Hone | exact Hfirst].
Qed.

Lemma applyHandler_listener (cart : Cart) (input : string) (d : Document) :
  (listenerInjected d -> listenerInjected (applyHandler cart input d))
  /\ (controls d = true ->
      controls (applyHandler cart input d) = true
      /\ listener (applyHandler cart input d) = listener d).
Proof.
  unfold applyHandler. cbv zeta.
  destruct (passesChecks cart input); split; try done.
  - apply (listenerInjected_rendered (withPage _ d)).
  - intros Hc. split.
    + by apply (controls_rendered (withPage _ d)).
    + by apply (listener_rendered (withPage _ d)).
Qed.

Lemma held_listener (h : Cart -> Document -> Document)
  (held : option Cart) (d : Document) :
  (forall cart d0,
      (listenerInjected d0 -> listenerInjected (h cart d0))
      /\ (controls d0 = true ->
          controls (h cart d0) = true /\ listener (h cart d0) = listener d0)) ->
  (listenerInjected d ->
   listenerInjected match held with Some cart => h cart d | None => d end)
  /\ (controls d = true ->
      controls match held with Some cart => h cart d | None => d end = true
      /\ listener match held with Some cart => h cart d | None => d end
         = listener d).
Proof. intros Hh. destruct held as [cart|]; [apply Hh | done]. Qed.

Lemma twice_listener (h : Cart -> Document -> Document) (d : Document) :
  (forall cart d0,
      (listenerInjected d0 -> listenerInjected (h cart d0))
      /\ (controls d0 = true ->
          controls (h cart d0) = true /\ listener (h cart d0) = listener d0)) ->
  let d1 := match listener d with Some cart => h cart d | None => d end in
  let d2 := match onclick d1 with Some cart => h cart d1 | None => d1 end in
  (listenerInjected d -> listenerInjected d2)
  /\ (controls d = true -> controls d2 = true /\ listener d2 = listener d).
Proof.
  intros Hh d1 d2.
  destruct (held_listener h (listener d) d Hh) as [Hinj Hkeep].
  destruct (held_listener h (onclick d1) d1 Hh) as [Hinj' Hkeep'].
  split; [by intros H; apply Hinj', Hinj|].
  intros Hc. destruct (Hkeep Hc) as [Hc1 Hl1].
  destruct (Hkeep' Hc1) as [Hc2 Hl2]. split; [exact Hc2|].
  unfold d2. rewrite Hl2. exact Hl1.
Qed.

Lemma step_listener (e : Event) (d : Document) :
  (listenerInjected d -> listenerInjected (step e d))
  /\ (controls d = true ->
      controls (step e d) = true /\ listener (step e d) = listener d).
Proof.
  destruct e as [key value|key|input|]; cbn [step];
    try apply thenRendered_listener.
  - apply (twice_listener (fun cart => applyHandler cart input) d).
    intros cart d0. apply applyHandler_listener.
  - apply (twice_listener
             (fun _ => thenRendered Script.removeVoucherClick) d).
    intros _ d0. apply thenRendered_listener.
Qed.

Lemma run_holds (events : list Event) (d : Document) :
  holdsShownCart d -> holdsShownCart (run events d).
Proof.
  revert d. induction events as [|e rest IH]; intros d Hd; [exact Hd|].
  cbn. by apply IH, step_holds.
Qed.

Lemma run_listener (events : list Event) (d : Document) :
  (listenerInjected d -> listenerInjected (run events d))
  /\ (controls d = true ->
      controls (run events d) = true /\ listener (run events d) = listener d).
Proof.
  revert d. induction events as [|e rest IH]; intros d; [done|].
  cbn [run fold_left]. fold (run rest (step e d)).
  destruct (step_listener e d) as [Hinj Hkeep].
  destruct (IH (step e d)) as [Hinj' Hkeep'].
  split; [by intros H; apply Hinj', Hinj|].
  intros Hc. destruct (Hkeep Hc) as [Hc1 Hl1].
  destruct (Hkeep' Hc1) as [Hc2 Hl2]. split; [exact Hc2|]. congruence.
Qed.

Lemma run_keeps_listener (events : list Event) (d : Document) (cart : Cart) :
  listenerInjected d -> listener d = Some cart ->
  listener (run events d) = Some cart.
Proof.
  intros Hinj Hl. destruct (run_listener events d) as [_ Hkeep].
  destruct Hkeep as [_ ->]; [|exact Hl]. apply Hinj. by rewrite Hl.
Qed.

(** The load of the cart page. *)

Section Load.

Variables encodeURI decodeURI : string -> option string.

Local Abbreviation migrateStoredImages :=
  (Script.migrateStoredImages encodeURI decodeURI).
Local Abbreviation replayPendingAdd :=
  (Script.replayPendingAdd encodeURI decodeURI).
Local Abbreviation load := (load encodeURI decodeURI).

Lemma migrated_run (p : Page) :
  migrated encodeURI decodeURI p =
    match storedCart p with
    | Some cart => (Ok tt, exec migrateStoredImages (refreshedPage cart p))
    | None => (Throw SyntaxError, p)
    end.
Proof.
  unfold migrated. destruct (storedCart p) as [cart|] eqn:Hcart.
  - unfold mbind, M_bind. rewrite (updateCartCount_run p cart Hcart).
    assert (Hcart' : storedCart (refreshedPage cart p) = Some cart)
      by exact Hcart.
    unfold try_catch, exec.
    by rewrite (migrateStoredImages_run _ _ _ _ Hcart').
  - unfold mbind, M_bind, Script.updateCartCount.
    unfold mbind at 1, M_bind at 1. by rewrite getCartItems_run, Hcart.
Qed.

Lemma load_run (static : bool) (p : Page) :
  load static p =
    match storedCart p with
    | Some cart =>
        let q := exec migrateStoredImages (refreshedPage cart p) in
        let d := rendered (mkDocument q static None None) in
        match pendingToReplay q with
        | Some _ => rendered (withPage (exec replayPendingAdd q) d)
        | None => d
        end
    | None => mkDocument p static None None
    end.
Proof.
  unfold CartPage.load. rewrite migrated_run.
  destruct (storedCart p) as [cart|] eqn:Hcart; [|reflexivity].
  assert (Hcart' : storedCart (refreshedPage cart p) = Some cart)
    by exact Hcart.
  destruct (migrateStoredImages_storedCart encodeURI decodeURI _ _ Hcart')
    as [Hq _].
  rewrite renderCart_run, Hq. cbv zeta.
  destruct (pendingToReplay _) eqn:Hpending; [reflexivity|].
  unfold exec at 1. rewrite (replayPendingAdd_run _ _ _ _ Hq), Hpending.
  cbn [snd].
  set (q := exec migrateStoredImages (refreshedPage cart p)).
  pose proof (page_rendered (mkDocument q static None None)) as Hpage.
  cbn [page] in Hpage. rewrite <- Hpage at 1. apply withPage_same.
Qed.

Lemma page_load (static : bool) (p : Page) :
  page (load static p)
  = exec (Script.handle encodeURI decodeURI Script.PageLoad) p.
Proof.
  rewrite load_run. cbn [Script.handle].
  destruct (storedCart p) as [cart|] eqn:Hcart.
  - assert (Hload : exec (Script.pageLoad encodeURI decodeURI) p
                    = exec replayPendingAdd
                        (exec migrateStoredImages (refreshedPage cart p))).
    { unfold exec at 1. by rewrite (pageLoad_run _ _ p cart Hcart). }
    rewrite Hload. cbv zeta.
    assert (Hcart' : storedCart (refreshedPage cart p) = Some cart)
      by exact Hcart.
    destruct (migrateStoredImages_storedCart encodeURI decodeURI _ _ Hcart')
      as [Hq _].
    destruct (pendingToReplay _) eqn:Hpending.
    + by rewrite page_rendered.
    + rewrite page_rendered. cbn [page]. unfold exec at 2.
      by rewrite (replayPendingAdd_run _ _ _ _ Hq), Hpending.
  - unfold exec, Script.pageLoad, mbind, M_bind, Script.updateCartCount.
    unfold mbind at 1, M_bind at 1. by rewrite getCartItems_run, Hcart.
Qed.

Lemma load_holds (static : bool) (p : Page) : holdsShownCart (load static p).
Proof.
  rewrite load_run. destruct (storedCart p) as [cart|] eqn:Hcart.
  - cbv zeta. destruct (pendingToReplay _); apply holdsShownCart_rendered.
  - intros cart. cbn. by rewrite Hcart.
Qed.

Lemma load_listener (static : bool) (p : Page) :
  listenerInjected (load static p)
  /\ (static = true ->
      controls (load static p) = true /\ listener (load static p) = None).
Proof.
  rewrite load_run. destruct (storedCart p) as [cart|] eqn:Hcart.
  - cbv zeta.
    set (d := rendered (mkDocument _ static None None)).
    assert (Hd : listenerInjected d
                 /\ (static = true -> controls d = true /\ listener d = None)).
    { unfold d. split; [apply listenerInjected_rendered; by intros H|].
      intros ->. split; [by apply controls_rendered|].
      by rewrite listener_rendered. }
    destruct Hd as [Hinj Hstatic].
    destruct (pendingToReplay _); [|by split].
    split; [by apply (listenerInjected_rendered (withPage _ d))|].
    intros Hs. destruct (Hstatic Hs) as [Hc Hl]. split.
    + by apply (controls_rendered (withPage _ d)).
    + by rewrite (listener_rendered (withPage _ d)).
  - split; [by intros H|]. by intros ->.
Qed.

Lemma load_first (p : Page) (cart : Cart) :
  storedCart p = Some cart -> cart <> [] ->
  listener (load false p)
  = Some (map (Script.normalizeImage encodeURI decodeURI) cart).
Proof.
  intros Hcart Hne. rewrite load_run, Hcart. cbv zeta.
  assert (Hcart' : storedCart (refreshedPage cart p) = Some cart)
    by exact Hcart.
  destruct (migrateStoredImages_storedCart encodeURI decodeURI _ _ Hcart')
    as [Hq _].
  set (q := exec migrateStoredImages (refreshedPage cart p)) in *.
  assert (Hd : controls (rendered (mkDocument q false None None)) = true
               /\ listener (rendered (mkDocument q false None None))
                  = Some (map (Script.normalizeImage encodeURI decodeURI) cart)).
  { unfold rendered, result. cbn [page].
    rewrite (getCartItems_ok _ _ Hq). cbn [fst].
    destruct cart as [|item cart]; [done|]. by split. }
  destruct Hd as [Hc Hl].
  destruct (pendingToReplay q); [|exact Hl].
  by rewrite (listener_rendered (withPage _ _)).
Qed.

End Load.

End CartPageFacts.

(** C4, counterexample: the cart page loads with product A (price 100)
    twice in the cart, and the user applies the code OFFI2025 (minimum
    spend 500).  The code is in the voucher table, the subtotal is 200, and
    the click does not store the code, whether the voucher controls are
    part of the page or injected by the script.  (The product has no
    image, so the URL functions of the browser are never called.) *)
Lemma C4_counterexample :
  let p :=
    savedPage [mkItem "A" "Pen" 100 "" 2] (mkPage emptyStorage None) in
  let after static :=
    CartPage.page
      (CartPage.step (CartPage.Apply "OFFI2025")
         (CartPage.load Some Some static p)) in
  storedCart p = Some [mkItem "A" "Pen" 100 "" 2]
  /\ Script.getVoucherByCode "OFFI2025" = Some Script.OFFI2025
  /\ (reduceSubtotal [mkItem "A" "Pen" 100 "" 2] == 200)%Q
  /\ activeVoucher (after true) = None
  /\ activeVoucher (after false) = None.
Proof. cbv zeta. repeat split; reflexivity. Qed.

(** C4, amended: the handlers of the Apply button check eligibility when
    the code is set, each against the cart of the render that made it.
    After the cart page has loaded and through every sequence of quantity
    changes, removals and voucher clicks, a click on Apply stores the
    code of the voucher (the trimmed, upper-case text) exactly when the
    text resolves to a voucher and the subtotal of a cart that one of the
    two handlers holds reaches the voucher's minSpend; otherwise (a blank
    text, a text that resolves to no voucher, a minSpend that neither
    cart meets) it leaves the page as it was.  The [onclick] handler holds
    the cart shown.  The click listener exists only where the script
    injected the voucher controls, and there it holds, for good, the cart
    that was stored when the page loaded.  On a page without it the code
    is stored exactly when the cart shown reaches the minSpend.  The
    totals evaluate eligibility again from the stored code each time they
    are computed, without changing the stored code. *)
Theorem C4_applyVoucherClick (encodeURI decodeURI : string -> option string)
  (static : bool) (p : Page) (events : list CartPage.Event) (input : string) :
  let d := CartPage.run events (CartPage.load encodeURI decodeURI static p) in
  let d' := CartPage.step (CartPage.Apply input) d in
  CartPage.page d' =
    match Script.getVoucherByCode input with
    | Some v =>
        if qualifies v (CartPage.onclick d) || qualifies v (CartPage.listener d)
        then withVoucher (Script.code v) (CartPage.page d)
        else CartPage.page d
    | None => CartPage.page d
    end
  /\ CartPage.page d' =
       exec (Script.handle encodeURI decodeURI
               (Script.ApplyVoucher (CartPage.listener d) (CartPage.onclick d)
                  input))
         (CartPage.page d)
  /\ holdsShownCart d
  /\ (static = true -> CartPage.listener d = None)
  /\ (static = false ->
      forall cart, storedCart p = Some cart -> cart <> [] ->
        CartPage.listener d
        = Some (map (Script.normalizeImage encodeURI decodeURI) cart))
  /\ (CartPage.listener d = None ->
      forall cart v,
        storedCart (CartPage.page d) = Some cart -> cart <> [] ->
        Script.getVoucherByCode input = Some v ->
        activeVoucher (CartPage.page d') =
          if Qltb (reduceSubtotal cart) (Script.minSpend v)
          then activeVoucher (CartPage.page d)
          else Some (toUpperCase (trim input)))
  /\ (forall (later : Cart) (q : Page) (c : string),
        activeVoucher q = Some c -> isEmpty c = false ->
        exists t,
          Script.calculateCartTotals later q = (Ok t, q)
          /\ Script.appliedVoucher t = Some c
          /\ Script.discount t = Script.calculateVoucherDiscount later c).
Proof.
  cbv zeta.
  set (d := CartPage.run events (CartPage.load encodeURI decodeURI static p)).
  assert (Hshown : holdsShownCart d)
    by apply run_holds, load_holds.
  destruct (load_listener encodeURI decodeURI static p) as [Hinj Hstatic].
  split; [apply page_clickApply|].
  split.
  { cbn [CartPage.step Script.handle].
    by rewrite page_clickApply, applyVoucherButton_exec. }
  split; [exact Hshown|]. split.
  { intros Hs. destruct (Hstatic Hs) as [Hc Hl].
    destruct (run_listener events
                (CartPage.load encodeURI decodeURI static p)) as [_ Hkeep].
    destruct (Hkeep Hc) as [_ Hsame]. unfold d. by rewrite Hsame. }
  split.
  { intros -> cart Hcart Hne.
    apply run_keeps_listener; [exact Hinj|]. by apply load_first. }
  split.
  { intros Hl cart v Hcart Hne Hv. cbn [CartPage.step].
    rewrite page_clickApply, Hv, Hl, (Hshown cart Hcart Hne).
    cbn [qualifies]. rewrite orb_false_r.
    rewrite (getVoucherByCode_code _ _ Hv).
    by destruct (Qltb _ _). }
  intros later [s b] c Hq Hne.
  unfold activeVoucher in Hq. cbn in Hq.
  unfold Script.calculateCartTotals, Script.getActiveVoucherCode,
    getStorage, mbind, M_bind, mret, M_ret.
  cbn. rewrite Hq, Hne. eexists. repeat split.
Qed.

(** A page that loads with two pens at 300 each in the cart, after which
    the quantity is set to 1: the cart shown is worth 300.  Where the
    voucher controls are part of the page, OFFI2025 (minimum spend 500)
    is rejected.  Where the script injected them, the click listener
    still holds the cart of the load, worth 600, and stores the code. *)
Lemma C4_applyVoucherClick_witness :
  let p := savedPage [mkItem "A" "Pen" 300 "" 2] (mkPage emptyStorage None) in
  let after static :=
    CartPage.step (CartPage.Apply " offi2025 ")
      (CartPage.run [CartPage.QuantityInput "A" "1"]
         (CartPage.load Some Some static p)) in
  storedCart (CartPage.page (after true)) = Some [mkItem "A" "Pen" 300 "" 1]
  /\ activeVoucher (CartPage.page (after true)) = None
  /\ storedCart (CartPage.page (after false)) = Some [mkItem "A" "Pen" 300 "" 1]
  /\ activeVoucher (CartPage.page (after false)) = Some "OFFI2025".
Proof.
  cbv zeta.
  pose proof (C4_applyVoucherClick Some Some true
    (savedPage [mkItem "A" "Pen" 300 "" 2] (mkPage emptyStorage None))
    [CartPage.QuantityInput "A" "1"] " offi2025 ") as (Ht & _).
  pose proof (C4_applyVoucherClick Some Some false
    (savedPage [mkItem "A" "Pen" 300 "" 2] (mkPage emptyStorage None))
    [CartPage.QuantityInput "A" "1"] " offi2025 ") as (Hf & _).
  rewrite Ht, Hf. repeat split; reflexivity.
Defined.

(** * Quantities and the lines of the cart *)

Lemma ids_incrementOrPush (encodeURI decodeURI : string -> option string)
  (item : CartItem) (cart : Cart) (k : string) :
  In k (map id cart) ->
  In k (map id (Script.incrementOrPush encodeURI decodeURI item cart)).
Proof.
  unfold Script.incrementOrPush.
  destruct (findById (id item) cart).
  - by rewrite updateFound_ids.
  - rewrite map_app, in_app_iff. by left.
Qed.

(** Only a remove button, a placed order and a logout take a line out of
    the cart. *)
Lemma handle_keepsLines (encodeURI decodeURI : string -> option string)
  (e : Script.Event) (p : Page) (cart : Cart) :
  keepsLines e = true -> storedCart p = Some cart ->
  exists cart',
    storedCart (exec (Script.handle encodeURI decodeURI e) p) = Some cart'
    /\ forall k, In k (map id cart) -> In k (map id cart').
Proof.
  intros Hkeeps Hcart.
  destruct e as [|user|card href|key value|key|listener onclick input|
                 |key value|key|form now|]; try discriminate;
    cbn [Script.handle].
  - unfold exec at 1. rewrite (pageLoad_run _ _ p cart Hcart). cbn [snd].
    assert (Hcart' : storedCart (refreshedPage cart p) = Some cart)
      by exact Hcart.
    destruct (migrateStoredImages_storedCart encodeURI decodeURI _ _ Hcart')
      as [Hq _].
    unfold exec at 1. rewrite (replayPendingAdd_run _ _ _ _ Hq). cbn [snd].
    destruct (pendingToReplay _) as [pending|].
    + eexists. split; [reflexivity|]. intros k Hk.
      apply ids_incrementOrPush.
      by rewrite (proj1 (normalizeImage_fields encodeURI decodeURI cart)).
    + exists (map (Script.normalizeImage encodeURI decodeURI) cart).
      split; [exact Hq|]. intros k Hk.
      by rewrite (proj1 (normalizeImage_fields encodeURI decodeURI cart)).
  - exists cart. by split.
  - unfold exec. rewrite addToCartClick_run.
    destruct (loggedIn p); [|exists cart; by split].
    rewrite addItemToCart_run, Hcart. cbn [snd].
    eexists. split; [reflexivity|]. intros k. apply ids_incrementOrPush.
  - rewrite (cartQuantityChange_run key value p cart Hcart).
    eexists. split; [reflexivity|]. intros k.
    by rewrite updateFound_ids.
  - rewrite applyVoucherButton_exec. exists cart. split; [|done].
    destruct (Script.getVoucherByCode input) as [v|]; [|exact Hcart].
    by destruct (_ || _).
  - rewrite removeVoucherClick_run. exists cart. by split.
  - rewrite (checkoutQuantityChange_run key value p cart Hcart).
    eexists. split; [reflexivity|]. intros k.
    by rewrite updateFound_ids.
Qed.

(** C5, amended: in script1.js every reachable cart has quantities of at
    least 1, and a quantity value below 1, or one that is not a number,
    leaves the cart with that item removed.  In the later script the
    quantity controls never remove an item.  For a value that does not
    parse to a negative number the cart page stores the parsed value,
    with 1 for 0 and for a value that is not a number; the checkout page
    stores the parsed value raised to at least 1; either way the quantity
    stored is at least 1 and the lines stay.  A line leaves the cart only
    through a remove button, a placed order or a logout.  Every cart
    reached in the later script by events other than a cart-page value
    that parses to a negative number has quantities of at least 1. *)
Theorem C5_quantities (encodeURI decodeURI : string -> option string) :
  (forall p, Script1.reachable p ->
     exists cart, storedCart p = Some cart /\ quantitiesPositive cart)
  /\ (forall p key value cart,
        storedCart p = Some cart ->
        (forall n, parseInt value None = Some n -> n < 1) ->
        exec (Script1.quantityChange key value) p
        = exec (Script1.removeClick key) p
        /\ storedCart (exec (Script1.quantityChange key value) p)
           = Some (filterOut key cart))
  /\ (forall p,
        Script.reachableBy encodeURI decodeURI nonNegativeCartInput p ->
        exists cart, storedCart p = Some cart /\ quantitiesPositive cart)
  /\ (forall p key value cart,
        storedCart p = Some cart ->
        (forall n, parseInt value (Some 10) = Some n -> 0 <= n) ->
        exists q cart',
          q = match parseInt value (Some 10) with
              | Some 0 | None => 1
              | Some n => n
              end
          /\ 1 <= q
          /\ cart' = updateFound key (withQuantity q) cart
          /\ storedCart (exec (Script.cartQuantityChange key value) p)
             = Some cart'
          /\ map id cart' = map id cart)
  /\ (forall p key value cart,
        storedCart p = Some cart ->
        exists q cart',
          q = Z.max 1 (match parseInt value (Some 10) with
                       | Some 0 | None => 1
                       | Some n => n
                       end)
          /\ 1 <= q
          /\ cart' = updateFound key (withQuantity q) cart
          /\ storedCart (exec (Script.checkoutQuantityChange key value) p)
             = Some cart'
          /\ map id cart' = map id cart)
  /\ (forall p key cart,
        storedCart p = Some cart ->
        storedCart (exec (Script.cartRemoveClick key) p)
        = Some (filterOut key cart))
  /\ (forall e p cart,
        keepsLines e = true -> storedCart p = Some cart ->
        exists cart',
          storedCart (exec (Script.handle encodeURI decodeURI e) p)
          = Some cart'
          /\ forall k, In k (map id cart) -> In k (map id cart')).
Proof.
  split; [|split; [|split; [|split; [|split; [|split]]]]].
  - apply reachable1_positive.
  - intros p key value cart Hcart Hlow.
    assert (Hq : Script1.quantityChange key value = Script1.removeItem key).
    { unfold Script1.quantityChange.
      destruct (parseInt value None) as [n|]; [|reflexivity].
      specialize (Hlow n eq_refl).
      destruct (0 <? n) eqn:E; [apply Z.ltb_lt in E; lia | reflexivity]. }
    rewrite Hq. split; [reflexivity|].
    rewrite (removeItem1_run _ _ _ Hcart). reflexivity.
  - apply reachableBy_positive.
  - intros p key value cart Hcart Hvalue.
    rewrite (cartQuantityChange_run _ _ _ _ Hcart).
    eexists _, _. split; [reflexivity|]. split.
    { destruct (parseInt value (Some 10)) as [n|]; [|lia].
      specialize (Hvalue n eq_refl). destruct n; lia. }
    split; [reflexivity|].
    split; [reflexivity|]. by apply updateFound_ids.
  - intros p key value cart Hcart.
    rewrite (checkoutQuantityChange_run _ _ _ _ Hcart).
    eexists _, _. split; [reflexivity|]. split; [lia|].
    split; [reflexivity|].
    split; [|by apply updateFound_ids].
    rewrite storedCart_savedPage. do 3 f_equal.
    change (match parseInt value (Some 10) with
            | Some 0 | None => 1
            | Some n => n
            end) with (Script.parseQuantity value).
    destruct (Script.parseQuantity value <? 1) eqn:E.
    + apply Z.ltb_lt in E. lia.
    + apply Z.ltb_ge in E. lia.
  - intros p key cart Hcart.
    rewrite (cartRemoveClick_run _ _ _ Hcart). reflexivity.
  - intros e p cart. apply handle_keepsLines.
Qed.

(** In script1.js a pen is added and its quantity set to 3; in the later
    script a signed-in user adds a pen, types 0 on the cart page and -3 at
    checkout.  Both carts have quantities of at least 1. *)
Lemma C5_quantities_witness :
  (exists cart,
     storedCart
       (exec (Script1.handle (Script1.QuantityInput "A" "3"))
          (exec (Script1.handle
                   (Script1.AddToCart (mkCard "A" "Pen" 100 "pen.png")))
             (mkPage emptyStorage None)))
     = Some cart
     /\ quantitiesPositive cart)
  /\ (exists cart,
        storedCart
          (Script.run Some Some
             [ Script.SignIn "ana";
               Script.AddToCart (mkCard "A" "Pen" 100 "") "catalog.html";
               Script.CartQuantityInput "A" "0";
               Script.CheckoutQuantityInput "A" "-3" ]
             (mkPage emptyStorage None))
        = Some cart
        /\ quantitiesPositive cart).
Proof.
  split.
  - apply (proj1 (C5_quantities Some Some)).
    apply Script1.reachable_event, Script1.reachable_event,
      Script1.reachable_fresh.
  - apply (proj1 (proj2 (proj2 (C5_quantities Some Some)))).
    cbn [Script.run fold_left].
    repeat (apply Script.reachable_event; [by vm_compute|]).
    apply Script.reachable_fresh.
Defined.
